(** * Model Navigator: metadata inference, pipeline execution, TF pipeline manager

    A shallow embedding of
    - [model_navigator/commands/infer_metadata.py] (module [InferMetadata]),
    - [model_navigator/framework_api/pipelines/pipeline.py] (module [PipelineRun]),
    - [model_navigator/framework_api/pipelines/pipeline_manager_tf.py]
      (module [TFManager]),
    then the vocabulary of the specification (module [Spec]) and the
    properties the specification states about the code.

    Python dictionaries that are iterated ([axes_shapes], a tensor's axes,
    [dynamic_axes]) are association lists in insertion order; dictionaries
    that are only read and written by key ([TensorMetadata],
    [TensorRTProfile], the pipeline namespace) are [gmap]s.  Python integers
    are [Z].  A call either returns or raises: [Res A]. *)

From Stdlib Require Import ZArith QArith List String Lia DecimalString.
From stdpp Require Import gmap strings list.

Close Scope Q_scope.
Open Scope Z_scope.

(** ** Python results and builtins *)

Module Py.

Inductive Error : Type :=
| ValueError (msg : string)
| IndexError
| KeyError
| TypeError
| UnboundLocalError
| RuntimeError (msg : string)
| AssertionError (msg : string)
| ModelNavigatorUserInputError (msg : string).

Inductive Res (A : Type) : Type :=
| Ok (a : A)
| Raise (e : Error).
Arguments Ok {A} a.
Arguments Raise {A} e.

#[global] Instance res_ret : MRet Res := fun A a => Ok a.
#[global] Instance res_bind : MBind Res := fun A B k r =>
  match r with
  | Ok a => k a
  | Raise e => Raise e
  end.

Definition is_ok {A} (r : Res A) : bool :=
  match r with Ok _ => true | Raise _ => false end.

(** [d[k]] and [d.get(k)] on a dictionary kept in insertion order. *)
Fixpoint dict_get {K V} `{EqDecision K} (d : list (K * V)) (k : K) : option V :=
  match d with
  | [] => None
  | (k', v) :: d' => if decide (k' = k) then Some v else dict_get d' k
  end.

Definition getitem {K V} `{EqDecision K} (d : list (K * V)) (k : K) : Res V :=
  match dict_get d k with
  | Some v => Ok v
  | None => Raise KeyError
  end.

(** [d[k] = v]: an existing key keeps its place, a new key goes last. *)
Fixpoint dict_set {K V} `{EqDecision K} (d : list (K * V)) (k : K) (v : V)
    : list (K * V) :=
  match d with
  | [] => [(k, v)]
  | (k', v') :: d' =>
      if decide (k' = k) then (k, v) :: d' else (k', v') :: dict_set d' k v
  end.

(** [l[i] = v] on a list: a negative index counts from the end, an index
    out of range raises [IndexError]. *)
Definition list_setitem (l : list Z) (i : Z) (v : Z) : Res (list Z) :=
  let n := Z.of_nat (length l) in
  let j := if i <? 0 then i + n else i in
  if (j <? 0) || (n <=? j) then Raise IndexError
  else Ok (<[Z.to_nat j := v]> l).

(** [min(l)] and [max(l)]: both raise [ValueError] on an empty sequence. *)
Definition min (l : list Z) : Res Z :=
  match l with
  | [] => Raise (ValueError "min() arg is an empty sequence")
  | x :: l' => Ok (fold_left Z.min l' x)
  end.

Definition max (l : list Z) : Res Z :=
  match l with
  | [] => Raise (ValueError "max() arg is an empty sequence")
  | x :: l' => Ok (fold_left Z.max l' x)
  end.

(** [str(i)] for an integer. *)
Definition str (i : Z) : string := NilZero.string_of_int (Z.to_int i).

End Py.

Import Py.

(** ** numpy's median *)

Module Np.

(** Insertion sort; [np.median] reads the middle of the sorted data. *)
Fixpoint insert (x : Z) (l : list Z) : list Z :=
  match l with
  | [] => [x]
  | y :: l' => if x <=? y then x :: l else y :: insert x l'
  end.

Definition sort (l : list Z) : list Z := fold_right insert [] l.

(** The double nearest to the integer [x], ties going to the even
    significand: what the conversion of an [int64] entry to [float64] and
    the addition of two integral doubles return.  A double has 53
    significant bits: an integer below [2 ^ 53] in magnitude is a double,
    and in [[2 ^ k, 2 ^ (k + 1))] the doubles are the multiples of
    [2 ^ (k - 52)]. *)
Definition float64 (x : Z) : Z :=
  let a := Z.abs x in
  let e := Z.log2 a - 52 in
  if e <=? 0 then x
  else
    let q := 2 ^ e in
    let m := a / q in
    let r := a mod q in
    let m' := if 2 * r <? q then m
              else if q <? 2 * r then m + 1
              else if Z.even m then m else m + 1 in
    Z.sgn x * (m' * q).

(** [np.median(l)] on a list of integers, which become an [int64] array:
    [np.mean], in double precision, of the middle element of the sorted
    data, or of the two middle elements when their number is even; [nan]
    (here [None]) on empty data.  [np.mean] converts each element to a
    double, adds the doubles and divides the sum by their number; the value
    of the resulting double is kept as a rational. *)
Definition median (l : list Z) : option Q :=
  let s := sort l in
  let n := length s in
  match n with
  | O => None
  | _ =>
      if Nat.even n
      then Some (Qmake (float64 (float64 (nth (n / 2 - 1) s 0)
                                 + float64 (nth (n / 2) s 0))) 2)
      else Some (inject_Z (float64 (nth (n / 2) s 0)))
  end.

(** [int(x)] on a float: truncation toward zero; [int(nan)] raises. *)
Definition int (x : option Q) : Res Z :=
  match x with
  | None => Raise (ValueError "cannot convert float NaN to integer")
  | Some q => Ok (Z.quot (Qnum q) (Z.pos (Qden q)))
  end.

End Np.

(** ** [commands/infer_metadata.py] *)

Module InferMetadata.

(** [Dict[str, Dict[int, List[int]]]]: tensor name, then axis index, then
    the sizes observed on that axis, one per sample. *)
Definition Axes := list (Z * list Z).
Definition AxesShapes := list (string * Axes).

Definition _extract_max_batch_size
    (axes_shapes : AxesShapes) (batch_dim : option Z) : Res Z :=
  match batch_dim with
  | Some k =>
      match map snd axes_shapes with
      | [] => Raise IndexError
      | first :: _ =>
          bucket ← getitem first k;
          Py.max bucket
      end
  | None => Ok 0
  end.

(** Modelled from the spec: [ShapeTuple] and [TensorRTProfile.add] of
    [model_navigator/api/config.py], which is not among the sources: a
    profile maps a tensor name to its min, opt and max shapes, one entry
    per input, and [add(name, min, opt, max)] writes that entry. *)
Record ShapeTuple := { min : list Z; opt : list Z; max : list Z }.

Definition TensorRTProfile_add
    (self : gmap string ShapeTuple) (name : string) (mn op mx : list Z)
    : gmap string ShapeTuple :=
  <[name := {| min := mn; opt := op; max := mx |}]> self.

Definition missing_shape_msg (name : string) : string :=
  "Missing shape information for " ++ name ++ " input from dataloader."
  ++ "Scalar values are not supported by Triton Inference Server."
  ++ "Wrap it in tuple to add dimension e.g. tensor(3) -> tensor((3,))".

(** One pass of the inner loop of [_get_trt_profile_from_axes_shapes]. *)
Definition trt_axis_entry (batch_dim : option Z) (ax : Z) (shapes : list Z)
    : Res (Z * Z * Z) :=
  if decide (Some ax = batch_dim)
  then (* min bs = 1 *)
    o ← Np.int (Np.median shapes);
    mx ← Py.max shapes;
    Ok (1, o, mx)
  else
    mn ← Py.min shapes;
    o ← Np.int (Np.median shapes);
    mx ← Py.max shapes;
    Ok (mn, o, mx).

Fixpoint trt_axes_loop (batch_dim : option Z) (axes : Axes)
    (min_max_opt : list (Z * Z * Z)) : Res (list (Z * Z * Z)) :=
  match axes with
  | [] => Ok min_max_opt
  | (ax, shapes) :: axes' =>
      t ← trt_axis_entry batch_dim ax shapes;
      trt_axes_loop batch_dim axes' (min_max_opt ++ [t])
  end.

Fixpoint trt_profile_loop (batch_dim : option Z) (axes_shapes : AxesShapes)
    (trt_profile : gmap string ShapeTuple) : Res (gmap string ShapeTuple) :=
  match axes_shapes with
  | [] => Ok trt_profile
  | (name, axes) :: rest =>
      min_max_opt ← trt_axes_loop batch_dim axes [];
      match min_max_opt with
      | [] => Raise (ModelNavigatorUserInputError (missing_shape_msg name))
      | _ =>
          (* zip( *min_max_opt ): the three columns *)
          trt_profile_loop batch_dim rest
            (TensorRTProfile_add trt_profile name
               (map (λ t, t.1.1) min_max_opt)
               (map (λ t, t.1.2) min_max_opt)
               (map (λ t, t.2) min_max_opt))
      end
  end.

Definition _get_trt_profile_from_axes_shapes
    (axes_shapes : AxesShapes) (batch_dim : option Z)
    : Res (gmap string ShapeTuple) :=
  trt_profile_loop batch_dim axes_shapes ∅.

(** Modelled from the spec: [TensorSpec] and [TensorMetadata.add] of
    [model_navigator/utils/tensor.py], which is not among the sources: a
    spec is a name, a shape in which -1 is the dynamic wildcard, a dtype
    and an optional flag that defaults to false; [add] inserts or replaces
    the spec stored under the name. *)
Definition Dtype := string.

Record TensorSpec :=
  { name : string; shape : list Z; dtype : Dtype; optional : bool }.

Definition mkTensorSpec (name : string) (shape : list Z) (dtype : Dtype)
    : TensorSpec :=
  {| name := name; shape := shape; dtype := dtype; optional := false |}.

Definition TensorMetadata_add
    (self : gmap string TensorSpec) (name : string) (shape : list Z)
    (dtype : Dtype) : gmap string TensorSpec :=
  <[name := mkTensorSpec name shape dtype]> self.

(** One pass of the inner loop of [_get_metadata_from_axes_shapes];
    [or] does not evaluate its right operand on the batch axis. *)
Definition metadata_axis_entry (batch_dim : option Z) (ax : Z)
    (shapes : list Z) : Res Z :=
  if decide (Some ax = batch_dim) then Ok (-1)
  else
    mn ← Py.min shapes;
    mx ← Py.max shapes;
    if decide (mn ≠ mx) then Ok (-1)
    else
      match shapes with
      | [] => Raise IndexError
      | d :: _ => Ok d
      end.

Fixpoint metadata_axes_loop (batch_dim : option Z) (axes : Axes)
    (tensor_shape : list Z) : Res (list Z) :=
  match axes with
  | [] => Ok tensor_shape
  | (ax, shapes) :: axes' =>
      d ← metadata_axis_entry batch_dim ax shapes;
      metadata_axes_loop batch_dim axes' (tensor_shape ++ [d])
  end.

Fixpoint metadata_loop (batch_dim : option Z) (dtypes : list (string * Dtype))
    (axes_shapes : AxesShapes) (metadata : gmap string TensorSpec)
    : Res (gmap string TensorSpec) :=
  match axes_shapes with
  | [] => Ok metadata
  | (name, axes) :: rest =>
      tensor_shape ← metadata_axes_loop batch_dim axes [];
      dt ← getitem dtypes name;
      metadata_loop batch_dim dtypes rest
        (TensorMetadata_add metadata name tensor_shape dt)
  end.

Definition _get_metadata_from_axes_shapes
    (axes_shapes : AxesShapes) (batch_dim : option Z)
    (dtypes : list (string * Dtype)) : Res (gmap string TensorSpec) :=
  metadata_loop batch_dim dtypes axes_shapes ∅.

(** [for ax in axes: shape[ax] = -1] on the local copy of the shape. *)
Fixpoint set_dynamic (shape : list Z) (axes : list Z) : Res (list Z) :=
  match axes with
  | [] => Ok shape
  | ax :: axes' =>
      shape' ← list_setitem shape ax (-1);
      set_dynamic shape' axes'
  end.

Definition not_dynamic_msg (name : string) (ax : Z) : string :=
  "In tensor `" ++ name ++ "` axis `" ++ Py.str ax
  ++ "` is not set as dynamic axes but is dynamic in the dataloader.".

(** [for ax, d in enumerate(tensor_spec.shape)]: the verification loop,
    [ax] being the index of the head of [dims]. *)
Fixpoint verify_axes (name : string) (axes : list Z) (ax : Z) (dims : list Z)
    : Res unit :=
  match dims with
  | [] => Ok ()
  | d :: dims' =>
      if bool_decide (d = -1) && negb (bool_decide (ax ∈ axes))
      then Raise (ValueError (not_dynamic_msg name ax))
      else verify_axes name axes (ax + 1) dims'
  end.

(** The metadata dictionary is updated in place: the function is modelled
    by the dictionary it leaves behind and by how the call ends. *)
Fixpoint _update_user_dynamic_axes_inplace
    (dynamic_axes : list (string * list Z))
    (input_metadata : gmap string TensorSpec)
    : gmap string TensorSpec * Res unit :=
  match dynamic_axes with
  | [] => (input_metadata, Ok ())
  | (name, axes) :: rest =>
      match input_metadata !! name with
      | None => (input_metadata, Ok ())  (* return *)
      | Some tensor_spec =>
          match set_dynamic (shape tensor_spec) axes with
          | Raise e => (input_metadata, Raise e)
          | Ok shape' =>
              let input_metadata' :=
                <[name := mkTensorSpec name shape' (dtype tensor_spec)]>
                  input_metadata in
              match verify_axes name axes 0 (shape tensor_spec) with
              | Raise e => (input_metadata', Raise e)
              | Ok _ => _update_user_dynamic_axes_inplace rest input_metadata'
              end
          end
      end
  end.

(** *** Axis-shape extraction

    [validate_sample_input] and [extract_sample] live in
    [utils/dataloader.py], which is not among the sources: they are
    parameters.  Only the shape of an extracted tensor is read, so
    [extract_sample] yields the mapping from names to shapes.  A data
    source is the bounded sequence of samples that iterating it yields,
    together with what [len()] reports for it ([None] when the object has
    no length, as for a generator).  Warnings go to a log. *)
Section ExtractAxesShapes.
Context {Sample Framework : Type}.
Variable validate_sample_input : Sample → Framework → Res unit.
Variable extract_sample :
  Sample → list string → Framework → Res (list (string * list Z)).

Record DataLoader := { samples : list Sample; len : option Z }.

Definition more_samples_msg (n : Z) : string :=
  "len(dataloader)=" ++ Py.str n ++ ", but more samples found.".

Definition only_samples_msg (n found : Z) : string :=
  "len(dataloader)=" ++ Py.str n ++ ", but only " ++ Py.str found
  ++ " samples found.".

(** [{ax: [] for ax in range(ndim)}] *)
Definition empty_axes (ndim : Z) : Axes :=
  map (λ ax, (Z.of_nat ax, [])) (seq 0 (Z.to_nat ndim)).

(** [{name: ... for name, ndim in zip(input_names, input_ndims)}] *)
Definition init_axes_shapes (input_names : list string)
    (input_ndims : list Z) : AxesShapes :=
  fold_left (λ d '(name, ndim), dict_set d name (empty_axes ndim))
    (zip input_names input_ndims) [].

(** [for k, dim in enumerate(tensor.shape): axes_shapes[name][k].append(dim)] *)
Fixpoint append_dims (axes_shapes : AxesShapes) (name : string) (k : Z)
    (dims : list Z) : Res AxesShapes :=
  match dims with
  | [] => Ok axes_shapes
  | dim :: dims' =>
      axes ← getitem axes_shapes name;
      bucket ← getitem axes k;
      append_dims
        (dict_set axes_shapes name (dict_set axes k (bucket ++ [dim])))
        name (k + 1) dims'
  end.

(** [for name, tensor in sample.items(): ...] *)
Fixpoint append_sample (axes_shapes : AxesShapes)
    (sample : list (string * list Z)) : Res AxesShapes :=
  match sample with
  | [] => Ok axes_shapes
  | (name, tensor_shape) :: sample' =>
      axes_shapes' ← append_dims axes_shapes name 0 tensor_shape;
      append_sample axes_shapes' sample'
  end.

(** [for i, sample in enumerate(dataloader)]: [rest] is what the source
    still yields, [i] the index of its head, [last_i] the value the loop
    variable [i] holds so far ([None] while it is unbound).  The result
    carries the buckets and the value of [i] when the loop is left. *)
Fixpoint extract_loop (dataloader : DataLoader) (input_names : list string)
    (num_samples : Z) (framework : Framework) (rest : list Sample) (i : Z)
    (last_i : option Z) (axes_shapes : AxesShapes) (log : list string)
    : list string * Res (AxesShapes * option Z) :=
  match rest with
  | [] => (log, Ok (axes_shapes, last_i))
  | sample :: rest' =>
      if num_samples <=? i
      then
        match len dataloader with
        | None => (log, Raise TypeError)
        | Some n => (log ++ [more_samples_msg n], Ok (axes_shapes, Some i))
        end
      else
        match
          (_ ← validate_sample_input sample framework;
           sample' ← extract_sample sample input_names framework;
           append_sample axes_shapes sample')
        with
        | Raise e => (log, Raise e)
        | Ok axes_shapes' =>
            extract_loop dataloader input_names num_samples framework
              rest' (i + 1) (Some i) axes_shapes' log
        end
  end.

Definition _extract_axes_shapes (dataloader : DataLoader)
    (input_names : list string) (input_ndims : list Z) (num_samples : Z)
    (framework : Framework) (check_len : bool)
    : list string * Res AxesShapes :=
  if check_len && negb (bool_decide (is_Some (len dataloader)))
  then ([], Raise (AssertionError
    "dataloader is not an instance of SizedDataLoader, unable to check length."))
  else
    match
      extract_loop dataloader input_names num_samples framework
        (samples dataloader) 0 None
        (init_axes_shapes input_names input_ndims) []
    with
    | (log, Raise e) => (log, Raise e)
    | (log, Ok (axes_shapes, last_i)) =>
        if check_len
        then
          match last_i, len dataloader with
          | None, _ => (log, Raise UnboundLocalError)
          | Some _, None => (log, Raise TypeError)
          | Some i, Some n =>
              if n <=? i + 1 then (log, Ok axes_shapes)
              else (log, Raise (AssertionError (only_samples_msg n (i + 1))))
          end
        else (log, Ok axes_shapes)
    end.

End ExtractAxesShapes.

Arguments DataLoader Sample : clear implicits.

End InferMetadata.

(** ** [framework_api/pipelines/pipeline.py] *)

Module PipelineRun.

Inductive Status := OK | FAIL | SKIPPED | NOOP.

#[global] Instance Status_eq_dec : EqDecision Status.
Proof. solve_decision. Defined.

Section Pipeline.
(** Python objects other than [None]; [option Value] is an object or
    [None]. *)
Context {Value : Type}.

Record CommandResults := { status : Status; output : option Value }.

(** Modelled from the spec: the [Command] class of
    [framework_api/commands/core.py], which is not among the sources.
    A command has a name, the commands it requires (by identity, here
    their [cid]), an [is_required] flag, an optional output name, and its
    own work: a callable on the accumulated namespace that returns a
    status and an output, a fault of the work being already captured as
    [FAIL]. *)
Record Command :=
  { cid : nat;
    name : string;
    requires : list nat;
    is_required : bool;
    output_name : option string;
    execute : gmap string (option Value) → CommandResults }.

(** The status attribute of every command object that has finished;
    a command that has not run yet has none. *)
Definition Statuses := gmap nat Status.

Definition reached_ok (statuses : gmap nat Status) (r : nat) : bool :=
  bool_decide (statuses !! r = Some OK).

(** Modelled from the spec: [Command.transform], which is not among the
    sources.  A command of which a required upstream command did not
    reach OK is not attempted: it ends SKIPPED with no output unless it
    is [is_required], in which case the whole run aborts.  Otherwise the
    command does its work and ends with the status of that work. *)
Definition Command_transform (command : Command)
    (statuses : gmap nat Status) (kwargs : gmap string (option Value))
    : Res (CommandResults * gmap nat Status) :=
  if forallb (reached_ok statuses) (requires command)
  then
    let results := execute command kwargs in
    Ok (results, <[cid command := status results]> statuses)
  else if is_required command
  then Raise (RuntimeError ("Required command " ++ name command
                            ++ " cannot run: a dependency failed"))
  else
    Ok ({| status := SKIPPED; output := None |},
        <[cid command := SKIPPED]> statuses).

(** The state of the loop of [Pipeline.__call__]. *)
Record LoopState :=
  { additional_params : gmap string (option Value);
    commands_results : list CommandResults;
    statuses : gmap nat Status }.

Definition initial : LoopState :=
  {| additional_params := ∅; commands_results := []; statuses := ∅ |}.

(** [{**config.to_dict(), **additional_params}]: the later mapping wins. *)
Definition namespace (config : gmap string (option Value))
    (st : LoopState) : gmap string (option Value) :=
  additional_params st ∪ config.

Section Loop.
(** The commands' [transform] method, called by the loop. *)
Variable transform :
  Command → gmap nat Status → gmap string (option Value)
  → Res (CommandResults * gmap nat Status).

(** One pass of the loop. *)
Definition step (config : gmap string (option Value))
    (command : Command) (st : LoopState) : Res LoopState :=
  '(results, statuses') ←
    transform command (statuses st) (namespace config st);
  let additional_params' :=
    match output_name command with
    | Some key => <[key := output results]> (additional_params st)
    | None => additional_params st
    end in
  Ok {| additional_params := additional_params';
        commands_results := commands_results st ++ [results];
        statuses := statuses' |}.

Fixpoint loop (config : gmap string (option Value))
    (commands : list Command) (st : LoopState) : Res LoopState :=
  match commands with
  | [] => Ok st
  | command :: commands' =>
      st' ← step config command st;
      loop config commands' st'
  end.

(** [Pipeline.__call__]: the per-command results, in order. *)
Definition Pipeline_call (commands : list Command)
    (config : gmap string (option Value)) : Res (list CommandResults) :=
  st ← loop config commands initial;
  Ok (commands_results st).
End Loop.

End Pipeline.

Arguments CommandResults Value : clear implicits.
Arguments Command Value : clear implicits.
Arguments LoopState Value : clear implicits.

End PipelineRun.

(** ** [framework_api/pipelines/pipeline_manager_tf.py] *)

Module TFManager.

#[local] Set Warnings "-register-all".

(** The members of [model_navigator.model.Format] that the manager
    names; the enumeration itself is not among the sources. *)
Inductive Format :=
| TF_SAVEDMODEL | ONNX | TENSORRT | TF_TRT | OtherFormat (tag : string).

#[global] Instance Format_eq_dec : EqDecision Format.
Proof. solve_decision. Defined.

Inductive CommandClass :=
| InferInputMetadata | FetchInputModelData | InferOutputMetadata
| DumpInputModelData | DumpOutputModelData | ExportTF2SavedModel
| CorrectnessSavedModel | PerformanceSavedModel | ConfigCli
| LoadMetadata | LoadSamples
| ConvertSavedModel2ONNX | CorrectnessTensorFlow2ONNX | PerformanceONNX
| ConvertONNX2TRT | CorrectnessTensorFlow2TRT | PerformanceTRT
| ConvertSavedModel2TFTRT.

#[global] Instance CommandClass_eq_dec : EqDecision CommandClass.
Proof. solve_decision. Defined.

(** A command object as the manager constructs it: its class, the keyword
    arguments it was given, and the command objects in [requires]. *)
Inductive Command :=
  mkCommand (cls : CommandClass)
            (target_format : option Format)
            (target_precision : option string)
            (runtime_provider : option string)
            (requires : list Command).

Definition cls (c : Command) : CommandClass :=
  match c with mkCommand k _ _ _ _ => k end.
Definition requires (c : Command) : list Command :=
  match c with mkCommand _ _ _ _ r => r end.

Record Config :=
  { from_source : bool;
    target_formats : list Format;
    onnx_runtimes : list string;
    target_precisions : list string }.

Record Pipeline :=
  { name : string; framework : string; commands : list Command }.

(** The ONNX block, written twice in the source with the same text. *)
Definition onnx_block (config : Config) (preprocess_req : list Command)
    : Command * list Command :=
  let onnx_convert :=
    mkCommand ConvertSavedModel2ONNX None None None preprocess_req in
  (onnx_convert,
   [onnx_convert]
   ++ flat_map (λ provider,
        [mkCommand CorrectnessTensorFlow2ONNX None None (Some provider)
           [onnx_convert];
         mkCommand PerformanceONNX None None (Some provider) [onnx_convert]])
        (onnx_runtimes config)
   ++ [mkCommand ConfigCli (Some ONNX) None None [onnx_convert]]).

Definition _get_pipeline (config : Config) : Pipeline :=
  let '(commands, preprocess_req) :=
    if from_source config
    then
      let infer_input := mkCommand InferInputMetadata None None None [] in
      let fetch_input :=
        mkCommand FetchInputModelData None None None [infer_input] in
      let infer_output :=
        mkCommand InferOutputMetadata None None None
          [infer_input; fetch_input] in
      let export_savedmodel :=
        mkCommand ExportTF2SavedModel None None None
          [infer_input; fetch_input; infer_output] in
      ([infer_input;
        fetch_input;
        infer_output;
        mkCommand DumpInputModelData None None None [infer_input; fetch_input];
        mkCommand DumpOutputModelData None None None
          [fetch_input; infer_output];
        export_savedmodel;
        mkCommand CorrectnessSavedModel (Some TF_SAVEDMODEL) None None
          [export_savedmodel];
        mkCommand PerformanceSavedModel (Some TF_SAVEDMODEL) None None
          [export_savedmodel];
        mkCommand ConfigCli (Some TF_SAVEDMODEL) None None
          [export_savedmodel]],
       [export_savedmodel])
    else
      let load_metadata := mkCommand LoadMetadata None None None [] in
      let load_samples :=
        mkCommand LoadSamples None None None [load_metadata] in
      ([load_metadata; load_samples], [load_metadata; load_samples]) in
  (* Format.ONNX in config.target_formats; [onnx_convert] is the Python
     variable of that name, [None] while it is unbound *)
  let '(commands, onnx_convert) :=
    if bool_decide (ONNX ∈ target_formats config)
    then
      let '(onnx_convert, block) := onnx_block config preprocess_req in
      (commands ++ block, Some onnx_convert)
    else (commands, None) in
  (* Format.TENSORRT in config.target_formats *)
  let commands :=
    if bool_decide (TENSORRT ∈ target_formats config)
    then
      let '(commands, onnx_convert) :=
        if negb (bool_decide (ONNX ∈ target_formats config))
        then
          let '(onnx_convert, block) := onnx_block config preprocess_req in
          (commands ++ block, Some onnx_convert)
        else (commands, onnx_convert) in
      commands
      ++ flat_map (λ target_precision,
           let trt_convert :=
             mkCommand ConvertONNX2TRT None (Some target_precision) None
               (option_list onnx_convert) in
           [trt_convert;
            mkCommand CorrectnessTensorFlow2TRT None (Some target_precision)
              None [trt_convert];
            mkCommand PerformanceTRT None (Some target_precision) None
              [trt_convert];
            mkCommand ConfigCli (Some TENSORRT) (Some target_precision) None
              [trt_convert]])
           (target_precisions config)
    else commands in
  (* Format.TF_TRT in config.target_formats *)
  let commands :=
    if bool_decide (TF_TRT ∈ target_formats config)
    then
      commands
      ++ flat_map (λ target_precision,
           let convert_savedmodel2trt :=
             mkCommand ConvertSavedModel2TFTRT None (Some target_precision)
               None preprocess_req in
           [convert_savedmodel2trt;
            mkCommand CorrectnessSavedModel (Some TF_TRT)
              (Some target_precision) None [convert_savedmodel2trt];
            mkCommand PerformanceSavedModel (Some TF_TRT)
              (Some target_precision) None [convert_savedmodel2trt];
            mkCommand ConfigCli (Some TF_TRT) (Some target_precision) None
              [convert_savedmodel2trt]])
           (target_precisions config)
    else commands in
  {| name := "TensorFlow 2 pipeline"; framework := "TF2";
     commands := commands |}.

End TFManager.

(** ** Vocabulary of the specification *)

Module Spec.
Import InferMetadata.

(** The maximum and the minimum of the observed sizes. *)
Definition is_maximum (l : list Z) (m : Z) : Prop :=
  m ∈ l ∧ ∀ x, x ∈ l → x ≤ m.

Definition is_minimum (l : list Z) (m : Z) : Prop :=
  m ∈ l ∧ ∀ x, x ∈ l → m ≤ x.

(** The mapping of the unit test
    [test_extract_max_batch_size_return_correct_value_when_multiple_values_passed]. *)
Definition batch_example : AxesShapes :=
  [("input_0"%string,
    [(0, [5; 999; 1; 3; 7]);
     (1, [224; 224; 224; 224; 224]);
     (2, [224; 224; 224; 224; 224]);
     (3, [3; 3; 3; 3; 3])])].

(** A mapping as a dictionary holds it: no name twice. *)
Definition unique_names {V} (d : list (string * V)) : Prop := NoDup d.*1.

(** Every tensor has at least one axis and every bucket an observation. *)
Definition observed (axes_shapes : AxesShapes) : Prop :=
  ∀ name axes, (name, axes) ∈ axes_shapes →
    axes ≠ [] ∧ ∀ ax shapes, (ax, shapes) ∈ axes → shapes ≠ [].

(** The statistical median of the observed sizes, as a number: the middle
    one in increasing order, or the mean of the two middle ones when their
    number is even. *)
Definition statistical_median (shapes : list Z) : option Q :=
  let s := Np.sort shapes in
  let n := length s in
  match n with
  | O => None
  | _ =>
      if Nat.even n
      then Some (Qmake (nth (n / 2 - 1) s 0 + nth (n / 2) s 0) 2)
      else Some (inject_Z (nth (n / 2) s 0))
  end.

(** The opt entry as the specification words it: the statistical median of
    the observed sizes. *)
Definition opt_is_median (shapes : list Z) (o : Z) : Prop :=
  ∃ q, statistical_median shapes = Some q ∧ (inject_Z o == q)%Q.

(** The opt entry with the conversion [int( )] of the source: the
    statistical median rounded toward zero. *)
Definition opt_is_int_median (shapes : list Z) (o : Z) : Prop :=
  ∃ q, statistical_median shapes = Some q
    ∧ o = Z.quot (Qnum q) (Z.pos (Qden q)).

(** The opt entry as the source computes it. *)
Definition opt_is_converted (shapes : list Z) (o : Z) : Prop :=
  Np.int (Np.median shapes) = Ok o.

(** Sizes on which the double arithmetic of [np.median] is exact: at most
    [2 ^ 52] in magnitude, so that two of them add up to a double. *)
Definition exact_sizes (axes_shapes : AxesShapes) : Prop :=
  ∀ name axes ax shapes x,
    (name, axes) ∈ axes_shapes → (ax, shapes) ∈ axes → x ∈ shapes →
    - 2 ^ 52 ≤ x ≤ 2 ^ 52.

(** The triple of one axis: min is 1 on the batch axis and the observed
    minimum elsewhere, max is the observed maximum. *)
Definition profile_entry (opt_ok : list Z → Z → Prop) (batch_dim : option Z)
    (axis : Z * list Z) (t : Z * Z * Z) : Prop :=
  (if decide (Some axis.1 = batch_dim) then t.1.1 = 1
   else is_minimum axis.2 t.1.1)
  ∧ opt_ok axis.2 t.1.2
  ∧ is_maximum axis.2 t.2.

(** The profile holds, for every tensor, one triple per axis, in the order
    of the axes. *)
Definition profile_derived (opt_ok : list Z → Z → Prop)
    (axes_shapes : AxesShapes) (batch_dim : option Z)
    (profile : gmap string ShapeTuple) : Prop :=
  ∀ name axes, (name, axes) ∈ axes_shapes →
    ∃ st, profile !! name = Some st
      ∧ length (min st) = length axes
      ∧ length (opt st) = length axes
      ∧ length (max st) = length axes
      ∧ ∀ j axis, axes !! j = Some axis →
          ∃ mn o mx, min st !! j = Some mn ∧ opt st !! j = Some o
            ∧ max st !! j = Some mx
            ∧ profile_entry opt_ok batch_dim axis (mn, o, mx).

Definition trt_profile_claim (opt_ok : list Z → Z → Prop)
    (axes_shapes : AxesShapes) (batch_dim : option Z) : Prop :=
  ∃ profile,
    _get_trt_profile_from_axes_shapes axes_shapes batch_dim = Ok profile
    ∧ profile_derived opt_ok axes_shapes batch_dim profile.

(** The observed sizes vary across samples. *)
Definition varies (shapes : list Z) : Prop :=
  ∃ x y, x ∈ shapes ∧ y ∈ shapes ∧ x ≠ y.

(** Observed sizes are dimensions of tensors: never negative. *)
Definition sizes_observed (axes_shapes : AxesShapes) : Prop :=
  ∀ name axes ax shapes, (name, axes) ∈ axes_shapes → (ax, shapes) ∈ axes →
    shapes ≠ [] ∧ ∀ x, x ∈ shapes → 0 ≤ x.

(** An axis is the wildcard exactly when it is the batch axis or its sizes
    vary; otherwise it is the one observed size. *)
Definition metadata_axis_ok (batch_dim : option Z) (axis : Z * list Z)
    (d : Z) : Prop :=
  (d = -1 ↔ Some axis.1 = batch_dim ∨ varies axis.2)
  ∧ (Some axis.1 ≠ batch_dim → ¬ varies axis.2 → ∀ x, x ∈ axis.2 → d = x).

Definition metadata_derived (axes_shapes : AxesShapes) (batch_dim : option Z)
    (metadata : gmap string TensorSpec) : Prop :=
  ∀ name axes, (name, axes) ∈ axes_shapes →
    ∃ spec, metadata !! name = Some spec
      ∧ length (shape spec) = length axes
      ∧ ∀ j axis, axes !! j = Some axis →
          ∃ d, shape spec !! j = Some d ∧ metadata_axis_ok batch_dim axis d.

(** Two samples, of batch sizes 1 and 2. *)
Definition two_batches : AxesShapes := [("input_0"%string, [(0, [1; 2])])].

(** One sample, of a size that is not a double: [2 ^ 53 + 1]. *)
Definition large_size : AxesShapes :=
  [("x"%string, [(0, [9007199254740993])])].

(** The call ends with the descriptive error of the user's input. *)
Definition raises_user_input_error {A} (r : Res A) : Prop :=
  ∃ msg, r = Raise (ModelNavigatorUserInputError msg).

(** A tensor with an axis that no sample filled, then a scalar. *)
Definition empty_then_scalar : AxesShapes :=
  [("x"%string, [(0, [])]); ("s"%string, [])].

(** A tensor with two observed sizes, then one with larger sizes. *)
Definition larger_second : AxesShapes :=
  [("a"%string, [(0, [2; 4])]); ("b"%string, [(0, [64; 128])])].

(** The mapping of the unit tests of the profile and of the metadata. *)
Definition shapes_example : AxesShapes :=
  [("input_0"%string,
    [(0, [1; 1; 1; 1; 1]);
     (1, [224; 224; 224; 224; 224]);
     (2, [224; 224; 224; 224; 224]);
     (3, [3; 3; 3; 3; 3])])].

(** [ax] is an index Python accepts for a list of length [n], and the
    position it denotes (a negative index counts from the end). *)
Definition valid_index (n : nat) (ax : Z) : Prop :=
  - Z.of_nat n ≤ ax < Z.of_nat n.

Definition position (n : nat) (ax : Z) : nat :=
  Z.to_nat (if ax <? 0 then ax + Z.of_nat n else ax).

(** The user declared axis [ax] of tensor [name] dynamic. *)
Definition declared (dynamic_axes : list (string * list Z)) (name : string)
    (ax : Z) : Prop :=
  ∃ axes, dict_get dynamic_axes name = Some axes ∧ ax ∈ axes.

(** An entry of [dynamic_axes] that the loop passes: the tensor is in the
    metadata, the declared axes are indices of its shape, and every axis
    inferred dynamic is among the declared ones. *)
Definition applies_cleanly (metadata : gmap string TensorSpec)
    (entry : string * list Z) : Prop :=
  ∃ spec, metadata !! entry.1 = Some spec
    ∧ (∀ ax, ax ∈ entry.2 → valid_index (length (shape spec)) ax)
    ∧ (∀ j, shape spec !! j = Some (-1) → Z.of_nat j ∈ entry.2).

(** [updated m m']: [m'] is [m] after some writes of the update loop. *)
Inductive updated (m : gmap string TensorSpec)
    : gmap string TensorSpec → Prop :=
| updated_refl : updated m m
| updated_write m' name axes spec shape' :
    updated m m' →
    m' !! name = Some spec →
    set_dynamic (shape spec) axes = Ok shape' →
    updated m (<[name := mkTensorSpec name shape' (dtype spec)]> m').

(** The write of an entry no longer changes the metadata. *)
Definition settled (entry : string * list Z)
    (m : gmap string TensorSpec) : Prop :=
  ∀ spec shape', m !! entry.1 = Some spec →
    set_dynamic (shape spec) entry.2 = Ok shape' →
    spec = mkTensorSpec entry.1 shape' (dtype spec).

(** C5 as worded: any axis inferred dynamic that the user did not declare
    makes the call raise the validation error naming tensor and axis. *)
Definition undeclared_wildcard_raises
    (dynamic_axes : list (string * list Z))
    (metadata : gmap string TensorSpec) : Prop :=
  ∀ name spec (j : nat),
    metadata !! name = Some spec →
    shape spec !! j = Some (-1) →
    ¬ declared dynamic_axes name (Z.of_nat j) →
    (_update_user_dynamic_axes_inplace dynamic_axes metadata).2
    = Raise (ValueError (not_dynamic_msg name (Z.of_nat j))).

(** The user names an output before an input; the metadata is that of the
    inputs. *)
Definition output_first : list (string * list Z) :=
  [("output__0"%string, [0]); ("input__0"%string, [0])].

Definition one_input : gmap string TensorSpec :=
  {["input__0"%string := mkTensorSpec "input__0" [3; 4] "float32"]}.

(** Two inputs with an inferred batch axis; the user declares the axes of
    the second only. *)
Definition second_only : list (string * list Z) := [("input__1"%string, [0])].

Definition two_inputs : gmap string TensorSpec :=
  <["input__0"%string := mkTensorSpec "input__0" [-1; 3] "float32"]>
    {["input__1"%string := mkTensorSpec "input__1" [-1; 5] "float32"]}.

Section ExtractSpec.
Context {Sample Framework : Type}.
Variable validate_sample_input : Sample → Framework → Res unit.
Variable extract_sample :
  Sample → list string → Framework → Res (list (string * list Z)).

(** Consuming samples: each one is validated and extracted, and the sizes
    of its tensors are appended to the buckets. *)
Fixpoint consume (input_names : list string) (framework : Framework)
    (samples : list Sample) (axes_shapes : AxesShapes) : Res AxesShapes :=
  match samples with
  | [] => Ok axes_shapes
  | sample :: samples' =>
      axes_shapes' ←
        (_ ← validate_sample_input sample framework;
         sample' ← extract_sample sample input_names framework;
         append_sample axes_shapes sample');
      consume input_names framework samples' axes_shapes'
  end.

(** C7, first half, as worded: a source that yields more than [num_samples]
    samples makes the extraction stop after [num_samples] of them with a
    warning logged, and return their buckets. *)
Definition more_samples_only_warn (dataloader : DataLoader Sample)
    (input_names : list string) (input_ndims : list Z) (num_samples : Z)
    (framework : Framework) (check_len : bool) : Prop :=
  num_samples < Z.of_nat (length (samples dataloader)) →
  ∀ axes_shapes,
    consume input_names framework
      (take (Z.to_nat num_samples) (samples dataloader))
      (init_axes_shapes input_names input_ndims) = Ok axes_shapes →
    ∃ log, log ≠ []
      ∧ _extract_axes_shapes validate_sample_input extract_sample dataloader
          input_names input_ndims num_samples framework check_len
        = (log, Ok axes_shapes).

End ExtractSpec.

(** A source of three samples, each a mapping with one tensor of shape
    (2, 8), that reports its length as 3; samples that are mappings need no
    conversion. *)
Definition mapping_sample : list (string * list Z) := [("x"%string, [2; 8])].

Definition three_samples : DataLoader (list (string * list Z)) :=
  {| samples := [mapping_sample; mapping_sample; mapping_sample];
     len := Some 3 |}.

Definition accept_sample (sample : list (string * list Z)) (framework : unit)
    : Res unit := Ok ().

Definition sample_as_is (sample : list (string * list Z))
    (input_names : list string) (framework : unit)
    : Res (list (string * list Z)) := Ok sample.

(** The commands of a list that convert the saved model to ONNX. *)
Definition onnx_conversions (commands : list TFManager.Command)
    : list TFManager.Command :=
  filter (λ c, TFManager.cls c = TFManager.ConvertSavedModel2ONNX) commands.

Section PipelineSpec.
Import PipelineRun.
Context {Value : Type}.

(** C3 as worded: a command that is not [is_required] and of which a
    required upstream command finished FAIL ends SKIPPED, and the key it
    declares is absent from the namespace that any later command receives,
    that is from the namespace after any commands [between]. *)
Definition skipped_output_absent (config : gmap string (option Value))
    (before : list (Command Value)) (command : Command Value) (between : list (Command Value))
    : Prop :=
  ∀ st r,
    loop Command_transform config before initial = Ok st →
    r ∈ PipelineRun.requires command →
    statuses st !! r = Some FAIL →
    is_required command = false →
    ∃ st',
      step Command_transform config command st = Ok st'
      ∧ status <$> last (commands_results st') = Some SKIPPED
      ∧ ∀ st'' key,
          loop Command_transform config between st' = Ok st'' →
          output_name command = Some key →
          namespace config st'' !! key = None.

End PipelineSpec.

(** An export that fails and a conversion that requires it. *)
Definition failing_export : PipelineRun.Command string :=
  {| PipelineRun.cid := 0; PipelineRun.name := "ExportModel";
     PipelineRun.requires := []; PipelineRun.is_required := false;
     PipelineRun.output_name := Some "exported"%string;
     PipelineRun.execute := λ _,
       {| PipelineRun.status := PipelineRun.FAIL;
          PipelineRun.output := None |} |}.

Definition dependent_convert : PipelineRun.Command string :=
  {| PipelineRun.cid := 1; PipelineRun.name := "ConvertModel";
     PipelineRun.requires := [0%nat]; PipelineRun.is_required := false;
     PipelineRun.output_name := Some "converted"%string;
     PipelineRun.execute := λ _,
       {| PipelineRun.status := PipelineRun.OK;
          PipelineRun.output := Some "model.onnx"%string |} |}.

End Spec.

(** ** [tests/utils/triton_model_config.py] *)

Module TritonModelConfig.

Section Configs.
(** The model configurations: dictionaries, compared with [==]. *)
Context {Config : Type} `{EqDecision Config}.

(** [l.remove(x)]: the first element equal to [x] goes; [ValueError] when
    there is none. *)
Fixpoint list_remove (x : Config) (l : list Config) : Res (list Config) :=
  match l with
  | [] => Raise (ValueError "list.remove(x): x not in list")
  | y :: l' =>
      if decide (y = x) then Ok l'
      else l'' ← list_remove x l'; Ok (y :: l'')
  end.

(** The loop over [a]: the value of [same] and what is left of [b]. *)
Fixpoint configs_loop (a b : list Config) : Res (option bool * list Config) :=
  match a with
  | [] => Ok (None, b)
  | item :: a' =>
      if negb (bool_decide (item ∈ b)) then Ok (Some false, b)  (* break *)
      else b' ← list_remove item b; configs_loop a' b'
  end.

Definition equal_model_configs_sets (a b : list Config) : Res bool :=
  '(same, b') ← configs_loop a b;
  match same with
  | None => Ok (bool_decide (b' = []))  (* same = not b *)
  | Some _ => Ok false
  end.

End Configs.

End TritonModelConfig.

(** ** The blocks of the TensorFlow command list *)

Module TFBlocks.
Import TFManager.

(** The commands of the source and what the conversions require of them. *)
Definition source_part (config : Config) : list Command * list Command :=
  if from_source config
  then
    let infer_input := mkCommand InferInputMetadata None None None [] in
    let fetch_input :=
      mkCommand FetchInputModelData None None None [infer_input] in
    let infer_output :=
      mkCommand InferOutputMetadata None None None
        [infer_input; fetch_input] in
    let export_savedmodel :=
      mkCommand ExportTF2SavedModel None None None
        [infer_input; fetch_input; infer_output] in
    ([infer_input;
      fetch_input;
      infer_output;
      mkCommand DumpInputModelData None None None [infer_input; fetch_input];
      mkCommand DumpOutputModelData None None None
        [fetch_input; infer_output];
      export_savedmodel;
      mkCommand CorrectnessSavedModel (Some TF_SAVEDMODEL) None None
        [export_savedmodel];
      mkCommand PerformanceSavedModel (Some TF_SAVEDMODEL) None None
        [export_savedmodel];
      mkCommand ConfigCli (Some TF_SAVEDMODEL) None None
        [export_savedmodel]],
     [export_savedmodel])
  else
    let load_metadata := mkCommand LoadMetadata None None None [] in
    let load_samples :=
      mkCommand LoadSamples None None None [load_metadata] in
    ([load_metadata; load_samples], [load_metadata; load_samples]).

(** The four commands of one TensorRT precision. *)
Definition trt_commands (onnx_convert : Command) (target_precision : string)
    : list Command :=
  let trt_convert :=
    mkCommand ConvertONNX2TRT None (Some target_precision) None
      [onnx_convert] in
  [trt_convert;
   mkCommand CorrectnessTensorFlow2TRT None (Some target_precision)
     None [trt_convert];
   mkCommand PerformanceTRT None (Some target_precision) None [trt_convert];
   mkCommand ConfigCli (Some TENSORRT) (Some target_precision) None
     [trt_convert]].

(** The four commands of one TF-TRT precision. *)
Definition tf_trt_commands (preprocess_req : list Command)
    (target_precision : string) : list Command :=
  let convert_savedmodel2trt :=
    mkCommand ConvertSavedModel2TFTRT None (Some target_precision)
      None preprocess_req in
  [convert_savedmodel2trt;
   mkCommand CorrectnessSavedModel (Some TF_TRT)
     (Some target_precision) None [convert_savedmodel2trt];
   mkCommand PerformanceSavedModel (Some TF_TRT)
     (Some target_precision) None [convert_savedmodel2trt];
   mkCommand ConfigCli (Some TF_TRT) (Some target_precision) None
     [convert_savedmodel2trt]].

(** The list as four blocks, each present or absent by the requested
    formats alone. *)
Definition blocks (config : Config) : list Command :=
  let '(source, preprocess_req) := source_part config in
  let '(onnx_convert, onnx) := onnx_block config preprocess_req in
  source
  ++ (if bool_decide (ONNX ∈ target_formats config
                      ∨ TENSORRT ∈ target_formats config)
      then onnx else [])
  ++ (if bool_decide (TENSORRT ∈ target_formats config)
      then flat_map (trt_commands onnx_convert) (target_precisions config)
      else [])
  ++ (if bool_decide (TF_TRT ∈ target_formats config)
      then flat_map (tf_trt_commands preprocess_req) (target_precisions config)
      else []).

(** The commands of a class. *)
Definition of_class (k : CommandClass) (commands : list Command)
    : list Command :=
  filter (λ c, cls c = k) commands.

(** Every requirement of every command of [l] is among [seen] or stands
    earlier in [l]. *)
Fixpoint requires_earlier (seen l : list Command) : Prop :=
  match l with
  | [] => True
  | c :: l' =>
      (∀ r, r ∈ requires c → r ∈ seen) ∧ requires_earlier (seen ++ [c]) l'
  end.

End TFBlocks.

(** ** The buckets of the axis-shape extraction in closed form *)

Module Buckets.
Import InferMetadata.

(** The dictionary that binds every key of [keys], in order, to [g key]. *)
Definition tab {K V} (keys : list K) (g : K → V) : list (K * V) :=
  (λ key, (key, g key)) <$> keys.

(** The axis indices of a tensor of rank [ndim]: [range(ndim)]. *)
Definition axis_keys (ndim : Z) : list Z :=
  Z.of_nat <$> seq 0 (Z.to_nat ndim).

(** The rank declared for a tensor name. *)
Definition rank_of (declared : list (string * Z)) (name : string) : Z :=
  default 0 (dict_get declared name).

(** The mapping in which bucket [k] of tensor [name] is [F name k], for the
    declared names and the axes of their declared ranks. *)
Definition buckets (declared : list (string * Z))
    (F : string → Z → list Z) : AxesShapes :=
  tab declared.*1
    (λ name, tab (axis_keys (rank_of declared name)) (F name)).

(** Size [k] of the shape of tensor [name] in an extracted sample. *)
Definition size_in (sample : list (string * list Z)) (name : string)
    (k : Z) : Z :=
  default 0 (dict_get sample name ≫= λ shape, shape !! Z.to_nat k).

(** The sizes of axis [k] of tensor [name] over the extracted samples, in
    the order of the samples. *)
Definition column (extracted : list (list (string * list Z)))
    (name : string) (k : Z) : list Z :=
  (λ sample, size_in sample name k) <$> extracted.

(** An extracted sample that holds the declared tensors and no other, each
    once and of its declared rank. *)
Definition well_shaped (declared : list (string * Z))
    (sample : list (string * list Z)) : Prop :=
  NoDup sample.*1
  ∧ (∀ name, name ∈ declared.*1 → name ∈ sample.*1)
  ∧ ∀ name shape, (name, shape) ∈ sample →
      name ∈ declared.*1
      ∧ Z.of_nat (length shape) = rank_of declared name.

End Buckets.

(** ** The identifier of a pipeline ([Pipeline.__init__]) *)

Module PipelineId.
Import Strings.Ascii.

Fixpoint map_string (f : ascii → ascii) (s : string) : string :=
  match s with
  | EmptyString => EmptyString
  | String c s' => String (f c) (map_string f s')
  end.

(** [str.lower] on ASCII text: the letters A to Z become a to z, every
    other ASCII character stays. *)
Definition lower_char (c : ascii) : ascii :=
  let n := nat_of_ascii c in
  if (65 <=? n)%nat && (n <=? 90)%nat then ascii_of_nat (n + 32) else c.

Definition lower (s : string) : string := map_string lower_char s.

(** [s.replace(old, new)] for one-character [old] and [new]. *)
Definition replace (old new : ascii) (s : string) : string :=
  map_string (λ c, if Strings.Ascii.eqb c old then new else c) s.

(** [self.id = name.lower().replace(" ", "_").replace("-", "_")] *)
Definition pipeline_id (name : string) : string :=
  replace "-" "_" (replace " " "_" (lower name)).

(** The name is ASCII text. *)
Definition is_ascii (s : string) : Prop :=
  ∀ c, In c (list_ascii_of_string s) → (nat_of_ascii c < 128)%nat.

End PipelineId.

(** * Properties *)

Import InferMetadata.
Import Spec.

(** ** Builtins *)

Section Builtins.

Lemma fold_left_max_ge (l : list Z) (a : Z) : a ≤ fold_left Z.max l a.
Proof.
  revert a. induction l as [|x l IH]; intros a; simpl; [lia|].
  specialize (IH (Z.max a x)). lia.
Qed.

Lemma fold_left_max_upper (l : list Z) (a x : Z) :
  x ∈ l → x ≤ fold_left Z.max l a.
Proof.
  revert a. induction l as [|y l IH]; intros a Hx; simpl.
  - by apply elem_of_nil in Hx.
  - apply elem_of_cons in Hx as [->|Hx]; [|by apply IH].
    pose proof (fold_left_max_ge l (Z.max a y)). lia.
Qed.

Lemma fold_left_max_elem (l : list Z) (a : Z) :
  fold_left Z.max l a = a ∨ fold_left Z.max l a ∈ l.
Proof.
  revert a. induction l as [|y l IH]; intros a; simpl; [by left|].
  destruct (IH (Z.max a y)) as [Heq|Hin].
  - rewrite Heq. destruct (Z.max_spec a y) as [[_ ->]|[_ ->]];
      [right; left | by left].
  - right. by right.
Qed.

Lemma fold_left_min_le (l : list Z) (a : Z) : fold_left Z.min l a ≤ a.
Proof.
  revert a. induction l as [|x l IH]; intros a; simpl; [lia|].
  specialize (IH (Z.min a x)). lia.
Qed.

Lemma fold_left_min_lower (l : list Z) (a x : Z) :
  x ∈ l → fold_left Z.min l a ≤ x.
Proof.
  revert a. induction l as [|y l IH]; intros a Hx; simpl.
  - by apply elem_of_nil in Hx.
  - apply elem_of_cons in Hx as [->|Hx]; [|by apply IH].
    pose proof (fold_left_min_le l (Z.min a y)). lia.
Qed.

Lemma fold_left_min_elem (l : list Z) (a : Z) :
  fold_left Z.min l a = a ∨ fold_left Z.min l a ∈ l.
Proof.
  revert a. induction l as [|y l IH]; intros a; simpl; [by left|].
  destruct (IH (Z.min a y)) as [Heq|Hin].
  - rewrite Heq. destruct (Z.min_spec a y) as [[_ ->]|[_ ->]];
      [by left | right; left].
  - right. by right.
Qed.

(** What [max(l)] and [min(l)] return on a non-empty list. *)
Lemma py_max_ok (l : list Z) :
  l ≠ [] → ∃ m, Py.max l = Ok m ∧ is_maximum l m.
Proof.
  destruct l as [|a l]; [done|]. intros _. eexists. split; [done|]. split.
  - destruct (fold_left_max_elem l a) as [->|?]; [left | by right].
  - intros x [->|Hx]%elem_of_cons.
    + apply fold_left_max_ge.
    + by apply fold_left_max_upper.
Qed.

Lemma py_min_ok (l : list Z) :
  l ≠ [] → ∃ m, Py.min l = Ok m ∧ is_minimum l m.
Proof.
  destruct l as [|a l]; [done|]. intros _. eexists. split; [done|]. split.
  - destruct (fold_left_min_elem l a) as [->|?]; [left | by right].
  - intros x [->|Hx]%elem_of_cons.
    + apply fold_left_min_le.
    + by apply fold_left_min_lower.
Qed.

End Builtins.

(** ** [_extract_max_batch_size] *)

Section MaxBatchSize.

(** C9: without a batch dimension the result is 0; with [batch_dim = k]
    the result is the maximum of the sizes observed in bucket [k] (of the
    tensor the mapping lists first); on the batch bucket
    [5, 999, 1, 3, 7] with [batch_dim = 0] it is 999. *)
Theorem extract_max_batch_size_correct
    (first : string * Axes) (rest : AxesShapes) (k : Z) (bucket : list Z) :
  dict_get first.2 k = Some bucket →
  bucket ≠ [] →
  (∀ axes_shapes, _extract_max_batch_size axes_shapes None = Ok 0)
  ∧ (∃ m, _extract_max_batch_size (first :: rest) (Some k) = Ok m
          ∧ is_maximum bucket m)
  ∧ _extract_max_batch_size batch_example (Some 0) = Ok 999.
Proof.
  intros Hget Hne. split; [done|]. split; [|done].
  destruct (py_max_ok bucket Hne) as (m & Hm & Hmax).
  exists m. split; [|done].
  unfold _extract_max_batch_size, getitem. simpl. by rewrite Hget.
Qed.

Lemma extract_max_batch_size_correct_witness :
  dict_get (batch_example !!! 0%nat).2 0 = Some [5; 999; 1; 3; 7]
  ∧ (∃ m, _extract_max_batch_size batch_example (Some 0) = Ok m
          ∧ is_maximum [5; 999; 1; 3; 7] m).
Proof.
  split; [reflexivity|].
  destruct (extract_max_batch_size_correct
              (batch_example !!! 0%nat) [] 0 [5; 999; 1; 3; 7])
    as (_ & Hmax & _); [reflexivity | discriminate | exact Hmax].
Defined.

(** C10: with two or more tensors, the result for a batch dimension [k]
    is the maximum of the sizes of bucket [k] of the first tensor in
    insertion order, the bucket being there and holding a size; the other
    tensors, whatever their buckets, do not enter it: any other tensors
    after the first give the same result. *)
Theorem extract_max_batch_size_first_only
    (first second : string * Axes) (rest others : AxesShapes) (k : Z)
    (bucket : list Z) :
  dict_get first.2 k = Some bucket →
  bucket ≠ [] →
  ∃ m, is_maximum bucket m
    ∧ _extract_max_batch_size (first :: second :: rest) (Some k) = Ok m
    ∧ _extract_max_batch_size (first :: others) (Some k) = Ok m.
Proof.
  intros Hget Hne.
  destruct (py_max_ok bucket Hne) as (m & Hm & Hmax).
  exists m. split; [exact Hmax|].
  unfold _extract_max_batch_size, getitem. simpl. rewrite Hget. simpl.
  by split.
Qed.

Lemma extract_max_batch_size_first_only_witness :
  ∃ m, is_maximum [2; 4] m
    ∧ _extract_max_batch_size larger_second (Some 0) = Ok m
    ∧ _extract_max_batch_size
        [("a"%string, [(0, [2; 4])]); ("c"%string, [(0, [1])])] (Some 0)
      = Ok m.
Proof.
  apply (extract_max_batch_size_first_only
           ("a"%string, [(0, [2; 4])]) ("b"%string, [(0, [64; 128])]) []
           [("c"%string, [(0, [1])])] 0 [2; 4]); [reflexivity|discriminate].
Defined.

(** A second tensor with a larger batch bucket does not change the result. *)
Example extract_max_batch_size_ignores_second :
  _extract_max_batch_size larger_second (Some 0) = Ok 4.
Proof. reflexivity. Qed.

End MaxBatchSize.


(** ** [_get_trt_profile_from_axes_shapes] *)

Section TrtProfile.

Lemma insert_length (x : Z) (l : list Z) :
  length (Np.insert x l) = S (length l).
Proof.
  induction l as [|y l IH]; simpl; [done|].
  destruct (x <=? y); simpl; by rewrite ?IH.
Qed.

Lemma sort_length (l : list Z) : length (Np.sort l) = length l.
Proof.
  induction l as [|x l IH]; simpl; [done|].
  by rewrite insert_length, IH.
Qed.

Lemma median_defined (l : list Z) : l ≠ [] → is_Some (Np.median l).
Proof.
  intros Hne. unfold Np.median. rewrite sort_length.
  destruct l as [|x l]; [done|]. simpl length.
  destruct (Nat.even (S (length l))); eauto.
Qed.

Lemma int_median_ok (l : list Z) :
  l ≠ [] → ∃ o, opt_is_converted l o.
Proof.
  intros [q Hq]%median_defined. unfold opt_is_converted. rewrite Hq. simpl.
  by eexists.
Qed.

Lemma elem_of_insert (x y : Z) (l : list Z) :
  x ∈ Np.insert y l ↔ x = y ∨ x ∈ l.
Proof.
  induction l as [|z l IH]; simpl.
  - rewrite list_elem_of_singleton. split; [by left|].
    by intros [?|?%elem_of_nil].
  - destruct (y <=? z).
    + by rewrite elem_of_cons.
    + rewrite !elem_of_cons, IH. tauto.
Qed.

Lemma elem_of_sort (x : Z) (l : list Z) : x ∈ Np.sort l ↔ x ∈ l.
Proof.
  induction l as [|y l IH]; simpl; [done|].
  by rewrite elem_of_insert, elem_of_cons, IH.
Qed.

Lemma nth_sort_elem (l : list Z) (i : nat) :
  (i < length l)%nat → nth i (Np.sort l) 0 ∈ l.
Proof.
  intros Hi. apply elem_of_sort, list_elem_of_In, nth_In.
  by rewrite sort_length.
Qed.

(** An integer of at most 53 bits is a double. *)
Lemma float64_exact (x : Z) : - 2 ^ 53 ≤ x ≤ 2 ^ 53 → Np.float64 x = x.
Proof.
  intros Hx. unfold Np.float64.
  destruct (Z.leb_spec (Z.log2 (Z.abs x) - 52) 0) as [|He]; [done|].
  assert (Z.abs x = 2 ^ 53) as Habs.
  { assert (0 < Z.abs x) as Hpos.
    { destruct (Z.abs x) eqn:Ha; [simpl in He|..]; lia. }
    pose proof (Z.log2_spec _ Hpos) as [Hlow _].
    assert (2 ^ 53 ≤ 2 ^ Z.log2 (Z.abs x)).
    { apply Z.pow_le_mono_r; lia. }
    lia. }
  assert (x = 2 ^ 53 ∨ x = - 2 ^ 53) as [->| ->] by lia; reflexivity.
Qed.

(** On sizes of at most [2 ^ 52] in magnitude the double arithmetic of
    [np.median] is exact: its value is the statistical median. *)
Lemma median_exact (l : list Z) :
  (∀ x, x ∈ l → - 2 ^ 52 ≤ x ≤ 2 ^ 52) →
  Np.median l = statistical_median l.
Proof.
  intros Hbound. unfold Np.median, statistical_median.
  rewrite sort_length.
  destruct (length l) as [|n] eqn:Hlen; [done|].
  assert (∀ i, (i < S n)%nat →
            - 2 ^ 52 ≤ nth i (Np.sort l) 0 ≤ 2 ^ 52) as Hnth.
  { intros i Hi. rewrite <- Hlen in Hi. by apply Hbound, nth_sort_elem. }
  pose proof (Nat.div_lt (S n) 2 ltac:(lia) ltac:(lia)) as Hhalf.
  pose proof (Hnth (S n / 2 - 1)%nat ltac:(lia)) as Ha.
  pose proof (Hnth (S n / 2)%nat Hhalf) as Hb.
  destruct (Nat.even (S n)).
  - rewrite (float64_exact (nth (S n / 2 - 1) _ _)) by lia.
    rewrite (float64_exact (nth (S n / 2) _ _)) by lia.
    rewrite float64_exact by lia. done.
  - rewrite float64_exact by lia. done.
Qed.

Lemma converted_exact (l : list Z) (o : Z) :
  (∀ x, x ∈ l → - 2 ^ 52 ≤ x ≤ 2 ^ 52) →
  opt_is_converted l o → opt_is_int_median l o.
Proof.
  intros Hbound. unfold opt_is_converted, opt_is_int_median.
  rewrite (median_exact l Hbound).
  destruct (statistical_median l) as [q|]; [|done].
  simpl. intros [= <-]. by exists q.
Qed.

(** With an odd number of samples the conversion loses nothing. *)
Lemma int_median_exact_when_odd (l : list Z) (o : Z) :
  Nat.odd (length l) = true → opt_is_int_median l o → opt_is_median l o.
Proof.
  intros Hodd (q & Hq & ->). exists q. split; [done|].
  unfold statistical_median in Hq. rewrite sort_length in Hq.
  rewrite <- Nat.negb_odd, Hodd in Hq. simpl in Hq.
  destruct (length l); [done|]. injection Hq as <-. simpl.
  by rewrite Z.quot_1_r.
Qed.

Lemma trt_axis_entry_ok (batch_dim : option Z) (ax : Z) (shapes : list Z) :
  shapes ≠ [] →
  ∃ t, trt_axis_entry batch_dim ax shapes = Ok t
    ∧ profile_entry opt_is_converted batch_dim (ax, shapes) t.
Proof.
  intros Hne.
  destruct (int_median_ok shapes Hne) as (o & Ho).
  pose proof Ho as Hopt. unfold opt_is_converted in Ho.
  destruct (py_max_ok shapes Hne) as (mx & Hmx & Hmax).
  destruct (py_min_ok shapes Hne) as (mn & Hmn & Hmin).
  unfold trt_axis_entry, profile_entry. simpl.
  destruct (decide (Some ax = batch_dim)).
  - exists (1, o, mx). by rewrite Ho, Hmx.
  - exists (mn, o, mx). by rewrite Hmn, Ho, Hmx.
Qed.

Lemma trt_axes_loop_ok (batch_dim : option Z) (axes : Axes)
    (acc : list (Z * Z * Z)) :
  (∀ ax shapes, (ax, shapes) ∈ axes → shapes ≠ []) →
  ∃ l, trt_axes_loop batch_dim axes acc = Ok (acc ++ l)
    ∧ Forall2 (profile_entry opt_is_converted batch_dim) axes l.
Proof.
  revert acc. induction axes as [|[ax shapes] axes IH]; intros acc Hne; simpl.
  - exists []. by rewrite app_nil_r.
  - destruct (trt_axis_entry_ok batch_dim ax shapes) as (t & Ht & Hentry).
    { eapply Hne. left. }
    rewrite Ht. simpl.
    destruct (IH (acc ++ [t])) as (l & Hl & Hall).
    { intros ?? Hin. eapply Hne. right. exact Hin. }
    exists (t :: l). rewrite Hl, <- app_assoc. split; [done|].
    by constructor.
Qed.

Lemma profile_columns (batch_dim : option Z) (axes : Axes)
    (l : list (Z * Z * Z)) (j : nat) (axis : Z * list Z) :
  Forall2 (profile_entry opt_is_converted batch_dim) axes l →
  axes !! j = Some axis →
  ∃ mn o mx, map (λ t, t.1.1) l !! j = Some mn
    ∧ map (λ t, t.1.2) l !! j = Some o
    ∧ map (λ t, t.2) l !! j = Some mx
    ∧ profile_entry opt_is_converted batch_dim axis (mn, o, mx).
Proof.
  intros Hall Hj.
  destruct (Forall2_lookup_l _ _ _ _ _ Hall Hj) as ([[mn o] mx] & Hl & Hentry).
  exists mn, o, mx. rewrite !list_lookup_fmap, Hl. done.
Qed.

Lemma trt_profile_loop_ok (batch_dim : option Z) (axes_shapes : AxesShapes)
    (p0 : gmap string ShapeTuple) :
  unique_names axes_shapes →
  observed axes_shapes →
  ∃ p, trt_profile_loop batch_dim axes_shapes p0 = Ok p
    ∧ (∀ name, name ∉ axes_shapes.*1 → p !! name = p0 !! name)
    ∧ profile_derived opt_is_converted axes_shapes batch_dim p.
Proof.
  revert p0. induction axes_shapes as [|[name axes] rest IH];
    intros p0 Huniq Hobs.
  - exists p0. split; [done|]. split; [done|].
    intros ?? Hin. by apply elem_of_nil in Hin.
  - unfold unique_names in Huniq. rewrite fmap_cons in Huniq.
    apply NoDup_cons in Huniq as [Hfresh Huniq].
    destruct (Hobs name axes) as [Haxes Hbuckets]; [left|].
    destruct (trt_axes_loop_ok batch_dim axes [] Hbuckets) as (l & Hl & Hall).
    simpl in Hl |- *. rewrite Hl. simpl.
    destruct l as [|t l].
    { apply Forall2_nil_inv_r in Hall. done. }
    edestruct IH as (p & Hp & Hframe & Hrest); [done| |].
    { intros ?? Hin. eapply Hobs. right. exact Hin. }
    exists p. split; [exact Hp|]. split.
    + intros n Hn. apply not_elem_of_cons in Hn as [Hne Hn].
      rewrite Hframe by done. unfold TensorRTProfile_add.
      by rewrite lookup_insert_ne.
    + intros n a [Heq|Hin]%elem_of_cons.
      * injection Heq as -> ->. rewrite Hframe by done.
        unfold TensorRTProfile_add. rewrite lookup_insert_eq.
        eexists. split; [done|]. simpl.
        pose proof (Forall2_length _ _ _ Hall) as Hlen. simpl in Hlen.
        rewrite !length_map. repeat (split; [done|]).
        intros j axis Hj.
        apply (profile_columns batch_dim axes (t :: l) j axis Hall Hj).
      * by apply Hrest.
Qed.

(** The profile of sizes that double arithmetic keeps exact: the opt
    entries are the statistical medians rounded toward zero. *)
Lemma trt_profile_loop_exact (batch_dim : option Z)
    (axes_shapes : AxesShapes) :
  unique_names axes_shapes →
  observed axes_shapes →
  exact_sizes axes_shapes →
  ∃ p, _get_trt_profile_from_axes_shapes axes_shapes batch_dim = Ok p
    ∧ (∀ name, name ∉ axes_shapes.*1 → p !! name = None)
    ∧ profile_derived opt_is_int_median axes_shapes batch_dim p.
Proof.
  intros Huniq Hobs Hexact.
  destruct (trt_profile_loop_ok batch_dim axes_shapes ∅ Huniq Hobs)
    as (p & Hp & Hframe & Hderived).
  exists p. split; [exact Hp|]. split.
  { intros name Hname. by rewrite Hframe, lookup_empty. }
  intros name axes Hin.
  destruct (Hderived name axes Hin) as (st & Hst & Hmin & Hopt & Hmax & Hax).
  exists st. repeat (split; [done|]).
  intros j [ax shapes] Hj.
  destruct (Hax j _ Hj) as (mn & o & mx & Hmn & Ho & Hmx & Hlo & Hmed & Hhi).
  exists mn, o, mx. do 3 (split; [done|]).
  split; [exact Hlo|]. split; [|exact Hhi].
  apply converted_exact; [|exact Hmed].
  intros x Hx. apply (Hexact name axes ax shapes x Hin); [|exact Hx].
  eapply list_elem_of_lookup_2. exact Hj.
Qed.

(** C1, as the code has it: on a mapping in which every tensor has an axis
    and every bucket an observation, the sizes being at most [2 ^ 52] in
    magnitude, the derivation returns a profile that holds, for every
    tensor and axis, min = 1 on the batch axis and the observed minimum on
    every other axis, max = the observed maximum, and opt = the statistical
    median of the observed sizes converted by [int( )], that is rounded
    toward zero. *)
Theorem trt_profile_int_median
    (axes_shapes : AxesShapes) (batch_dim : option Z) :
  unique_names axes_shapes →
  observed axes_shapes →
  exact_sizes axes_shapes →
  trt_profile_claim opt_is_int_median axes_shapes batch_dim.
Proof.
  intros Huniq Hobs Hexact.
  destruct (trt_profile_loop_exact batch_dim axes_shapes Huniq Hobs Hexact)
    as (p & Hp & _ & Hderived).
  by exists p.
Qed.

Lemma two_batches_observed : unique_names two_batches ∧ observed two_batches.
Proof.
  split.
  - apply NoDup_singleton.
  - intros name axes [= -> ->]%list_elem_of_singleton. split; [done|].
    by intros ax shapes [= -> ->]%list_elem_of_singleton.
Qed.

Lemma two_batches_exact : exact_sizes two_batches.
Proof.
  intros name axes ax shapes x [= -> ->]%list_elem_of_singleton
    [= -> ->]%list_elem_of_singleton Hx%list_elem_of_In.
  simpl in Hx. lia.
Qed.

Lemma trt_profile_int_median_witness :
  trt_profile_claim opt_is_int_median two_batches (Some 0).
Proof.
  apply trt_profile_int_median;
    [apply two_batches_observed..|apply two_batches_exact].
Defined.

(** C1 as worded fails: with batch sizes 1 and 2 the median is 3/2 and the
    opt entry is 1. *)
Lemma trt_profile_opt_not_median :
  unique_names two_batches ∧ observed two_batches
  ∧ ¬ trt_profile_claim opt_is_median two_batches (Some 0).
Proof.
  split; [apply two_batches_observed|]. split; [apply two_batches_observed|].
  intros (profile & Hp & Hderived).
  assert (_get_trt_profile_from_axes_shapes two_batches (Some 0)
          = Ok (<["input_0"%string := {| min := [1]; opt := [1]; max := [2] |}]> ∅))
    as Hrun by reflexivity.
  rewrite Hrun in Hp. injection Hp as <-.
  destruct (Hderived "input_0"%string [(0, [1; 2])]) as (st & Hst & _ & _ & _ & Hax).
  { left. }
  rewrite lookup_insert_eq in Hst. injection Hst as <-.
  destruct (Hax 0%nat (0, [1; 2])) as (mn & o & mx & _ & Ho & _ & _ & Hopt & _);
    [done|].
  injection Ho as <-. destruct Hopt as (q & Hq & Heq).
  injection Hq as <-. discriminate Heq.
Qed.

(** Beyond [2 ^ 53] the double arithmetic of [np.median] shows: the one
    observed size [2 ^ 53 + 1] gives the opt entry [2 ^ 53], below the min
    and the max entries, which are the size itself. *)
Example trt_profile_opt_rounded :
  _get_trt_profile_from_axes_shapes large_size None
  = Ok {[ "x"%string := {| min := [9007199254740993];
                           opt := [9007199254740992];
                           max := [9007199254740993] |} ]}.
Proof. reflexivity. Qed.

(** On a mapping with a scalar tensor the derivation never returns. *)
Lemma trt_profile_loop_scalar (batch_dim : option Z)
    (axes_shapes : AxesShapes) (name : string) (p0 : gmap string ShapeTuple) :
  (name, []) ∈ axes_shapes →
  is_ok (trt_profile_loop batch_dim axes_shapes p0) = false.
Proof.
  revert p0. induction axes_shapes as [|[n axes] rest IH]; intros p0 Hin.
  - by apply elem_of_nil in Hin.
  - simpl. destruct (trt_axes_loop batch_dim axes []) as [l|e] eqn:Hl; [|done].
    simpl. destruct l as [|t l]; [done|].
    apply elem_of_cons in Hin as [Heq|Hin]; [|by apply IH].
    injection Heq as <- <-. simpl in Hl. discriminate Hl.
Qed.

(** C6, as the code has it: a mapping that contains a tensor with no axis
    (a scalar), the tensors listed before it having axes and observations,
    makes the profile derivation raise [ModelNavigatorUserInputError] with
    the message that names the tensor; no profile is returned. *)
Theorem trt_profile_scalar_rejected
    (before after : AxesShapes) (name : string) (batch_dim : option Z) :
  observed before →
  _get_trt_profile_from_axes_shapes (before ++ (name, []) :: after) batch_dim
  = Raise (ModelNavigatorUserInputError (missing_shape_msg name)).
Proof.
  unfold _get_trt_profile_from_axes_shapes. generalize (∅ : gmap string ShapeTuple).
  induction before as [|[n axes] before IH]; intros p0 Hobs; [done|].
  destruct (Hobs n axes) as [Haxes Hbuckets]; [left|].
  destruct (trt_axes_loop_ok batch_dim axes [] Hbuckets) as (l & Hl & Hall).
  simpl in Hl |- *. rewrite Hl. simpl.
  destruct l as [|t l].
  { apply Forall2_nil_inv_r in Hall. done. }
  apply IH. intros ?? Hin. eapply Hobs. right. exact Hin.
Qed.

Lemma trt_profile_scalar_rejected_witness :
  observed shapes_example
  ∧ _get_trt_profile_from_axes_shapes
      (shapes_example ++ [("scale"%string, [])]) (Some 0)
    = Raise (ModelNavigatorUserInputError (missing_shape_msg "scale")).
Proof.
  assert (observed shapes_example) as Hobs.
  { intros name axes [= -> ->]%list_elem_of_singleton. split; [done|].
    intros ax shapes Hin%list_elem_of_In. simpl in Hin.
    repeat (destruct Hin as [Heq|Hin]; [by injection Heq as <- <-|]).
    destruct Hin. }
  split; [exact Hobs|].
  exact (trt_profile_scalar_rejected shapes_example [] "scale" (Some 0) Hobs).
Defined.

(** C6 as worded fails: when a tensor listed before the scalar has an axis
    that no sample filled, the derivation stops at that tensor with the
    [ValueError] of [min] on an empty sequence, or of [int] on [nan] when
    the axis is the batch axis, and not with the descriptive error of the
    scalar. *)
Lemma scalar_after_empty_bucket :
  ("s"%string, []) ∈ empty_then_scalar
  ∧ _get_trt_profile_from_axes_shapes empty_then_scalar None
    = Raise (ValueError "min() arg is an empty sequence")
  ∧ _get_trt_profile_from_axes_shapes empty_then_scalar (Some 0)
    = Raise (ValueError "cannot convert float NaN to integer")
  ∧ ¬ raises_user_input_error
        (_get_trt_profile_from_axes_shapes empty_then_scalar None)
  ∧ ¬ raises_user_input_error
        (_get_trt_profile_from_axes_shapes empty_then_scalar (Some 0)).
Proof.
  split; [right; left|]. split; [reflexivity|]. split; [reflexivity|].
  split; intros [msg Hmsg]; discriminate Hmsg.
Qed.

(** The unit test of the profile. *)
Example trt_profile_unit_test :
  (λ p : gmap string ShapeTuple, p !! "input_0"%string)
    <$> (match _get_trt_profile_from_axes_shapes shapes_example (Some 0) with
         | Ok p => Some p | Raise _ => None end)
  = Some (Some {| min := [1; 224; 224; 3]; opt := [1; 224; 224; 3];
                  max := [1; 224; 224; 3] |}).
Proof. reflexivity. Qed.

End TrtProfile.

(** ** [_get_metadata_from_axes_shapes] *)

Section Metadata.

Lemma constant_not_varies (shapes : list Z) (mn : Z) :
  is_minimum shapes mn → is_maximum shapes mn →
  ¬ varies shapes ∧ ∀ x, x ∈ shapes → x = mn.
Proof.
  intros [_ Hlow] [_ Hup].
  assert (∀ x, x ∈ shapes → x = mn) as Hall.
  { intros x Hx. specialize (Hlow x Hx). specialize (Hup x Hx). lia. }
  split; [|done].
  intros (x & y & Hx & Hy & Hne). apply Hne.
  by rewrite (Hall x Hx), (Hall y Hy).
Qed.

Lemma metadata_axis_entry_ok (batch_dim : option Z) (ax : Z)
    (shapes : list Z) :
  shapes ≠ [] → (∀ x, x ∈ shapes → 0 ≤ x) →
  ∃ d, metadata_axis_entry batch_dim ax shapes = Ok d
    ∧ metadata_axis_ok batch_dim (ax, shapes) d.
Proof.
  intros Hne Hpos. unfold metadata_axis_entry, metadata_axis_ok. simpl.
  destruct (decide (Some ax = batch_dim)) as [Hb|Hb].
  { exists (-1). split; [done|]. split; [|done]. split; [by left|done]. }
  destruct (py_max_ok shapes Hne) as (mx & Hmx & Hmax).
  destruct (py_min_ok shapes Hne) as (mn & Hmn & Hmin).
  rewrite Hmn, Hmx. simpl.
  destruct (decide (mn ≠ mx)) as [Hvar|Hconst].
  - exists (-1). split; [done|].
    assert (varies shapes) by (exists mn, mx; by destruct Hmin, Hmax).
    split; [split; [by right|done]|done].
  - assert (mn = mx) as <- by lia.
    destruct (constant_not_varies shapes mn Hmin Hmax) as [Hnv Hall].
    destruct shapes as [|d shapes]; [done|].
    exists d. split; [done|].
    assert (d = mn) as -> by (apply Hall; left).
    split.
    + split; [|by intros [?|?]].
      intros ->. destruct Hmin as [Hin _]. specialize (Hpos _ Hin). lia.
    + intros _ _ x Hx. symmetry. by apply Hall.
Qed.

Lemma metadata_axes_loop_ok (batch_dim : option Z) (axes : Axes)
    (acc : list Z) :
  (∀ ax shapes, (ax, shapes) ∈ axes →
     shapes ≠ [] ∧ ∀ x, x ∈ shapes → 0 ≤ x) →
  ∃ l, metadata_axes_loop batch_dim axes acc = Ok (acc ++ l)
    ∧ Forall2 (metadata_axis_ok batch_dim) axes l.
Proof.
  revert acc. induction axes as [|[ax shapes] axes IH]; intros acc Hobs; simpl.
  - exists []. by rewrite app_nil_r.
  - destruct (Hobs ax shapes) as [Hne Hpos]; [left|].
    destruct (metadata_axis_entry_ok batch_dim ax shapes Hne Hpos)
      as (d & Hd & Hok).
    rewrite Hd. simpl.
    destruct (IH (acc ++ [d])) as (l & Hl & Hall).
    { intros ?? Hin. eapply Hobs. right. exact Hin. }
    exists (d :: l). rewrite Hl, <- app_assoc. split; [done|].
    by constructor.
Qed.

Lemma metadata_loop_ok (batch_dim : option Z) (dtypes : list (string * Dtype))
    (axes_shapes : AxesShapes) (m0 : gmap string TensorSpec) :
  unique_names axes_shapes →
  sizes_observed axes_shapes →
  (∀ name, name ∈ axes_shapes.*1 → is_Some (dict_get dtypes name)) →
  ∃ m, metadata_loop batch_dim dtypes axes_shapes m0 = Ok m
    ∧ (∀ name, name ∉ axes_shapes.*1 → m !! name = m0 !! name)
    ∧ metadata_derived axes_shapes batch_dim m.
Proof.
  revert m0. induction axes_shapes as [|[name axes] rest IH];
    intros m0 Huniq Hobs Hdt.
  - exists m0. split; [done|]. split; [done|].
    intros ?? Hin. by apply elem_of_nil in Hin.
  - unfold unique_names in Huniq. rewrite fmap_cons in Huniq.
    apply NoDup_cons in Huniq as [Hfresh Huniq].
    destruct (metadata_axes_loop_ok batch_dim axes []) as (l & Hl & Hall).
    { intros ax shapes Hin. eapply Hobs; [left | exact Hin]. }
    destruct (Hdt name) as [dt Hdtype]; [left|].
    simpl in Hl |- *. rewrite Hl. simpl.
    unfold getitem. rewrite Hdtype. simpl.
    edestruct IH as (m & Hm & Hframe & Hrest); [done| | |].
    { intros ???? Hin. eapply Hobs. right. exact Hin. }
    { intros n Hn. apply Hdt. by right. }
    exists m. split; [exact Hm|]. split.
    + intros n Hn. apply not_elem_of_cons in Hn as [Hne Hn].
      rewrite Hframe by done. unfold TensorMetadata_add.
      by rewrite lookup_insert_ne.
    + intros n a [Heq|Hin]%elem_of_cons.
      * injection Heq as -> ->. rewrite Hframe by done.
        unfold TensorMetadata_add. rewrite lookup_insert_eq.
        eexists. split; [done|]. simpl.
        split; [symmetry; by eapply Forall2_length|].
        intros j axis Hj.
        destruct (Forall2_lookup_l _ _ _ _ _ Hall Hj) as (d & Hd & Hok).
        by exists d.
      * by apply Hrest.
Qed.

(** C2: the derivation returns metadata in which an axis is the wildcard
    -1 if and only if it is the batch axis or its observed sizes vary across
    samples; an axis that is not the batch axis and whose observed sizes are
    constant is fixed to that constant.  (Observed sizes are dimensions of
    tensors, hence not negative; every tensor has a dtype.) *)
Theorem metadata_wildcard_iff_batch_or_varies
    (axes_shapes : AxesShapes) (batch_dim : option Z)
    (dtypes : list (string * Dtype)) :
  unique_names axes_shapes →
  sizes_observed axes_shapes →
  (∀ name, name ∈ axes_shapes.*1 → is_Some (dict_get dtypes name)) →
  ∃ metadata,
    _get_metadata_from_axes_shapes axes_shapes batch_dim dtypes = Ok metadata
    ∧ metadata_derived axes_shapes batch_dim metadata.
Proof.
  intros Huniq Hobs Hdt.
  destruct (metadata_loop_ok batch_dim dtypes axes_shapes ∅ Huniq Hobs Hdt)
    as (m & Hm & _ & Hderived).
  by exists m.
Qed.

Lemma metadata_wildcard_iff_batch_or_varies_witness :
  ∃ metadata,
    _get_metadata_from_axes_shapes shapes_example (Some 0)
      [("input_0"%string, "float64"%string)] = Ok metadata
    ∧ metadata_derived shapes_example (Some 0) metadata.
Proof.
  apply metadata_wildcard_iff_batch_or_varies.
  - apply NoDup_singleton.
  - intros name axes ax shapes [= -> ->]%list_elem_of_singleton
      Hin%list_elem_of_In.
    simpl in Hin.
    repeat (destruct Hin as [Heq|Hin];
      [injection Heq as <- <-; split; [done|];
       intros x Hx%list_elem_of_In; simpl in Hx; lia|]).
    destruct Hin.
  - intros name [= ->]%list_elem_of_singleton. by eexists.
Defined.

(** The unit test of the metadata. *)
Example metadata_unit_test :
  (λ m : gmap string TensorSpec, m !! "input_0"%string)
    <$> (match _get_metadata_from_axes_shapes shapes_example (Some 0)
                 [("input_0"%string, "float64"%string)] with
         | Ok m => Some m | Raise _ => None end)
  = Some (Some (mkTensorSpec "input_0" [-1; 224; 224; 3] "float64")).
Proof. reflexivity. Qed.

End Metadata.


(** ** [_update_user_dynamic_axes_inplace] *)

Section UserDynamicAxes.

Lemma list_setitem_ok (l : list Z) (ax v : Z) :
  valid_index (length l) ax →
  list_setitem l ax v = Ok (<[position (length l) ax := v]> l).
Proof.
  unfold valid_index, list_setitem, position. intros Hv.
  destruct (ax <? 0) eqn:Hneg.
  - apply Z.ltb_lt in Hneg.
    rewrite (proj2 (Z.ltb_ge _ _)) by lia.
    rewrite (proj2 (Z.leb_gt _ _)) by lia. done.
  - apply Z.ltb_ge in Hneg.
    rewrite (proj2 (Z.ltb_ge _ _)) by lia.
    rewrite (proj2 (Z.leb_gt _ _)) by lia. done.
Qed.

Lemma list_setitem_inv (l l' : list Z) (ax v : Z) :
  list_setitem l ax v = Ok l' →
  valid_index (length l) ax ∧ l' = <[position (length l) ax := v]> l.
Proof.
  intros Hset.
  assert (valid_index (length l) ax) as Hv.
  { unfold list_setitem in Hset. unfold valid_index.
    destruct (ax <? 0) eqn:Hneg;
      [apply Z.ltb_lt in Hneg | apply Z.ltb_ge in Hneg];
      destruct (_ <? 0) eqn:Hlo; try done;
      destruct (_ <=? _) eqn:Hhi; try done;
      apply Z.ltb_ge in Hlo; apply Z.leb_gt in Hhi; lia. }
  split; [done|]. rewrite (list_setitem_ok _ _ _ Hv) in Hset. by injection Hset.
Qed.

Lemma list_setitem_raise (l : list Z) (ax v : Z) (e : Error) :
  list_setitem l ax v = Raise e → e = IndexError ∧ ¬ valid_index (length l) ax.
Proof.
  intros Hset. split.
  - unfold list_setitem in Hset. destruct (_ || _); [by injection Hset|done].
  - intros Hv. by rewrite (list_setitem_ok _ _ _ Hv) in Hset.
Qed.

Lemma position_lt (n : nat) (ax : Z) :
  valid_index n ax → (position n ax < n)%nat.
Proof.
  unfold valid_index, position. intros Hv.
  destruct (ax <? 0) eqn:Hneg;
    [apply Z.ltb_lt in Hneg | apply Z.ltb_ge in Hneg]; lia.
Qed.

(** What the update loop over the declared axes leaves in the shape. *)
Lemma set_dynamic_inv (axes : list Z) (shape shape' : list Z) :
  set_dynamic shape axes = Ok shape' →
  length shape' = length shape
  ∧ (∀ ax, ax ∈ axes →
       valid_index (length shape) ax
       ∧ shape' !! position (length shape) ax = Some (-1))
  ∧ (∀ j, shape' !! j = shape !! j
          ∨ (shape' !! j = Some (-1)
             ∧ ∃ ax, ax ∈ axes ∧ position (length shape) ax = j)).
Proof.
  revert shape. induction axes as [|ax axes IH]; intros shape; simpl.
  - intros [= <-]. split; [done|]. split; [|by left].
    intros ? Hin. by apply elem_of_nil in Hin.
  - destruct (list_setitem shape ax (-1)) as [s1|e] eqn:Hset; [|done]. simpl.
    apply list_setitem_inv in Hset as [Hv ->].
    intros (Hlen & Hin & Hout)%IH. rewrite length_insert in Hlen, Hin, Hout.
    pose proof (position_lt _ _ Hv) as Hlt.
    split; [done|]. split.
    + intros a [->|Ha]%elem_of_cons; [|by apply Hin].
      split; [done|].
      destruct (Hout (position (length shape) ax)) as [->|[? _]]; [|done].
      by rewrite list_lookup_insert_eq.
    + intros j. destruct (Hout j) as [->|[Hj (a & Ha & Hpos)]].
      * destruct (decide (position (length shape) ax = j)) as [<-|Hne].
        -- right. rewrite list_lookup_insert_eq by done. split; [done|].
           exists ax. split; [left|done].
        -- left. by rewrite list_lookup_insert_ne.
      * right. split; [done|]. exists a. split; [by right|done].
Qed.

Lemma set_dynamic_ok (axes : list Z) (shape : list Z) :
  (∀ ax, ax ∈ axes → valid_index (length shape) ax) →
  ∃ shape', set_dynamic shape axes = Ok shape'.
Proof.
  revert shape. induction axes as [|ax axes IH]; intros shape Hv; simpl.
  - by eexists.
  - rewrite list_setitem_ok by (apply Hv; left). simpl.
    apply IH. intros a Ha. rewrite length_insert. apply Hv. by right.
Qed.

Lemma set_dynamic_raise (axes : list Z) (shape : list Z) (e : Error) :
  set_dynamic shape axes = Raise e →
  e = IndexError ∧ ∃ ax, ax ∈ axes ∧ ¬ valid_index (length shape) ax.
Proof.
  revert shape. induction axes as [|ax axes IH]; intros shape; simpl; [done|].
  destruct (list_setitem shape ax (-1)) as [s1|e1] eqn:Hset; simpl.
  - apply list_setitem_inv in Hset as [Hv ->].
    intros (-> & a & Ha & Hbad)%IH. rewrite length_insert in Hbad.
    split; [done|]. exists a. split; [by right|done].
  - intros [= <-]. apply list_setitem_raise in Hset as [-> Hbad].
    split; [done|]. exists ax. split; [left|done].
Qed.

(** The verification loop passes exactly when every wildcard is declared. *)
Lemma verify_axes_ok (name : string) (axes : list Z) (k : Z) (dims : list Z) :
  verify_axes name axes k dims = Ok ()
  ↔ ∀ j : nat, dims !! j = Some (-1) → k + Z.of_nat j ∈ axes.
Proof.
  revert k. induction dims as [|d dims IH]; intros k; simpl.
  - split; [|done]. intros _ j Hj. by rewrite lookup_nil in Hj.
  - destruct (bool_decide (d = -1) && negb (bool_decide (k ∈ axes))) eqn:Hc.
    + split; [done|]. intros Hall. exfalso.
      apply andb_true_iff in Hc as [Hd%bool_decide_eq_true Hk].
      apply negb_true_iff, bool_decide_eq_false in Hk. apply Hk.
      specialize (Hall 0%nat). simpl in Hall. rewrite Z.add_0_r in Hall.
      apply Hall. by rewrite Hd.
    + rewrite IH. split.
      * intros Hall [|j] Hj; simpl in Hj.
        -- injection Hj as ->. rewrite Z.add_0_r.
           apply andb_false_iff in Hc as [Hd|Hk].
           ++ by apply bool_decide_eq_false in Hd.
           ++ by apply negb_false_iff, bool_decide_eq_true in Hk.
        -- specialize (Hall j Hj).
           by replace (k + Z.of_nat (S j)) with (k + 1 + Z.of_nat j) by lia.
      * intros Hall j Hj. specialize (Hall (S j) Hj).
        by replace (k + 1 + Z.of_nat j) with (k + Z.of_nat (S j)) by lia.
Qed.

(** When it does not pass, it raises for the first undeclared wildcard. *)
Lemma verify_axes_raise (name : string) (axes : list Z) (k : Z)
    (dims : list Z) (e : Error) :
  verify_axes name axes k dims = Raise e →
  ∃ j0 : nat, dims !! j0 = Some (-1) ∧ (k + Z.of_nat j0 ∉ axes)
    ∧ e = ValueError (not_dynamic_msg name (k + Z.of_nat j0))
    ∧ ∀ j : nat, (j < j0)%nat → dims !! j = Some (-1) → k + Z.of_nat j ∈ axes.
Proof.
  revert k. induction dims as [|d dims IH]; intros k; simpl; [done|].
  destruct (bool_decide (d = -1) && negb (bool_decide (k ∈ axes))) eqn:Hc.
  - intros [= <-]. exists 0%nat.
    apply andb_true_iff in Hc as [Hd%bool_decide_eq_true Hk].
    apply negb_true_iff, bool_decide_eq_false in Hk.
    rewrite Z.add_0_r. simpl. rewrite Hd. repeat (split; [done|]).
    intros j Hj. lia.
  - intros (j0 & Hj0 & Hout & -> & Hleast)%IH. exists (S j0).
    replace (k + Z.of_nat (S j0)) with (k + 1 + Z.of_nat j0) by lia.
    repeat (split; [done|]).
    intros [|j] Hlt Hj; simpl in Hj.
    + injection Hj as ->. rewrite Z.add_0_r.
      apply andb_false_iff in Hc as [Hd|Hk].
      * by apply bool_decide_eq_false in Hd.
      * by apply negb_false_iff, bool_decide_eq_true in Hk.
    + replace (k + Z.of_nat (S j)) with (k + 1 + Z.of_nat j) by lia.
      apply Hleast; [lia|done].
Qed.

(** An entry that applies cleanly is consumed: the loop goes on with the
    tensor's declared axes set to the wildcard. *)
Lemma update_step_clean (metadata : gmap string TensorSpec) (name : string)
    (axes : list Z) (rest : list (string * list Z)) :
  applies_cleanly metadata (name, axes) →
  ∃ spec shape',
    metadata !! name = Some spec
    ∧ set_dynamic (shape spec) axes = Ok shape'
    ∧ _update_user_dynamic_axes_inplace ((name, axes) :: rest) metadata
      = _update_user_dynamic_axes_inplace rest
          (<[name := mkTensorSpec name shape' (dtype spec)]> metadata).
Proof.
  intros (spec & Hspec & Hvalid & Hdecl). simpl in *.
  destruct (set_dynamic_ok axes (shape spec) Hvalid) as [shape' Hset].
  exists spec, shape'. rewrite Hspec, Hset. repeat (split; [done|]).
  rewrite (proj2 (verify_axes_ok name axes 0 (shape spec))); [done|].
  intros j Hj. rewrite Z.add_0_l. by apply Hdecl.
Qed.

Lemma applies_cleanly_insert_ne (metadata : gmap string TensorSpec)
    (name : string) (spec : TensorSpec) (entry : string * list Z) :
  name ≠ entry.1 →
  applies_cleanly metadata entry →
  applies_cleanly (<[name := spec]> metadata) entry.
Proof.
  intros Hne (s & Hs & Hrest). exists s. by rewrite lookup_insert_ne.
Qed.

(** C5, as the code has it: when the loop reaches a tensor that the user
    names in [dynamic_axes] (the entries before it apply cleanly), the axes
    declared for it are indices of its shape, and some axis of it was
    inferred dynamic without being declared, the call raises the validation
    error whose message names the tensor and the first such axis. *)
Theorem undeclared_wildcard_raises_when_reached
    (before after : list (string * list Z)) (name : string) (axes : list Z)
    (metadata : gmap string TensorSpec) (spec : TensorSpec) (j : nat) :
  unique_names (before ++ [(name, axes)]) →
  Forall (applies_cleanly metadata) before →
  metadata !! name = Some spec →
  (∀ ax, ax ∈ axes → valid_index (length (shape spec)) ax) →
  shape spec !! j = Some (-1) →
  Z.of_nat j ∉ axes →
  ∃ j0 : nat, (j0 ≤ j)%nat ∧ shape spec !! j0 = Some (-1)
    ∧ (Z.of_nat j0 ∉ axes)
    ∧ (_update_user_dynamic_axes_inplace
         (before ++ (name, axes) :: after) metadata).2
      = Raise (ValueError (not_dynamic_msg name (Z.of_nat j0))).
Proof.
  revert metadata. induction before as [|[n a] before IH];
    intros metadata Huniq Hclean Hspec Hvalid Hj Hundecl.
  - simpl. rewrite Hspec.
    destruct (set_dynamic_ok axes (shape spec) Hvalid) as [shape' ->].
    destruct (verify_axes name axes 0 (shape spec)) as [[]|e] eqn:Hver.
    + exfalso. apply Hundecl.
      pose proof (proj1 (verify_axes_ok _ _ _ _) Hver j Hj) as Hin.
      by rewrite Z.add_0_l in Hin.
    + apply verify_axes_raise in Hver as (j0 & Hj0 & Hout & -> & Hleast).
      rewrite Z.add_0_l in Hout. exists j0. rewrite Z.add_0_l.
      repeat (split; [|done]).
      destruct (decide (j0 ≤ j)%nat) as [|Hgt]; [done|]. exfalso.
      apply Hundecl. specialize (Hleast j ltac:(lia) Hj).
      by rewrite Z.add_0_l in Hleast.
  - unfold unique_names in Huniq. simpl in Huniq.
    apply NoDup_cons in Huniq as [Hfresh Huniq].
    apply Forall_cons in Hclean as [Hhead Hclean].
    destruct (update_step_clean metadata n a (before ++ (name, axes) :: after)
                Hhead) as (s & shape' & _ & _ & Hstep).
    rewrite <- app_comm_cons, Hstep.
    rewrite fmap_app in Hfresh. apply not_elem_of_app in Hfresh as [Hnb Hnn].
    apply IH; try done.
    + apply Forall_forall. intros e He.
      apply applies_cleanly_insert_ne.
      * intros ->. apply Hnb. apply list_elem_of_fmap. by exists e.
      * by eapply Forall_forall in Hclean.
    + rewrite lookup_insert_ne; [done|]. intros ->. apply Hnn. left.
Qed.

Lemma undeclared_wildcard_raises_when_reached_witness :
  ∃ j0 : nat, (j0 ≤ 0)%nat
    ∧ shape (mkTensorSpec "input__0" [-1; 3] "float32") !! j0 = Some (-1)
    ∧ (Z.of_nat j0 ∉ [1])
    ∧ (_update_user_dynamic_axes_inplace
         (second_only ++ [("input__0"%string, [1])]) two_inputs).2
      = Raise (ValueError (not_dynamic_msg "input__0" (Z.of_nat j0))).
Proof.
  apply (undeclared_wildcard_raises_when_reached
           second_only [] "input__0" [1] two_inputs
           (mkTensorSpec "input__0" [-1; 3] "float32") 0).
  - by apply (bool_decide_unpack _).
  - apply Forall_singleton.
    exists (mkTensorSpec "input__1" [-1; 5] "float32").
    split; [reflexivity|]. split.
    + intros ax ->%list_elem_of_singleton. unfold valid_index. simpl. lia.
    + intros [|[|j]] Hj; try done. left.
  - reflexivity.
  - intros ax ->%list_elem_of_singleton. unfold valid_index. simpl. lia.
  - reflexivity.
  - by intros [=]%list_elem_of_singleton.
Defined.

(** C5 as worded fails: a tensor the user does not name is never verified,
    so its inferred batch axis raises nothing. *)
Lemma undeclared_wildcard_unnoticed :
  ¬ undeclared_wildcard_raises second_only two_inputs.
Proof.
  intros Hclaim.
  specialize (Hclaim "input__0"%string
                (mkTensorSpec "input__0" [-1; 3] "float32") 0%nat).
  assert ((_update_user_dynamic_axes_inplace second_only two_inputs).2 = Ok ())
    as Hrun by reflexivity.
  rewrite Hrun in Hclaim. discriminate Hclaim; [reflexivity|reflexivity|].
  intros (axes & Hget & _). discriminate Hget.
Qed.

(** X10: when every entry applies cleanly the call returns, every tensor the
    user names has its declared axes set to the wildcard, and the other
    tensors are untouched. *)
Lemma user_axes_forced (dynamic_axes : list (string * list Z))
    (metadata : gmap string TensorSpec) :
  unique_names dynamic_axes →
  Forall (applies_cleanly metadata) dynamic_axes →
  ∃ metadata',
    _update_user_dynamic_axes_inplace dynamic_axes metadata
    = (metadata', Ok ())
    ∧ (∀ name, name ∉ dynamic_axes.*1 → metadata' !! name = metadata !! name)
    ∧ ∀ name axes ax, (name, axes) ∈ dynamic_axes → ax ∈ axes →
        ∃ spec spec', metadata !! name = Some spec
          ∧ metadata' !! name = Some spec'
          ∧ shape spec' !! position (length (shape spec)) ax = Some (-1).
Proof.
  revert metadata. induction dynamic_axes as [|[n a] rest IH];
    intros metadata Huniq Hclean.
  - exists metadata. repeat (split; [done|]).
    intros ??? Hin. by apply elem_of_nil in Hin.
  - unfold unique_names in Huniq. rewrite fmap_cons in Huniq.
    apply NoDup_cons in Huniq as [Hfresh Huniq].
    apply Forall_cons in Hclean as [Hhead Hclean].
    destruct (update_step_clean metadata n a rest Hhead)
      as (s & shape' & Hs & Hset & ->).
    destruct (IH (<[n := mkTensorSpec n shape' (dtype s)]> metadata))
      as (m' & Hrun & Hframe & Hforced); [done| |].
    { apply Forall_forall. intros e He. apply applies_cleanly_insert_ne.
      - intros ->. apply Hfresh. apply list_elem_of_fmap. by exists e.
      - by eapply Forall_forall in Hclean. }
    exists m'. split; [exact Hrun|]. split.
    + intros name [Hne Hn]%not_elem_of_cons.
      rewrite Hframe by done. by rewrite lookup_insert_ne.
    + intros name axes ax [Heq|Hin]%elem_of_cons Hax.
      * injection Heq as -> ->. exists s. eexists. split; [done|].
        rewrite Hframe by done. rewrite lookup_insert_eq. split; [done|].
        simpl. by apply (set_dynamic_inv a (shape s) shape' Hset).
      * destruct (Hforced name axes ax Hin Hax) as (sp & sp' & Hsp & Hsp' & Hw).
        rewrite lookup_insert_ne in Hsp.
        { by exists sp, sp'. }
        intros ->. apply Hfresh. apply list_elem_of_fmap. by exists (name, axes).
Qed.

(** Writes keep the names, the ranks and the wildcards. *)
Lemma updated_keeps (m m' : gmap string TensorSpec) (name : string) :
  updated m m' →
  match m !! name with
  | None => m' !! name = None
  | Some spec =>
      ∃ spec', m' !! name = Some spec'
        ∧ length (shape spec') = length (shape spec)
        ∧ ∀ j, shape spec !! j = Some (-1) → shape spec' !! j = Some (-1)
  end.
Proof.
  induction 1 as [|m' n a s sh Hup IH Hs Hset].
  - destruct (m !! name); [|done]. by eexists.
  - apply set_dynamic_inv in Hset as (Hlen & _ & Hout).
    destruct (decide (n = name)) as [->|Hne].
    + rewrite lookup_insert_eq. rewrite Hs in IH.
      destruct (m !! name) as [s0|]; [|done].
      destruct IH as (s' & [= <-] & Hlen' & Hwild).
      eexists. split; [done|]. simpl. split; [congruence|].
      intros j Hj%Hwild. by destruct (Hout j) as [->|[? _]].
    + by rewrite lookup_insert_ne.
Qed.

Lemma updated_trans (m1 m2 m3 : gmap string TensorSpec) :
  updated m1 m2 → updated m2 m3 → updated m1 m3.
Proof. intros H12. induction 1; [done|]. by econstructor. Qed.

Lemma update_updated (dynamic_axes : list (string * list Z))
    (m : gmap string TensorSpec) :
  updated m (_update_user_dynamic_axes_inplace dynamic_axes m).1.
Proof.
  revert m. induction dynamic_axes as [|[n a] rest IH]; intros m; simpl.
  - constructor.
  - destruct (m !! n) as [s|] eqn:Hs; [|constructor].
    destruct (set_dynamic (shape s) a) as [sh|e] eqn:Hset; [|constructor].
    assert (updated m (<[n := mkTensorSpec n sh (dtype s)]> m)) as Hstep.
    { econstructor; [constructor|done..]. }
    destruct (verify_axes n a 0 (shape s)); [|done].
    eapply updated_trans; [exact Hstep|apply IH].
Qed.

(** A shape that already has the wildcard on the declared axes is left as
    it is. *)
Lemma set_dynamic_fixed (axes : list Z) (shape shape' : list Z) :
  set_dynamic shape axes = Ok shape' →
  (∀ ax, ax ∈ axes → shape !! position (length shape) ax = Some (-1)) →
  shape' = shape.
Proof.
  intros (Hlen & _ & Hout)%set_dynamic_inv Hwild.
  apply list_eq. intros j.
  destruct (Hout j) as [->|[-> (ax & Hax & <-)]]; [done|].
  symmetry. by apply Hwild.
Qed.

Lemma settled_after_write (m : gmap string TensorSpec) (name : string)
    (axes : list Z) (spec : TensorSpec) (shape' : list Z) :
  set_dynamic (shape spec) axes = Ok shape' →
  settled (name, axes) (<[name := mkTensorSpec name shape' (dtype spec)]> m).
Proof.
  intros Hset s sh. simpl. rewrite lookup_insert_eq. intros [= <-]. simpl.
  intros Hagain. f_equal.
  apply set_dynamic_inv in Hset as (Hlen & Hin & _). symmetry.
  apply (set_dynamic_fixed axes); [done|].
  intros ax Hax. rewrite Hlen. by apply Hin.
Qed.

Lemma settled_updated (entry : string * list Z)
    (m m' : gmap string TensorSpec) :
  settled entry m → updated m m' → settled entry m'.
Proof.
  intros Hsettled. induction 1 as [|m' n a s sh Hup IH Hs Hset]; [done|].
  intros s2 sh2. destruct (decide (n = entry.1)) as [->|Hne].
  - rewrite lookup_insert_eq. intros [= <-]. simpl. intros Hagain. f_equal.
    symmetry. apply (set_dynamic_fixed entry.2); [done|].
    pose proof Hset as (Hlen & _ & Hout)%set_dynamic_inv.
    pose proof Hagain as (_ & Hin2 & _)%set_dynamic_inv.
    intros ax Hax. rewrite Hlen.
    destruct (set_dynamic_ok entry.2 (shape s)) as [x Hx].
    { intros b Hb. rewrite <- Hlen. by apply Hin2. }
    pose proof (IH s x Hs Hx) as Hfix.
    assert (shape s = x) as <- by (by rewrite Hfix at 1).
    apply set_dynamic_inv in Hx as (_ & Hin & _).
    destruct (Hin ax Hax) as [_ Hw].
    by destruct (Hout (position (length (shape s)) ax)) as [->|[? _]].
  - rewrite lookup_insert_ne by done. apply IH.
Qed.

(** Running the loop again on metadata it has already been through, and
    that only its own writes have touched since, changes nothing. *)
Lemma update_again (dynamic_axes : list (string * list Z))
    (m m2 : gmap string TensorSpec) :
  updated (_update_user_dynamic_axes_inplace dynamic_axes m).1 m2 →
  (_update_user_dynamic_axes_inplace dynamic_axes m2).1 = m2.
Proof.
  revert m m2. induction dynamic_axes as [|[n a] rest IH]; intros m m2; [done|].
  simpl. destruct (m !! n) as [s|] eqn:Hs.
  2:{ simpl. intros Hup. apply (updated_keeps _ _ n) in Hup. rewrite Hs in Hup.
      by rewrite Hup. }
  destruct (set_dynamic (shape s) a) as [sh|e] eqn:Hset.
  2:{ simpl. intros Hup. apply (updated_keeps _ _ n) in Hup. rewrite Hs in Hup.
      destruct Hup as (s2 & -> & Hlen & _).
      destruct (set_dynamic (shape s2) a) as [sh2|e2] eqn:Hset2; [|done].
      exfalso. apply set_dynamic_raise in Hset as (_ & ax & Hax & Hbad).
      apply Hbad. rewrite <- Hlen.
      by apply (set_dynamic_inv a (shape s2) sh2 Hset2). }
  pose proof (settled_after_write m n a s sh Hset) as Hsettled.
  set (m' := <[n := mkTensorSpec n sh (dtype s)]> m) in *.
  assert (∀ m2, updated m' m2 →
    ∃ s2 sh2, m2 !! n = Some s2 ∧ set_dynamic (shape s2) a = Ok sh2
      ∧ <[n := mkTensorSpec n sh2 (dtype s2)]> m2 = m2
      ∧ ∀ j, shape s !! j = Some (-1) → shape s2 !! j = Some (-1))
    as Hnoop.
  { intros m3 Hup.
    pose proof (updated_keeps _ _ n Hup) as Hkeep. unfold m' in Hkeep.
    rewrite lookup_insert_eq in Hkeep.
    destruct Hkeep as (s2 & Hs2 & Hlen & Hwild). simpl in Hlen, Hwild.
    pose proof Hset as (Hlen0 & Hin0 & Hout0)%set_dynamic_inv.
    destruct (set_dynamic_ok a (shape s2)) as [sh2 Hset2].
    { intros ax Hax. rewrite Hlen, Hlen0. by apply Hin0. }
    exists s2, sh2. repeat (split; [done|]). split.
    - apply insert_id.
      pose proof (settled_updated (n, a) m' m3 Hsettled Hup s2 sh2 Hs2 Hset2)
        as Heq.
      simpl in Heq. by rewrite <- Heq.
    - intros j Hj. apply Hwild. by destruct (Hout0 j) as [->|[? _]]. }
  destruct (verify_axes n a 0 (shape s)) as [[]|e] eqn:Hver.
  - intros Hup.
    destruct (Hnoop m2) as (s2 & sh2 & -> & -> & -> & _).
    { eapply updated_trans; [apply update_updated|exact Hup]. }
    destruct (verify_axes n a 0 (shape s2)); [|done].
    by apply (IH m').
  - simpl. intros Hup.
    destruct (Hnoop m2 Hup) as (s2 & sh2 & -> & -> & -> & Hwild).
    destruct (verify_axes n a 0 (shape s2)) as [[]|e2] eqn:Hver2; [|done].
    exfalso. apply verify_axes_raise in Hver as (j0 & Hj0 & Hout & _).
    apply Hout. apply (proj1 (verify_axes_ok _ _ _ _) Hver2 j0). by apply Hwild.
Qed.

(** X9: the update is idempotent on the metadata: applying it twice leaves
    what applying it once leaves, however either call ends. *)
Lemma update_user_dynamic_axes_idempotent
    (dynamic_axes : list (string * list Z)) (m : gmap string TensorSpec) :
  (_update_user_dynamic_axes_inplace dynamic_axes
     (_update_user_dynamic_axes_inplace dynamic_axes m).1).1
  = (_update_user_dynamic_axes_inplace dynamic_axes m).1.
Proof. apply (update_again dynamic_axes m). constructor. Qed.

(** C4 fails on the code: the loop returns at the first name of
    [dynamic_axes] that the metadata does not hold, so the axes declared for
    the names after it are left as inferred.  Here the user declares axis 0
    of [input__0], and the metadata comes back unchanged, axis 0 still 3. *)
Theorem user_axes_lost_after_unknown_name :
  declared output_first "input__0" 0
  ∧ _update_user_dynamic_axes_inplace output_first one_input
    = (one_input, Ok ())
  ∧ shape <$> one_input !! "input__0"%string = Some [3; 4].
Proof.
  split; [|split; reflexivity].
  exists [0]. split; [reflexivity|left].
Qed.

End UserDynamicAxes.


(** ** [_extract_axes_shapes] *)

Section ExtractAxesShapesFacts.
Context {Sample Framework : Type}.
Variable validate_sample_input : Sample → Framework → Res unit.
Variable extract_sample :
  Sample → list string → Framework → Res (list (string * list Z)).

(** The source still yields more than the loop may take: the loop takes
    what it may, logs the warning and is left with [i = num_samples]. *)
Lemma extract_loop_more (dataloader : DataLoader Sample) (input_names : list string)
    (num_samples : Z) (framework : Framework) (n : Z) (rest : list Sample) :
  len dataloader = Some n →
  ∀ (i : Z) (last_i : option Z) (a a' : AxesShapes) (log : list string),
    0 ≤ i ≤ num_samples →
    num_samples - i < Z.of_nat (length rest) →
    consume validate_sample_input extract_sample input_names framework (take (Z.to_nat (num_samples - i)) rest) a
    = Ok a' →
    extract_loop validate_sample_input extract_sample dataloader input_names num_samples framework rest i last_i
      a log
    = (log ++ [more_samples_msg n], Ok (a', Some num_samples)).
Proof.
  intros Hlen. induction rest as [|sample rest IH];
    intros i last_i a a' log Hi Hmore Hcons; simpl in *; [lia|].
  destruct (num_samples <=? i) eqn:Hstop.
  - apply Z.leb_le in Hstop. assert (i = num_samples) as -> by lia.
    rewrite Z.sub_diag in Hcons. simpl in Hcons. injection Hcons as ->.
    by rewrite Hlen.
  - apply Z.leb_gt in Hstop.
    replace (Z.to_nat (num_samples - i))
      with (S (Z.to_nat (num_samples - (i + 1)))) in Hcons by lia.
    simpl in Hcons.
    destruct (_ ← validate_sample_input sample framework;
              sample' ← extract_sample sample input_names framework;
              append_sample a sample') as [a1|e]; [|done].
    simpl in Hcons. apply IH; [lia|lia|done].
Qed.

(** The source runs dry first: every sample is taken, nothing is logged,
    and [i] is left at the index of the last sample, or unbound. *)
Lemma extract_loop_fewer (dataloader : DataLoader Sample) (input_names : list string)
    (num_samples : Z) (framework : Framework) (rest : list Sample) :
  ∀ (i : Z) (last_i : option Z) (a a' : AxesShapes) (log : list string),
    Z.of_nat (length rest) ≤ num_samples - i →
    consume validate_sample_input extract_sample input_names framework rest a
    = Ok a' →
    extract_loop validate_sample_input extract_sample dataloader input_names num_samples framework rest i last_i
      a log
    = (log, Ok (a', match rest with
                    | [] => last_i
                    | _ => Some (i + Z.of_nat (length rest) - 1)
                    end)).
Proof.
  induction rest as [|sample rest IH];
    intros i last_i a a' log Hfew Hcons; simpl in *.
  - by injection Hcons as ->.
  - rewrite (proj2 (Z.leb_gt _ _)) by lia.
    destruct (_ ← validate_sample_input sample framework;
              sample' ← extract_sample sample input_names framework;
              append_sample a sample') as [a1|e]; [|done].
    simpl in Hcons. rewrite (IH (i + 1) (Some i) a1 a' log); [|lia|done].
    do 3 f_equal. destruct rest; simpl; f_equal; lia.
Qed.

(** C7, as the code has it, for a source that reports a length [n] and
    whose consumed samples are valid.  When the source yields more than
    [num_samples] samples, the extraction stops after [num_samples] of them
    and logs a warning; it then returns their buckets provided [check_len]
    is off or [n <= num_samples + 1], the assertion on the length being
    evaluated after the loop as well.  When [check_len] is on and the source
    yields at least one sample but fewer than [n], the call fails with that
    assertion. *)
Theorem extract_axes_shapes_more_or_fewer
    (dataloader : DataLoader Sample) (input_names : list string)
    (input_ndims : list Z) (num_samples : Z) (framework : Framework)
    (check_len : bool) (n : Z) (axes_shapes : AxesShapes) :
  len dataloader = Some n →
  0 ≤ num_samples →
  consume validate_sample_input extract_sample input_names framework
    (take (Z.to_nat num_samples) (samples dataloader))
    (init_axes_shapes input_names input_ndims) = Ok axes_shapes →
  (num_samples < Z.of_nat (length (samples dataloader)) →
   check_len = false ∨ n ≤ num_samples + 1 →
   _extract_axes_shapes validate_sample_input extract_sample dataloader
     input_names input_ndims num_samples framework check_len
   = ([more_samples_msg n], Ok axes_shapes))
  ∧ (check_len = true →
     samples dataloader ≠ [] →
     Z.of_nat (length (samples dataloader)) < n →
     ∃ log,
       _extract_axes_shapes validate_sample_input extract_sample dataloader
         input_names input_ndims num_samples framework check_len
       = (log, Raise (AssertionError
            (only_samples_msg n
               (Z.min (Z.of_nat (length (samples dataloader)))
                      (num_samples + 1)))))).
Proof.
  intros Hlen HN Hcons. unfold _extract_axes_shapes. rewrite Hlen.
  rewrite (bool_decide_eq_true_2 (is_Some (Some n))) by eauto.
  rewrite andb_false_r.
  destruct (decide (num_samples < Z.of_nat (length (samples dataloader))))
    as [Hmore|Hfew].
  - rewrite (extract_loop_more dataloader input_names num_samples framework n
               (samples dataloader) Hlen 0 None _ axes_shapes []);
      [|lia|lia|by rewrite Z.sub_0_r].
    simpl. split.
    + intros _ [->|Hn]; [done|].
      destruct check_len; [|done].
      by rewrite (proj2 (Z.leb_le _ _)) by lia.
    + intros -> _ Hshort. eexists.
      rewrite (proj2 (Z.leb_gt _ _)) by lia.
      by rewrite Z.min_r by lia.
  - rewrite firstn_all2 in Hcons by lia.
    rewrite (extract_loop_fewer dataloader input_names num_samples framework
               (samples dataloader) 0 None _ axes_shapes []); [|lia|done].
    split; [lia|].
    intros -> Hne Hshort. eexists.
    destruct (samples dataloader) as [|sample rest] eqn:Hs; [done|].
    rewrite (proj2 (Z.leb_gt _ _)) by lia.
    rewrite Z.min_l by lia. do 4 f_equal. lia.
Qed.

End ExtractAxesShapesFacts.

Section ExtractAxesShapesExamples.

Lemma extract_axes_shapes_more_or_fewer_witness :
  _extract_axes_shapes accept_sample sample_as_is three_samples
    ["x"%string] [2] 2 () true
  = ([more_samples_msg 3],
     Ok [("x"%string, [(0, [2; 2]); (1, [8; 8])])])
  ∧ ∃ log,
      _extract_axes_shapes accept_sample sample_as_is
        {| samples := [mapping_sample; mapping_sample]; len := Some 3 |}
        ["x"%string] [2] 2 () true
      = (log, Raise (AssertionError (only_samples_msg 3 (Z.min 2 (2 + 1))))).
Proof.
  split.
  - apply (extract_axes_shapes_more_or_fewer accept_sample sample_as_is
             three_samples ["x"%string] [2] 2 () true 3);
      [reflexivity | lia | reflexivity | simpl; lia | right; lia].
  - apply (extract_axes_shapes_more_or_fewer accept_sample sample_as_is
             {| samples := [mapping_sample; mapping_sample]; len := Some 3 |}
             ["x"%string] [2] 2 () true 3
             [("x"%string, [(0, [2; 2]); (1, [8; 8])])]);
      [reflexivity | lia | reflexivity | reflexivity | discriminate
      | simpl; lia].
Defined.

(** C7 as worded fails: with [check_len] on, a target of one sample and a
    source of three samples that reports length 3, the loop stops after one
    sample with the warning, and the assertion on the length then fails. *)
Lemma more_samples_assertion_fails :
  _extract_axes_shapes accept_sample sample_as_is three_samples
    ["x"%string] [2] 1 () true
  = (["len(dataloader)=3, but more samples found."%string],
     Raise (AssertionError "len(dataloader)=3, but only 2 samples found."))
  ∧ ¬ more_samples_only_warn accept_sample sample_as_is three_samples
        ["x"%string] [2] 1 () true.
Proof.
  split; [reflexivity|].
  intros Hclaim.
  destruct (Hclaim ltac:(simpl; lia) [("x"%string, [(0, [2]); (1, [8])])]
              ltac:(reflexivity)) as (log & _ & Hrun).
  discriminate Hrun.
Qed.

End ExtractAxesShapesExamples.


(** ** [TFPipelineManager._get_pipeline] *)

Section TFPipeline.
Import TFManager.

Lemma filter_none {A} (P : A → Prop) `{!∀ x, Decision (P x)} (l : list A) :
  Forall (λ x, ¬ P x) l → filter P l = [].
Proof.
  induction 1 as [|x l Hx _ IH]; [done|].
  by rewrite filter_cons_False.
Qed.

Lemma Forall_flat_map {A B} (P : B → Prop) (f : A → list B) (l : list A) :
  (∀ x, Forall P (f x)) → Forall P (flat_map f l).
Proof.
  intros Hf. induction l as [|x l IH]; simpl; [done|].
  apply Forall_app. by split.
Qed.

(** Neither an ONNX conversion nor a TensorRT conversion. *)
Lemma onnx_block_shape (config : Config) (preprocess_req : list Command) :
  ∃ tail,
    (onnx_block config preprocess_req).2
    = (onnx_block config preprocess_req).1 :: tail
    ∧ cls (onnx_block config preprocess_req).1 = ConvertSavedModel2ONNX
    ∧ Forall (λ c, cls c ≠ ConvertSavedModel2ONNX ∧ cls c ≠ ConvertONNX2TRT)
        tail.
Proof.
  unfold onnx_block. simpl. eexists. split; [done|]. split; [done|].
  apply Forall_app. split.
  - apply Forall_flat_map. intros provider. by repeat constructor.
  - by repeat constructor.
Qed.

Lemma trt_block_shape (onnx_convert : Command) (precisions : list string) :
  Forall (λ c, cls c ≠ ConvertSavedModel2ONNX
               ∧ (cls c = ConvertONNX2TRT → requires c = [onnx_convert]))
    (flat_map (λ target_precision,
       let trt_convert :=
         mkCommand ConvertONNX2TRT None (Some target_precision) None
           (option_list (Some onnx_convert)) in
       [trt_convert;
        mkCommand CorrectnessTensorFlow2TRT None (Some target_precision)
          None [trt_convert];
        mkCommand PerformanceTRT None (Some target_precision) None
          [trt_convert];
        mkCommand ConfigCli (Some TENSORRT) (Some target_precision) None
          [trt_convert]])
       precisions).
Proof. apply Forall_flat_map. intros p. by repeat constructor. Qed.

Lemma tf_trt_block_shape (preprocess_req : list Command)
    (precisions : list string) :
  Forall (λ c, cls c ≠ ConvertSavedModel2ONNX ∧ cls c ≠ ConvertONNX2TRT)
    (flat_map (λ target_precision,
       let convert_savedmodel2trt :=
         mkCommand ConvertSavedModel2TFTRT None (Some target_precision)
           None preprocess_req in
       [convert_savedmodel2trt;
        mkCommand CorrectnessSavedModel (Some TF_TRT)
          (Some target_precision) None [convert_savedmodel2trt];
        mkCommand PerformanceSavedModel (Some TF_TRT)
          (Some target_precision) None [convert_savedmodel2trt];
        mkCommand ConfigCli (Some TF_TRT) (Some target_precision) None
          [convert_savedmodel2trt]])
       precisions).
Proof. apply Forall_flat_map. intros p. by repeat constructor. Qed.

(** The list the manager builds when TensorRT is requested: the commands of
    the source, one ONNX block, the TensorRT block that requires its
    conversion, and the commands of TF-TRT if requested. *)
Lemma get_pipeline_shape (config : Config) :
  TENSORRT ∈ target_formats config →
  ∃ base onnx_convert onnx_tail trt tf_trt,
    commands (_get_pipeline config)
    = base ++ (onnx_convert :: onnx_tail) ++ trt ++ tf_trt
    ∧ cls onnx_convert = ConvertSavedModel2ONNX
    ∧ Forall (λ c, cls c ≠ ConvertSavedModel2ONNX ∧ cls c ≠ ConvertONNX2TRT)
        (base ++ onnx_tail ++ tf_trt)
    ∧ Forall (λ c, cls c ≠ ConvertSavedModel2ONNX
                   ∧ (cls c = ConvertONNX2TRT → requires c = [onnx_convert]))
        trt.
Proof.
  intros Htrt. unfold _get_pipeline.
  rewrite (bool_decide_eq_true_2 _ Htrt).
  set (source := if from_source config then _ else _).
  assert (Forall (λ c, cls c ≠ ConvertSavedModel2ONNX
                       ∧ cls c ≠ ConvertONNX2TRT) source.1) as Hbase.
  { unfold source. destruct (from_source config); by repeat constructor. }
  destruct source as [base preprocess_req]. simpl in Hbase.
  destruct (onnx_block_shape config preprocess_req) as (tail & Hblock & Hcls & Htail).
  destruct (onnx_block config preprocess_req) as [onnx_convert block].
  simpl in Hblock, Hcls. subst block.
  pose proof (trt_block_shape onnx_convert (target_precisions config)) as Htrtb.
  pose proof (tf_trt_block_shape preprocess_req (target_precisions config))
    as Htfb.
  match type of Htrtb with
  | Forall _ ?trt =>
      match type of Htfb with
      | Forall _ ?tf =>
          destruct (bool_decide (ONNX ∈ target_formats config));
          destruct (bool_decide (TF_TRT ∈ target_formats config));
          [ exists base, onnx_convert, tail, trt, tf
          | exists base, onnx_convert, tail, trt, []
          | exists base, onnx_convert, tail, trt, tf
          | exists base, onnx_convert, tail, trt, [] ]
      end
  end.
  all: split; [simpl; rewrite ?app_nil_r, <- ?app_assoc; reflexivity|].
  all: split; [done|]. all: split; [|exact Htrtb].
  all: rewrite ?app_nil_r, !Forall_app; done.
Qed.

(** C8: when TensorRT is among the requested target formats, the command
    list holds exactly one ConvertSavedModel2ONNX command, whether or not
    ONNX is requested as well, and every ConvertONNX2TRT command of the list
    requires that command. *)
Theorem tensorrt_inserts_one_onnx_conversion (config : Config) :
  TENSORRT ∈ target_formats config →
  ∃ onnx_convert,
    onnx_conversions (commands (_get_pipeline config)) = [onnx_convert]
    ∧ onnx_convert ∈ commands (_get_pipeline config)
    ∧ ∀ c, c ∈ commands (_get_pipeline config) →
        cls c = ConvertONNX2TRT → requires c = [onnx_convert].
Proof.
  intros (base & onnx_convert & tail & trt & tf_trt & -> & Hcls & Hrest & Htrt)
    %get_pipeline_shape.
  apply Forall_app in Hrest as [Hbase [Htail Htf]%Forall_app].
  exists onnx_convert. split; [|split].
  - unfold onnx_conversions. rewrite !filter_app, filter_cons_True by done.
    rewrite !filter_none; [done|..];
      (eapply Forall_impl; [eassumption|]); simpl; tauto.
  - apply elem_of_app. right. left.
  - intros c Hin Hc.
    repeat (apply elem_of_app in Hin as [Hin|Hin]).
    + by apply (proj1 (Forall_forall _ _) Hbase) in Hin as [_ ?].
    + apply elem_of_cons in Hin as [->|Hin]; [congruence|].
      by apply (proj1 (Forall_forall _ _) Htail) in Hin as [_ ?].
    + apply (proj1 (Forall_forall _ _) Htrt) in Hin as [_ Hreq]. by apply Hreq.
    + by apply (proj1 (Forall_forall _ _) Htf) in Hin as [_ ?].
Qed.

Lemma tensorrt_inserts_one_onnx_conversion_witness :
  ∃ onnx_convert,
    onnx_conversions
      (commands (_get_pipeline
         {| from_source := true; target_formats := [TENSORRT];
            onnx_runtimes := ["CPUExecutionProvider"%string];
            target_precisions := ["fp16"%string] |}))
    = [onnx_convert]
    ∧ onnx_convert
      ∈ commands (_get_pipeline
          {| from_source := true; target_formats := [TENSORRT];
             onnx_runtimes := ["CPUExecutionProvider"%string];
             target_precisions := ["fp16"%string] |})
    ∧ ∀ c,
        c ∈ commands (_get_pipeline
              {| from_source := true; target_formats := [TENSORRT];
                 onnx_runtimes := ["CPUExecutionProvider"%string];
                 target_precisions := ["fp16"%string] |}) →
        cls c = ConvertONNX2TRT → requires c = [onnx_convert].
Proof.
  apply tensorrt_inserts_one_onnx_conversion. simpl. left.
Defined.

End TFPipeline.


(** ** [Pipeline.__call__] *)

Section PipelineFacts.
Import PipelineRun.
Context {Value : Type}.

Section AnyTransform.
Variable transform :
  Command Value → gmap nat Status → gmap string (option Value)
  → Res (CommandResults Value * gmap nat Status).

(** Whatever [transform] does, a command that declares an output name
    leaves that key in [additional_params], bound to the output of its
    results. *)
Lemma step_writes_output (config : gmap string (option Value))
    (command : Command Value) (st st' : LoopState Value) (key : string) :
  step transform config command st = Ok st' →
  output_name command = Some key →
  ∃ results, last (commands_results st') = Some results
    ∧ additional_params st' !! key = Some (output results).
Proof.
  unfold step. intros Hstep Hkey.
  destruct (transform command (statuses st) (namespace config st))
    as [[results statuses']|e]; [|done].
  simpl in Hstep. injection Hstep as <-. simpl. rewrite Hkey.
  exists results. by rewrite last_snoc, lookup_insert_eq.
Qed.

Lemma step_keeps_keys (config : gmap string (option Value))
    (command : Command Value) (st st' : LoopState Value) (key : string) :
  step transform config command st = Ok st' →
  (is_Some (additional_params st !! key) →
   is_Some (additional_params st' !! key))
  ∧ (output_name command ≠ Some key →
     additional_params st' !! key = additional_params st !! key).
Proof.
  unfold step. intros Hstep.
  destruct (transform command (statuses st) (namespace config st))
    as [[results statuses']|e]; [|done].
  simpl in Hstep. injection Hstep as <-. simpl.
  destruct (output_name command) as [k|]; [|done].
  destruct (decide (k = key)) as [->|Hne].
  - rewrite lookup_insert_eq. split; [by eauto|done].
  - by rewrite lookup_insert_ne.
Qed.

(** Keys are never removed by the loop, and a key that no later command
    declares keeps its value. *)
Lemma loop_keeps_keys (config : gmap string (option Value))
    (commands : list (Command Value)) (st st' : LoopState Value) (key : string) :
  loop transform config commands st = Ok st' →
  (is_Some (additional_params st !! key) →
   is_Some (additional_params st' !! key))
  ∧ (Forall (λ c, output_name c ≠ Some key) commands →
     additional_params st' !! key = additional_params st !! key).
Proof.
  revert st. induction commands as [|command commands IH]; intros st; simpl.
  - by intros [= <-].
  - destruct (step transform config command st) as [st1|e] eqn:Hstep; [|done].
    simpl. intros [Hsome Hsame]%IH.
    destruct (step_keeps_keys _ _ _ _ key Hstep) as [Hsome1 Hsame1].
    split; [auto|].
    intros [Hc Hcs]%Forall_cons. rewrite Hsame by done. by apply Hsame1.
Qed.

End AnyTransform.

(** A command that is not required and has a failed requirement is not
    attempted. *)
Lemma transform_skips (command : Command Value)
    (statuses : gmap nat Status) (kwargs : gmap string (option Value))
    (r : nat) :
  r ∈ requires command →
  statuses !! r = Some FAIL →
  is_required command = false →
  Command_transform command statuses kwargs
  = Ok ({| status := SKIPPED; output := None |},
        <[cid command := SKIPPED]> statuses).
Proof.
  intros Hr Hfail Hopt. unfold Command_transform.
  destruct (forallb (reached_ok statuses) (requires command)) eqn:Hall.
  - rewrite forallb_forall in Hall.
    specialize (Hall r (proj1 (list_elem_of_In _ _) Hr)).
    unfold reached_ok in Hall. apply bool_decide_eq_true in Hall. congruence.
  - by rewrite Hopt.
Qed.

(** C3, as the code has it: a command that is not [is_required] and of
    which a required upstream command finished FAIL ends SKIPPED with no
    output, and the key it declares is present in the namespace that every
    later command receives: the loop stores the output of the results under
    the declared name whatever the status, so the key is bound to [None]
    until a later command that declares the same name rebinds it. *)
Theorem skipped_output_bound_to_none
    (config : gmap string (option Value)) (before : list (Command Value))
    (command : Command Value) (between : list (Command Value)) (st : LoopState Value) (r : nat) :
  loop Command_transform config before initial = Ok st →
  r ∈ requires command →
  statuses st !! r = Some FAIL →
  is_required command = false →
  ∃ st',
    step Command_transform config command st = Ok st'
    ∧ last (commands_results st')
      = Some {| status := SKIPPED; output := None |}
    ∧ statuses st' !! cid command = Some SKIPPED
    ∧ ∀ st'' key,
        loop Command_transform config between st' = Ok st'' →
        output_name command = Some key →
        is_Some (namespace config st'' !! key)
        ∧ (Forall (λ c, output_name c ≠ Some key) between →
           namespace config st'' !! key = Some None).
Proof.
  intros _ Hr Hfail Hopt.
  pose proof (transform_skips command (statuses st) (namespace config st) r
                Hr Hfail Hopt) as Hskip.
  eexists. split; [|split; [|split]].
  - unfold step. rewrite Hskip. simpl. reflexivity.
  - simpl. by rewrite last_snoc.
  - simpl. by rewrite lookup_insert_eq.
  - intros st'' key Hloop Hkey.
    destruct (loop_keeps_keys _ _ _ _ _ key Hloop) as [Hsome Hsame].
    simpl in Hsome, Hsame. rewrite Hkey, lookup_insert_eq in Hsome, Hsame.
    unfold namespace. split.
    + destruct Hsome as [v Hv]; [by eauto|].
      exists v. by apply lookup_union_Some_l.
    + intros Hfresh. apply lookup_union_Some_l. by apply Hsame.
Qed.

End PipelineFacts.

Section PipelineExamples.
Import PipelineRun.

Lemma skipped_output_bound_to_none_witness :
  ∃ st',
    step Command_transform (∅ : gmap string (option string))
      dependent_convert
      {| additional_params := {["exported"%string := None]};
         commands_results := [{| status := FAIL; output := None |}];
         statuses := {[0%nat := FAIL]} |} = Ok st'
    ∧ last (commands_results st')
      = Some {| status := SKIPPED; output := None |}
    ∧ statuses st' !! cid dependent_convert = Some SKIPPED
    ∧ ∀ st'' key,
        loop Command_transform ∅ [] st' = Ok st'' →
        output_name dependent_convert = Some key →
        is_Some (namespace ∅ st'' !! key)
        ∧ (Forall (λ c : Command string, output_name c ≠ Some key) [] →
           namespace ∅ st'' !! key = Some None).
Proof.
  apply (skipped_output_bound_to_none ∅ [failing_export] dependent_convert []
           _ 0%nat); [reflexivity | left | reflexivity | reflexivity].
Defined.

(** C3 as worded fails: after the export has failed, the conversion that
    requires it is skipped, and its key [converted] is in the namespace,
    bound to [None]. *)
Lemma skipped_output_key_present :
  ¬ skipped_output_absent (∅ : gmap string (option string))
      [failing_export] dependent_convert [].
Proof.
  intros Hclaim.
  destruct (Hclaim
    {| additional_params := {["exported"%string := None]};
       commands_results := [{| status := FAIL; output := None |}];
       statuses := {[0%nat := FAIL]} |} 0%nat)
    as (st' & Hstep & _ & Habsent);
    [reflexivity | left | reflexivity | reflexivity |].
  specialize (Habsent st' "converted"%string eq_refl eq_refl).
  destruct (step_writes_output Command_transform ∅ dependent_convert _ st'
              "converted"%string Hstep eq_refl) as (results & _ & Hkey).
  unfold namespace in Habsent.
  by rewrite (lookup_union_Some_l _ _ _ _ Hkey) in Habsent.
Qed.

End PipelineExamples.


(** ** [equal_model_configs_sets] *)

Section ModelConfigSets.
Import TritonModelConfig.
Context {Config : Type} `{EqDecision Config}.

Lemma list_remove_elem (x : Config) (l : list Config) :
  x ∈ l → ∃ k, list_remove x l = Ok k ∧ l ≡ₚ x :: k.
Proof.
  induction l as [|y l IH]; intros Hin; [by apply elem_of_nil in Hin|].
  simpl. destruct (decide (y = x)) as [->|Hne]; [by eexists|].
  apply elem_of_cons in Hin as [->|Hin]; [done|].
  destruct (IH Hin) as (k & -> & Hperm). simpl.
  eexists. split; [done|]. rewrite Hperm. apply Permutation_swap.
Qed.

Lemma configs_loop_spec (a b : list Config) :
  ∃ same rest, configs_loop a b = Ok (same, rest)
    ∧ match same with
      | None => b ≡ₚ a ++ rest
      | Some _ => ¬ a ⊆+ b
      end.
Proof.
  revert b. induction a as [|item a IH]; intros b; simpl.
  - by exists None, b.
  - destruct (bool_decide (item ∈ b)) eqn:Hin; simpl.
    + apply bool_decide_eq_true in Hin.
      destruct (list_remove_elem item b Hin) as (k & -> & Hperm). simpl.
      destruct (IH k) as (same & rest & -> & Hspec).
      exists same, rest. split; [done|]. destruct same.
      * intros Hsub. apply Hspec. rewrite Hperm in Hsub.
        by apply (submseteq_app_inv_l a k [item]) in Hsub.
      * by rewrite Hperm, Hspec.
    + apply bool_decide_eq_false in Hin.
      exists (Some false), b. split; [done|].
      intros Hsub. apply Hin. eapply elem_of_submseteq; [|exact Hsub]. left.
Qed.

(** X1: the comparison always returns, and returns [True] exactly when the
    two lists hold the same configurations the same number of times, in
    any order. *)
Theorem equal_model_configs_sets_permutation (a b : list Config) :
  ∃ same, equal_model_configs_sets a b = Ok same
    ∧ (same = true ↔ a ≡ₚ b).
Proof.
  unfold equal_model_configs_sets.
  destruct (configs_loop_spec a b) as (same & rest & -> & Hspec). simpl.
  destruct same as [s|]; eexists; (split; [done|]).
  - split; [done|]. intros Hperm. exfalso. apply Hspec. by rewrite Hperm.
  - rewrite bool_decide_eq_true. split.
    + intros ->. by rewrite app_nil_r in Hspec.
    + intros Hperm. rewrite <- Hperm in Hspec.
      apply Permutation_length in Hspec. rewrite length_app in Hspec.
      destruct rest; [done|]. simpl in Hspec. lia.
Qed.

End ModelConfigSets.

(** ** The command list of the TensorFlow manager, block by block *)

Section TFBlocksFacts.
Import TFManager TFBlocks.
#[local] Set Warnings "-clear-no-such-hyp".

(** The list the manager accumulates is the concatenation of four blocks,
    each present or absent by the requested formats alone. *)
Lemma get_pipeline_blocks (config : Config) :
  commands (_get_pipeline config) = blocks config.
Proof.
  unfold _get_pipeline, blocks, source_part.
  destruct (from_source config);
    destruct (decide (ONNX ∈ target_formats config)) as [Ho|Ho];
    destruct (decide (TENSORRT ∈ target_formats config)) as [Ht|Ht];
    destruct (decide (TF_TRT ∈ target_formats config)) as [Hf|Hf];
    rewrite ?(bool_decide_eq_true_2 _ Ho), ?(bool_decide_eq_false_2 _ Ho),
      ?(bool_decide_eq_true_2 _ Ht), ?(bool_decide_eq_false_2 _ Ht),
      ?(bool_decide_eq_true_2 _ Hf), ?(bool_decide_eq_false_2 _ Hf);
    try rewrite (bool_decide_eq_true_2
                   (ONNX ∈ target_formats config
                    ∨ TENSORRT ∈ target_formats config)) by tauto;
    try rewrite (bool_decide_eq_false_2
                   (ONNX ∈ target_formats config
                    ∨ TENSORRT ∈ target_formats config)) by tauto;
    simpl; rewrite ?app_nil_r, <- ?app_assoc; reflexivity.
Qed.

Lemma requires_earlier_mono (seen seen' l : list Command) :
  seen ⊆ seen' → requires_earlier seen l → requires_earlier seen' l.
Proof.
  revert seen seen'. induction l as [|c l IH]; intros seen seen' Hsub; [done|].
  simpl. intros [Hc Hl]. split.
  - intros r Hr. apply Hsub. by apply Hc.
  - eapply IH; [|exact Hl]. intros x [?|?]%elem_of_app; apply elem_of_app;
      [left; by apply Hsub | by right].
Qed.

Lemma requires_earlier_app (seen l1 l2 : list Command) :
  requires_earlier seen l1 →
  requires_earlier (seen ++ l1) l2 →
  requires_earlier seen (l1 ++ l2).
Proof.
  revert seen. induction l1 as [|c l1 IH]; intros seen; simpl.
  - by rewrite app_nil_r.
  - intros [Hc Hl1] Hl2. split; [done|]. apply IH; [done|].
    by rewrite <- app_assoc.
Qed.

Lemma requires_earlier_flat_map {A} (f : A → list Command) (xs : list A)
    (seen : list Command) :
  (∀ x seen', seen ⊆ seen' → requires_earlier seen' (f x)) →
  requires_earlier seen (flat_map f xs).
Proof.
  revert seen. induction xs as [|x xs IH]; intros seen Hf; simpl; [done|].
  apply requires_earlier_app; [by apply Hf|].
  apply IH. intros y seen' Hsub. apply Hf.
  intros z Hz. apply Hsub, elem_of_app. by left.
Qed.

Lemma requires_earlier_lookup (seen l : list Command) (i : nat)
    (c r : Command) :
  requires_earlier seen l → l !! i = Some c → r ∈ requires c →
  r ∈ seen ++ take i l.
Proof.
  revert seen i. induction l as [|d l IH]; intros seen i Hl Hi Hr; [done|].
  destruct Hl as [Hd Hl]. destruct i as [|i]; simpl in *.
  - injection Hi as ->. rewrite app_nil_r. by apply Hd.
  - specialize (IH _ _ Hl Hi Hr). by rewrite <- app_assoc in IH.
Qed.

Lemma blocks_requires_earlier (config : Config) :
  requires_earlier [] (blocks config).
Proof.
  unfold blocks.
  assert (requires_earlier [] (source_part config).1
          ∧ (source_part config).2 ⊆ (source_part config).1) as [Hsrc Hpre].
  { unfold source_part. destruct (from_source config); simpl.
    - split; [|set_solver]. repeat split; set_solver.
    - split; [|set_solver]. repeat split; set_solver. }
  destruct (source_part config) as [source preprocess_req]. simpl in *.
  unfold onnx_block.
  set (onnx_convert :=
         mkCommand ConvertSavedModel2ONNX None None None preprocess_req).
  apply requires_earlier_app; [done|]. simpl.
  assert (∀ seen, source ⊆ seen →
    requires_earlier seen
      ([onnx_convert]
       ++ flat_map (λ provider,
            [mkCommand CorrectnessTensorFlow2ONNX None None (Some provider)
               [onnx_convert];
             mkCommand PerformanceONNX None None (Some provider)
               [onnx_convert]])
            (onnx_runtimes config)
       ++ [mkCommand ConfigCli (Some ONNX) None None [onnx_convert]]))
    as Honnx.
  { intros seen Hseen. apply requires_earlier_app.
    - split; [|done]. intros r Hr. by apply Hseen, Hpre.
    - apply requires_earlier_app.
      + apply requires_earlier_flat_map. intros provider seen' Hsub.
        repeat split; intros r ->%list_elem_of_singleton;
          [apply Hsub | apply elem_of_app; left; apply Hsub]; set_solver.
      + split; [|done]. intros r ->%list_elem_of_singleton. set_solver. }
  assert (∀ seen, onnx_convert ∈ seen →
    requires_earlier seen
      (flat_map (trt_commands onnx_convert) (target_precisions config)))
    as Htrt.
  { intros seen Hseen. apply requires_earlier_flat_map.
    intros p seen' Hsub. unfold trt_commands.
    repeat split; intros r ->%list_elem_of_singleton; [by apply Hsub|..];
      set_solver. }
  assert (∀ seen, source ⊆ seen →
    requires_earlier seen
      (flat_map (tf_trt_commands preprocess_req) (target_precisions config)))
    as Htf.
  { intros seen Hseen. apply requires_earlier_flat_map.
    intros p seen' Hsub. unfold tf_trt_commands. repeat split.
    - intros r Hr. by apply Hsub, Hseen, Hpre.
    - intros r ->%list_elem_of_singleton. set_solver.
    - intros r ->%list_elem_of_singleton. set_solver.
    - intros r ->%list_elem_of_singleton. set_solver. }
  destruct (decide (TENSORRT ∈ target_formats config)) as [Ht|Ht];
    [rewrite (bool_decide_eq_true_2 _ Ht) | rewrite (bool_decide_eq_false_2 _ Ht)];
    (destruct (decide (ONNX ∈ target_formats config)) as [Ho|Ho];
     [rewrite (bool_decide_eq_true_2
                 (ONNX ∈ target_formats config
                  ∨ TENSORRT ∈ target_formats config)) by tauto
     | try rewrite (bool_decide_eq_true_2
                 (ONNX ∈ target_formats config
                  ∨ TENSORRT ∈ target_formats config)) by tauto;
       try rewrite (bool_decide_eq_false_2
                 (ONNX ∈ target_formats config
                  ∨ TENSORRT ∈ target_formats config)) by tauto]);
    (apply requires_earlier_app; [try done; apply Honnx; set_solver|]);
    (apply requires_earlier_app; [try done; apply Htrt; set_solver|]);
    (case_bool_decide; [apply Htf; set_solver | done]).
Qed.

(** X2: in the list the manager builds, every command that a command
    requires stands earlier in the list, so that the pipeline, which runs
    the list in order, never reaches a command before its requirements. *)
Theorem requirements_come_first (config : Config) (i : nat) (c r : Command) :
  commands (_get_pipeline config) !! i = Some c →
  r ∈ requires c →
  ∃ j, (j < i)%nat ∧ commands (_get_pipeline config) !! j = Some r.
Proof.
  rewrite get_pipeline_blocks. intros Hi Hr.
  pose proof (requires_earlier_lookup [] _ i c r
                (blocks_requires_earlier config) Hi Hr) as Hin.
  simpl in Hin. apply list_elem_of_lookup in Hin as [j Hj].
  apply lookup_take_Some in Hj as [Hj Hlt]. by exists j.
Qed.

Lemma requirements_come_first_witness :
  ∃ j, (j < 10)%nat
    ∧ commands (_get_pipeline
        {| from_source := true; target_formats := [TENSORRT];
           onnx_runtimes := []; target_precisions := ["fp16"%string] |})
      !! j
      = Some (mkCommand ConvertSavedModel2ONNX None None None
                (source_part
                   {| from_source := true; target_formats := [TENSORRT];
                      onnx_runtimes := [];
                      target_precisions := ["fp16"%string] |}).2).
Proof.
  eapply (requirements_come_first
            {| from_source := true; target_formats := [TENSORRT];
               onnx_runtimes := []; target_precisions := ["fp16"%string] |}
            10); [reflexivity | left].
Defined.

Lemma of_class_app (k : CommandClass) (l1 l2 : list Command) :
  of_class k (l1 ++ l2) = of_class k l1 ++ of_class k l2.
Proof. apply filter_app. Qed.

Lemma of_class_flat_map {A} (k : CommandClass) (f : A → list Command)
    (g : A → list Command) (xs : list A) :
  (∀ x, of_class k (f x) = g x) →
  of_class k (flat_map f xs) = flat_map g xs.
Proof.
  intros Hf. induction xs as [|x xs IH]; simpl; [done|].
  by rewrite of_class_app, Hf, IH.
Qed.

Lemma flat_map_singleton {A B} (g : A → B) (xs : list A) :
  flat_map (λ x, [g x]) xs = g <$> xs.
Proof. induction xs as [|x xs IH]; simpl; by rewrite ?IH. Qed.

Lemma flat_map_nil_ext {A B} (g : A → list B) (xs : list A) :
  (∀ x, g x = []) → flat_map g xs = [].
Proof. intros Hg. induction xs as [|x xs IH]; simpl; by rewrite ?Hg, ?IH. Qed.

Lemma flat_map_empty {A B} (xs : list A) :
  flat_map (λ _ : A, @nil B) xs = [].
Proof. induction xs as [|x xs IH]; simpl; by rewrite ?IH. Qed.

Lemma of_class_onnx_block (k : CommandClass) (config : Config)
    (preprocess_req : list Command) :
  k ∈ [CorrectnessTensorFlow2ONNX; PerformanceONNX; ConvertONNX2TRT;
       ConvertSavedModel2TFTRT] →
  of_class k (onnx_block config preprocess_req).2
  = flat_map (λ provider,
      of_class k
        [mkCommand CorrectnessTensorFlow2ONNX None None (Some provider)
           [(onnx_block config preprocess_req).1];
         mkCommand PerformanceONNX None None (Some provider)
           [(onnx_block config preprocess_req).1]])
      (onnx_runtimes config).
Proof.
  intros Hk. unfold onnx_block. cbn [fst snd].
  rewrite (of_class_app k [_]), of_class_app.
  rewrite (of_class_flat_map k _ _ _ (λ _, eq_refl)).
  repeat (apply elem_of_cons in Hk as [->|Hk]; [by rewrite app_nil_r|]).
  by apply elem_of_nil in Hk.
Qed.

(** What the four blocks hold of a class, for the classes of the ONNX,
    TensorRT and TF-TRT blocks. *)
Lemma of_class_blocks (k : CommandClass) (config : Config) :
  k ∈ [CorrectnessTensorFlow2ONNX; PerformanceONNX; ConvertONNX2TRT;
       ConvertSavedModel2TFTRT] →
  of_class k (blocks config)
  = (if bool_decide (ONNX ∈ target_formats config
                     ∨ TENSORRT ∈ target_formats config)
     then flat_map (λ provider,
            of_class k
              [mkCommand CorrectnessTensorFlow2ONNX None None (Some provider)
                 [mkCommand ConvertSavedModel2ONNX None None None
                    (source_part config).2];
               mkCommand PerformanceONNX None None (Some provider)
                 [mkCommand ConvertSavedModel2ONNX None None None
                    (source_part config).2]])
            (onnx_runtimes config)
     else [])
    ++ (if bool_decide (TENSORRT ∈ target_formats config)
        then flat_map (λ p,
               of_class k
                 (trt_commands
                    (mkCommand ConvertSavedModel2ONNX None None None
                       (source_part config).2) p))
               (target_precisions config)
        else [])
    ++ (if bool_decide (TF_TRT ∈ target_formats config)
        then flat_map (λ p,
               of_class k (tf_trt_commands (source_part config).2 p))
               (target_precisions config)
        else []).
Proof.
  intros Hk. unfold blocks.
  assert (of_class k (source_part config).1 = []) as Hsrc.
  { unfold source_part.
    destruct (from_source config);
      repeat (apply elem_of_cons in Hk as [->|Hk]; [reflexivity|]);
      by apply elem_of_nil in Hk. }
  destruct (source_part config) as [source preprocess_req].
  cbn [fst snd] in *.
  pose proof (of_class_onnx_block k config preprocess_req Hk) as Honnx.
  destruct (onnx_block config preprocess_req) as [onnx_convert onnx] eqn:Hob.
  assert (onnx_convert
          = mkCommand ConvertSavedModel2ONNX None None None preprocess_req)
    as -> by (unfold onnx_block in Hob; by injection Hob).
  cbn [fst snd] in Honnx.
  rewrite !of_class_app, Hsrc. cbn [app].
  f_equal; [|f_equal]; case_bool_decide; try done;
    first [exact Honnx | by apply of_class_flat_map].
Qed.

(** X3: the ONNX correctness and performance commands stand in the list
    once per ONNX runtime, in the order of the runtimes, whenever ONNX or
    TensorRT is requested: requesting TensorRT alone brings them in, and
    requesting both does not double them; when neither is requested there
    are none.  Each requires the ONNX conversion. *)
Theorem onnx_checks_once_per_runtime (config : Config) :
  let onnx_convert :=
    mkCommand ConvertSavedModel2ONNX None None None (source_part config).2 in
  of_class CorrectnessTensorFlow2ONNX (commands (_get_pipeline config))
  = (if bool_decide (ONNX ∈ target_formats config
                     ∨ TENSORRT ∈ target_formats config)
     then (λ provider,
             mkCommand CorrectnessTensorFlow2ONNX None None (Some provider)
               [onnx_convert]) <$> onnx_runtimes config
     else [])
  ∧ of_class PerformanceONNX (commands (_get_pipeline config))
    = (if bool_decide (ONNX ∈ target_formats config
                       ∨ TENSORRT ∈ target_formats config)
       then (λ provider,
               mkCommand PerformanceONNX None None (Some provider)
                 [onnx_convert]) <$> onnx_runtimes config
       else []).
Proof.
  cbn zeta. rewrite get_pipeline_blocks.
  rewrite !of_class_blocks by set_solver.
  split.
  - rewrite (flat_map_empty (A := string) (B := Command)
               (target_precisions config) : flat_map (λ p,
                 of_class CorrectnessTensorFlow2ONNX (trt_commands _ p)) _ = []).
    rewrite (flat_map_empty (A := string) (B := Command)
               (target_precisions config) : flat_map (λ p,
                 of_class CorrectnessTensorFlow2ONNX (tf_trt_commands _ p)) _
               = []).
    repeat case_bool_decide; rewrite ?app_nil_r; try done;
      apply (flat_map_singleton
               (λ provider, mkCommand CorrectnessTensorFlow2ONNX None None
                              (Some provider) [_])).
  - rewrite (flat_map_empty (A := string) (B := Command)
               (target_precisions config) : flat_map (λ p,
                 of_class PerformanceONNX (trt_commands _ p)) _ = []).
    rewrite (flat_map_empty (A := string) (B := Command)
               (target_precisions config) : flat_map (λ p,
                 of_class PerformanceONNX (tf_trt_commands _ p)) _ = []).
    repeat case_bool_decide; rewrite ?app_nil_r; try done;
      apply (flat_map_singleton
               (λ provider, mkCommand PerformanceONNX None None
                              (Some provider) [_])).
Qed.

(** X4: there is one TensorRT conversion per target precision, in the
    order of the precisions, exactly when TensorRT is requested, each
    requiring the ONNX conversion; and one TF-TRT conversion per target
    precision exactly when TF-TRT is requested, each requiring what the
    source provides.  A format that is not requested contributes no
    conversion. *)
Theorem conversions_once_per_precision (config : Config) :
  of_class ConvertONNX2TRT (commands (_get_pipeline config))
  = (if bool_decide (TENSORRT ∈ target_formats config)
     then (λ p, mkCommand ConvertONNX2TRT None (Some p) None
                  [mkCommand ConvertSavedModel2ONNX None None None
                     (source_part config).2])
          <$> target_precisions config
     else [])
  ∧ of_class ConvertSavedModel2TFTRT (commands (_get_pipeline config))
    = (if bool_decide (TF_TRT ∈ target_formats config)
       then (λ p, mkCommand ConvertSavedModel2TFTRT None (Some p) None
                    (source_part config).2)
            <$> target_precisions config
       else []).
Proof.
  rewrite get_pipeline_blocks.
  rewrite !of_class_blocks by set_solver.
  split.
  - rewrite (flat_map_nil_ext _ (onnx_runtimes config)) by done.
    rewrite (flat_map_empty (A := string) (B := Command)
               (target_precisions config) : flat_map (λ p,
                 of_class ConvertONNX2TRT (tf_trt_commands _ p)) _ = []).
    repeat case_bool_decide; rewrite ?app_nil_r; try done;
      apply (flat_map_singleton
               (λ p, mkCommand ConvertONNX2TRT None (Some p) None [_])).
  - rewrite (flat_map_nil_ext _ (onnx_runtimes config)) by done.
    rewrite (flat_map_empty (A := string) (B := Command)
               (target_precisions config) : flat_map (λ p,
                 of_class ConvertSavedModel2TFTRT (trt_commands _ p)) _ = []).
    repeat case_bool_decide; rewrite ?app_nil_r; try done;
      apply (flat_map_singleton
               (λ p, mkCommand ConvertSavedModel2TFTRT None (Some p) None _)).
Qed.

Lemma flat_map_length_const {A B} (f : A → list B) (n : nat) (xs : list A) :
  (∀ x, length (f x) = n) → length (flat_map f xs) = (n * length xs)%nat.
Proof.
  intros Hf. induction xs as [|x xs IH]; simpl; [lia|].
  rewrite length_app, Hf, IH. lia.
Qed.

(** X5: the number of commands of the list: 9 from a source model or 2
    from a loaded one, then 2 and 2 per ONNX runtime when ONNX or TensorRT
    is requested, 4 per target precision when TensorRT is requested, and 4
    per target precision when TF-TRT is requested. *)
Theorem get_pipeline_length (config : Config) :
  length (commands (_get_pipeline config))
  = ((if from_source config then 9 else 2)
     + (if bool_decide (ONNX ∈ target_formats config
                        ∨ TENSORRT ∈ target_formats config)
        then 2 + 2 * length (onnx_runtimes config) else 0)
     + (if bool_decide (TENSORRT ∈ target_formats config)
        then 4 * length (target_precisions config) else 0)
     + (if bool_decide (TF_TRT ∈ target_formats config)
        then 4 * length (target_precisions config) else 0))%nat.
Proof.
  rewrite get_pipeline_blocks. unfold blocks.
  assert (length (source_part config).1
          = if from_source config then 9%nat else 2%nat) as Hsrc.
  { unfold source_part. by destruct (from_source config). }
  destruct (source_part config) as [source preprocess_req].
  cbn [fst] in Hsrc. unfold onnx_block.
  rewrite !length_app, Hsrc.
  assert (∀ l, length (if bool_decide (ONNX ∈ target_formats config
                                       ∨ TENSORRT ∈ target_formats config)
                       then l else [])
               = if bool_decide (ONNX ∈ target_formats config
                                 ∨ TENSORRT ∈ target_formats config)
                 then length l else 0%nat) as -> by (intros; by case_bool_decide).
  rewrite !length_app.
  rewrite (flat_map_length_const _ 2) by done. simpl length.
  do 2 (case_bool_decide;
        rewrite ?(flat_map_length_const _ 4) by done; simpl length; [|]);
    case_bool_decide; rewrite ?(flat_map_length_const _ 4) by done;
    simpl length; lia.
Qed.

End TFBlocksFacts.

(** ** The namespace of [Pipeline.__call__], whatever the commands do *)

Section PipelineNamespace.
Import PipelineRun.
Context {Value : Type}.
Variable transform :
  Command Value → gmap nat Status → gmap string (option Value)
  → Res (CommandResults Value * gmap nat Status).

Lemma step_appends_results (config : gmap string (option Value))
    (command : Command Value) (st st' : LoopState Value) :
  step transform config command st = Ok st' →
  ∃ results, commands_results st' = commands_results st ++ [results]
    ∧ (∀ key, output_name command = Some key →
         additional_params st' !! key = Some (output results)).
Proof.
  unfold step. intros Hstep.
  destruct (transform command (statuses st) (namespace config st))
    as [[results statuses']|e]; [|done].
  simpl in Hstep. injection Hstep as <-. simpl.
  exists results. split; [done|]. intros key ->. by rewrite lookup_insert_eq.
Qed.

Lemma loop_appends_results (config : gmap string (option Value))
    (commands : list (Command Value)) (st st' : LoopState Value) :
  loop transform config commands st = Ok st' →
  ∃ rs, commands_results st' = commands_results st ++ rs
    ∧ length rs = length commands.
Proof.
  revert st. induction commands as [|command commands IH]; intros st; simpl.
  - intros [= <-]. exists []. by rewrite app_nil_r.
  - destruct (step transform config command st) as [st1|e] eqn:Hstep; [|done].
    simpl. intros (rs & -> & Hlen)%IH.
    destruct (step_appends_results _ _ _ _ Hstep) as (r & -> & _).
    exists (r :: rs). rewrite <- app_assoc. split; [done|]. simpl. lia.
Qed.

(** X6: a call that returns holds exactly one result per command of the
    pipeline, whatever the commands' statuses: a failed or skipped command
    neither ends the loop nor is left out of the results. *)
Theorem pipeline_call_one_result_per_command
    (commands : list (Command Value)) (config : gmap string (option Value))
    (results : list (CommandResults Value)) :
  Pipeline_call transform commands config = Ok results →
  length results = length commands.
Proof.
  unfold Pipeline_call.
  destruct (loop transform config commands initial) as [st|e] eqn:Hloop;
    [|done].
  simpl. intros [= <-].
  by destruct (loop_appends_results _ _ _ _ Hloop) as (rs & -> & <-).
Qed.

(** X7: when several commands declare the same output name, or the
    configuration has an entry of that name, the later commands see the
    output of the last command that declared it: a command's output is
    bound to its declared name as soon as it has run and stays so until a
    later command declares the same name. *)
Theorem last_producer_wins
    (config : gmap string (option Value))
    (earlier later : list (Command Value)) (command : Command Value)
    (key : string) (st : LoopState Value) :
  loop transform config (earlier ++ command :: later) initial = Ok st →
  output_name command = Some key →
  Forall (λ c, output_name c ≠ Some key) later →
  ∃ results,
    commands_results st !! length earlier = Some results
    ∧ namespace config st !! key = Some (output results).
Proof.
  intros Hloop Hkey Hlater.
  assert (∀ cmds1 cmds2 s s',
            loop transform config (cmds1 ++ cmds2) s = Ok s' →
            ∃ s1, loop transform config cmds1 s = Ok s1
                  ∧ loop transform config cmds2 s1 = Ok s') as Hsplit.
  { induction cmds1 as [|c cmds1 IH]; intros cmds2 s s'; simpl.
    - intros Hl. by exists s.
    - destruct (step transform config c s) as [s1|e]; [|done]. simpl.
      apply IH. }
  destruct (Hsplit _ _ _ _ Hloop) as (s1 & Hearlier & Hrest).
  simpl in Hrest.
  destruct (step transform config command s1) as [s2|e] eqn:Hstep; [|done].
  simpl in Hrest.
  destruct (loop_appends_results _ _ _ _ Hearlier) as (rs1 & Hrs1 & Hlen1).
  destruct (step_appends_results _ _ _ _ Hstep) as (results & Hrs2 & Hbound).
  destruct (loop_appends_results _ _ _ _ Hrest) as (rs3 & Hrs3 & _).
  destruct (loop_keeps_keys transform _ _ _ _ key Hrest) as [_ Hsame].
  exists results. split.
  - rewrite Hrs3, Hrs2, Hrs1. simpl.
    rewrite lookup_app_l by (rewrite length_app; simpl; lia).
    rewrite lookup_app_r by lia. by rewrite Hlen1, Nat.sub_diag.
  - unfold namespace. apply lookup_union_Some_l.
    rewrite Hsame by done. by apply Hbound.
Qed.

(** X8: an entry of the configuration reaches every command unchanged as
    long as no command that ran before declares its name as output. *)
Theorem config_entry_passes_through
    (config : gmap string (option Value))
    (commands : list (Command Value)) (key : string) (st : LoopState Value) :
  loop transform config commands initial = Ok st →
  Forall (λ c, output_name c ≠ Some key) commands →
  namespace config st !! key = config !! key.
Proof.
  intros Hloop Hfresh.
  destruct (loop_keeps_keys transform _ _ _ _ key Hloop) as [_ Hsame].
  unfold namespace. rewrite lookup_union_r; [done|].
  rewrite Hsame by done. apply lookup_empty.
Qed.

End PipelineNamespace.

Section PipelineNamespaceExamples.
Import PipelineRun.

Lemma pipeline_call_one_result_per_command_witness :
  length [{| status := FAIL; output := None |};
          {| status := SKIPPED; output := @None string |}]
  = length [failing_export; dependent_convert].
Proof.
  apply (pipeline_call_one_result_per_command Command_transform
           [failing_export; dependent_convert] ∅).
  reflexivity.
Defined.

Lemma last_producer_wins_witness :
  ∃ results,
    commands_results
      {| additional_params :=
           <["converted"%string := None]> {["exported"%string := None]};
         commands_results :=
           [{| status := FAIL; output := None |};
            {| status := SKIPPED; output := @None string |}];
         statuses := <[1%nat := SKIPPED]> {[0%nat := FAIL]} |}
    !! length [failing_export] = Some results
    ∧ namespace ∅
        {| additional_params :=
             <["converted"%string := None]> {["exported"%string := None]};
           commands_results :=
             [{| status := FAIL; output := None |};
              {| status := SKIPPED; output := None |}];
           statuses := <[1%nat := SKIPPED]> {[0%nat := FAIL]} |}
      !! "converted"%string = Some (output results).
Proof.
  apply (last_producer_wins Command_transform ∅ [failing_export] []
           dependent_convert "converted");
    [reflexivity | reflexivity | constructor].
Defined.

Lemma config_entry_passes_through_witness :
  namespace {["verbose"%string := Some "true"%string]}
    {| additional_params :=
         <["converted"%string := None]> {["exported"%string := None]};
       commands_results :=
         [{| status := FAIL; output := None |};
          {| status := SKIPPED; output := None |}];
       statuses := <[1%nat := SKIPPED]> {[0%nat := FAIL]} |}
    !! "verbose"%string
  = ({["verbose"%string := Some "true"%string]}
       : gmap string (option string)) !! "verbose"%string.
Proof.
  apply (config_entry_passes_through Command_transform
           {["verbose"%string := Some "true"%string]}
           [failing_export; dependent_convert] "verbose").
  - reflexivity.
  - by repeat constructor.
Defined.

End PipelineNamespaceExamples.

(** ** What the update of the user's dynamic axes keeps and how it fails *)

Section UserDynamicAxesMore.

Lemma updated_spec (m m' : gmap string TensorSpec) (name : string)
    (spec : TensorSpec) :
  updated m m' →
  m !! name = Some spec →
  ∃ spec', m' !! name = Some spec'
    ∧ dtype spec' = dtype spec
    ∧ length (shape spec') = length (shape spec)
    ∧ ∀ j, shape spec' !! j = shape spec !! j
           ∨ shape spec' !! j = Some (-1).
Proof.
  intros Hup Hspec. induction Hup as [|m' n a s sh Hup IH Hs Hset].
  - exists spec. repeat (split; [done|]). by left.
  - destruct IH as (s' & Hs' & Hdt & Hlen & Hpos).
    apply set_dynamic_inv in Hset as (Hlen2 & _ & Hout).
    destruct (decide (n = name)) as [->|Hne].
    + rewrite lookup_insert_eq. rewrite Hs in Hs'. injection Hs' as ->.
      eexists. split; [done|]. simpl. repeat (split; [congruence|]).
      intros j. destruct (Hout j) as [->|[-> _]]; [apply Hpos|by right].
    + rewrite lookup_insert_ne by done. by exists s'.
Qed.

Lemma update_frame (dynamic_axes : list (string * list Z))
    (m : gmap string TensorSpec) (name : string) :
  name ∉ dynamic_axes.*1 →
  (_update_user_dynamic_axes_inplace dynamic_axes m).1 !! name = m !! name.
Proof.
  revert m. induction dynamic_axes as [|[n a] rest IH]; intros m Hn; [done|].
  rewrite fmap_cons in Hn. apply not_elem_of_cons in Hn as [Hne Hn]. simpl.
  destruct (m !! n) as [s|]; [|done].
  destruct (set_dynamic (shape s) a) as [sh|e]; [|done].
  destruct (verify_axes n a 0 (shape s)); simpl.
  - rewrite IH by done. by rewrite lookup_insert_ne.
  - by rewrite lookup_insert_ne.
Qed.

(** X11: however the call ends, the metadata it leaves has the same tensors
    as before; a tensor keeps its dtype and its rank, and each of its axes
    is either what it was or the wildcard, so that no wildcard is ever
    turned back into a size; a tensor that [dynamic_axes] does not name is
    left exactly as it was. *)
Theorem update_keeps_tensors (dynamic_axes : list (string * list Z))
    (m : gmap string TensorSpec) (name : string) :
  match m !! name with
  | None =>
      (_update_user_dynamic_axes_inplace dynamic_axes m).1 !! name = None
  | Some spec =>
      ∃ spec',
        (_update_user_dynamic_axes_inplace dynamic_axes m).1 !! name
        = Some spec'
        ∧ dtype spec' = dtype spec
        ∧ length (shape spec') = length (shape spec)
        ∧ (∀ j, shape spec' !! j = shape spec !! j
                ∨ shape spec' !! j = Some (-1))
        ∧ (name ∉ dynamic_axes.*1 → spec' = spec)
  end.
Proof.
  pose proof (update_updated dynamic_axes m) as Hup.
  destruct (m !! name) as [spec|] eqn:Hspec.
  - destruct (updated_spec _ _ name spec Hup Hspec)
      as (spec' & Hspec' & Hdt & Hlen & Hpos).
    exists spec'. repeat (split; [done|]).
    intros Hn. rewrite update_frame, Hspec in Hspec' by done.
    by injection Hspec'.
  - pose proof (updated_keeps _ _ name Hup) as Hkeep. by rewrite Hspec in Hkeep.
Qed.

(** X12: a negative axis index is accepted by the update, which sets the
    axis counted from the end, but not by the verification, which looks for
    the position itself among the declared indices.  So once the call has
    written such an axis, a second call on the same metadata raises the
    validation error for that tensor: the metadata is the same after one
    call and after two, the way the call ends is not. *)
Theorem negative_axis_second_call_raises
    (name : string) (axes : list Z) (rest : list (string * list Z))
    (m : gmap string TensorSpec) (spec : TensorSpec) (ax : Z) :
  m !! name = Some spec →
  (∀ a, a ∈ axes → valid_index (length (shape spec)) a) →
  ax ∈ axes →
  Z.of_nat (position (length (shape spec)) ax) ∉ axes →
  ∃ j0 : nat,
    (_update_user_dynamic_axes_inplace ((name, axes) :: rest)
       (_update_user_dynamic_axes_inplace ((name, axes) :: rest) m).1).2
    = Raise (ValueError (not_dynamic_msg name (Z.of_nat j0))).
Proof.
  intros Hspec Hvalid Hax Hpos.
  destruct (set_dynamic_ok axes (shape spec) Hvalid) as [sh Hset].
  set (m' := <[name := mkTensorSpec name sh (dtype spec)]> m).
  assert (updated m'
            (_update_user_dynamic_axes_inplace ((name, axes) :: rest) m).1)
    as Hup.
  { simpl. rewrite Hspec, Hset.
    destruct (verify_axes name axes 0 (shape spec)); simpl;
      [apply update_updated | constructor]. }
  pose proof (updated_keeps _ _ name Hup) as Hkeep.
  unfold m' in Hkeep. rewrite lookup_insert_eq in Hkeep.
  destruct Hkeep as (s2 & Hs2 & Hlen & Hwild). simpl in Hlen, Hwild.
  pose proof Hset as (Hlen0 & Hin0 & _)%set_dynamic_inv.
  destruct (Hin0 ax Hax) as [_ Hw]. apply Hwild in Hw.
  simpl. cbn [_update_user_dynamic_axes_inplace] in Hs2 |- *.
  simpl in Hs2. rewrite Hs2.
  destruct (set_dynamic_ok axes (shape s2)) as [sh2 ->].
  { intros a Ha. rewrite Hlen, Hlen0. by apply Hvalid. }
  destruct (verify_axes name axes 0 (shape s2)) as [[]|e] eqn:Hver.
  - exfalso. apply Hpos.
    pose proof (proj1 (verify_axes_ok _ _ _ _) Hver _ Hw) as Hin.
    by rewrite Z.add_0_l in Hin.
  - apply verify_axes_raise in Hver as (j0 & _ & _ & -> & _).
    exists j0. by rewrite Z.add_0_l.
Qed.

Lemma negative_axis_second_call_raises_witness :
  ∃ j0 : nat,
    (_update_user_dynamic_axes_inplace [("input__0"%string, [-1])]
       (_update_user_dynamic_axes_inplace [("input__0"%string, [-1])]
          one_input).1).2
    = Raise (ValueError (not_dynamic_msg "input__0" (Z.of_nat j0))).
Proof.
  apply (negative_axis_second_call_raises "input__0" [-1] [] one_input
           (mkTensorSpec "input__0" [3; 4] "float32") (-1)).
  - reflexivity.
  - intros a ->%list_elem_of_singleton. unfold valid_index. simpl. lia.
  - left.
  - by intros [=]%list_elem_of_singleton.
Defined.

(** X13: an axis index that is out of range for the tensor's rank makes
    the call raise [IndexError] when the loop reaches the tensor, and the
    tensor is left as it was: the shape is written back only after all of
    its declared axes have been set. *)
Theorem out_of_range_axis_raises
    (before after : list (string * list Z)) (name : string) (axes : list Z)
    (m : gmap string TensorSpec) (spec : TensorSpec) (ax : Z) :
  unique_names (before ++ [(name, axes)]) →
  Forall (applies_cleanly m) before →
  m !! name = Some spec →
  ax ∈ axes →
  ¬ valid_index (length (shape spec)) ax →
  (_update_user_dynamic_axes_inplace (before ++ (name, axes) :: after) m).2
  = Raise IndexError
  ∧ (_update_user_dynamic_axes_inplace (before ++ (name, axes) :: after) m).1
    !! name = Some spec.
Proof.
  revert m. induction before as [|[n a] before IH];
    intros m Huniq Hclean Hspec Hax Hbad.
  - simpl. rewrite Hspec.
    destruct (set_dynamic (shape spec) axes) as [sh|e] eqn:Hset.
    + exfalso. apply Hbad. by apply (set_dynamic_inv axes (shape spec) sh Hset).
    + apply set_dynamic_raise in Hset as [-> _]. done.
  - unfold unique_names in Huniq. simpl in Huniq.
    apply NoDup_cons in Huniq as [Hfresh Huniq].
    apply Forall_cons in Hclean as [Hhead Hclean].
    destruct (update_step_clean m n a (before ++ (name, axes) :: after)
                Hhead) as (s & shape' & _ & _ & Hstep).
    rewrite <- app_comm_cons, Hstep.
    rewrite fmap_app in Hfresh. apply not_elem_of_app in Hfresh as [Hnb Hnn].
    apply IH; try done.
    + apply Forall_forall. intros e He.
      apply applies_cleanly_insert_ne.
      * intros ->. apply Hnb. apply list_elem_of_fmap. by exists e.
      * by eapply Forall_forall in Hclean.
    + rewrite lookup_insert_ne; [done|]. intros ->. apply Hnn. left.
Qed.

Lemma out_of_range_axis_raises_witness :
  (_update_user_dynamic_axes_inplace
     (second_only ++ [("input__0"%string, [0; 2])]) two_inputs).2
  = Raise IndexError
  ∧ (_update_user_dynamic_axes_inplace
       (second_only ++ [("input__0"%string, [0; 2])]) two_inputs).1
    !! "input__0"%string
    = Some (mkTensorSpec "input__0" [-1; 3] "float32").
Proof.
  apply (out_of_range_axis_raises second_only [] "input__0" [0; 2] two_inputs
           (mkTensorSpec "input__0" [-1; 3] "float32") 2).
  - by apply (bool_decide_unpack _).
  - apply Forall_singleton.
    exists (mkTensorSpec "input__1" [-1; 5] "float32").
    split; [reflexivity|]. split.
    + intros a ->%list_elem_of_singleton. unfold valid_index. simpl. lia.
    + intros [|[|j]] Hj; try done. left.
  - reflexivity.
  - right. left.
  - unfold valid_index. simpl. lia.
Defined.

Lemma user_axes_forced_witness :
  ∃ metadata',
    _update_user_dynamic_axes_inplace [("input__0"%string, [0])] one_input
    = (metadata', Ok ())
    ∧ (∀ name, name ∉ [("input__0"%string, [0])].*1 →
         metadata' !! name = one_input !! name)
    ∧ ∀ name axes ax, (name, axes) ∈ [("input__0"%string, [0])] → ax ∈ axes →
        ∃ spec spec', one_input !! name = Some spec
          ∧ metadata' !! name = Some spec'
          ∧ shape spec' !! position (length (shape spec)) ax = Some (-1).
Proof.
  apply user_axes_forced.
  - apply NoDup_singleton.
  - apply Forall_singleton.
    exists (mkTensorSpec "input__0" [3; 4] "float32").
    split; [reflexivity|]. split.
    + intros a ->%list_elem_of_singleton. unfold valid_index. simpl. lia.
    + by intros [|[|j]] Hj.
Defined.

Lemma update_keeps_tensors_witness :
  ∃ spec',
    (_update_user_dynamic_axes_inplace second_only two_inputs).1
    !! "input__0"%string = Some spec'
    ∧ dtype spec' = "float32"%string
    ∧ length (shape spec') = 2%nat
    ∧ (∀ j, shape spec' !! j = [-1; 3] !! j ∨ shape spec' !! j = Some (-1))
    ∧ ("input__0"%string ∉ second_only.*1
       → spec' = mkTensorSpec "input__0" [-1; 3] "float32").
Proof.
  exact (update_keeps_tensors second_only two_inputs "input__0").
Defined.

End UserDynamicAxesMore.

(** ** When the profile derivation returns, and the order of its entries *)

Section TrtProfileMore.

Lemma trt_axis_entry_empty (batch_dim : option Z) (ax : Z) :
  is_ok (trt_axis_entry batch_dim ax []) = false.
Proof. unfold trt_axis_entry. by destruct (decide (Some ax = batch_dim)). Qed.

Lemma trt_axes_loop_inv (batch_dim : option Z) (axes : Axes)
    (acc l : list (Z * Z * Z)) :
  trt_axes_loop batch_dim axes acc = Ok l →
  length l = (length acc + length axes)%nat
  ∧ ∀ ax shapes, (ax, shapes) ∈ axes → shapes ≠ [].
Proof.
  revert acc. induction axes as [|[ax shapes] axes IH]; intros acc; simpl.
  - intros [= <-]. split; [lia|]. intros ?? Hin. by apply elem_of_nil in Hin.
  - destruct (trt_axis_entry batch_dim ax shapes) as [t|e] eqn:Ht; [|done].
    simpl. intros [Hlen Hne]%IH. rewrite length_app in Hlen. simpl in Hlen.
    split; [lia|].
    intros a s [[= -> ->]|Hin]%elem_of_cons; [|by eapply Hne].
    intros ->. pose proof (trt_axis_entry_empty batch_dim ax) as Hempty.
    by rewrite Ht in Hempty.
Qed.

Lemma trt_profile_loop_total (batch_dim : option Z)
    (axes_shapes : AxesShapes) (p0 : gmap string ShapeTuple) :
  observed axes_shapes →
  is_ok (trt_profile_loop batch_dim axes_shapes p0) = true.
Proof.
  revert p0. induction axes_shapes as [|[name axes] rest IH];
    intros p0 Hobs; [done|].
  destruct (Hobs name axes) as [Haxes Hbuckets]; [left|].
  destruct (trt_axes_loop_ok batch_dim axes [] Hbuckets) as (l & Hl & Hall).
  simpl in Hl |- *. rewrite Hl. simpl.
  destruct l as [|t l].
  { apply Forall2_nil_inv_r in Hall. done. }
  apply IH. intros ?? Hin. eapply Hobs. right. exact Hin.
Qed.

Lemma trt_profile_loop_observed (batch_dim : option Z)
    (axes_shapes : AxesShapes) (p0 : gmap string ShapeTuple) :
  is_ok (trt_profile_loop batch_dim axes_shapes p0) = true →
  observed axes_shapes.
Proof.
  revert p0. induction axes_shapes as [|[name axes] rest IH]; intros p0.
  - intros _ ?? Hin. by apply elem_of_nil in Hin.
  - simpl.
    destruct (trt_axes_loop batch_dim axes []) as [l|e] eqn:Hl; [|done].
    apply trt_axes_loop_inv in Hl as [Hlen Hne]. simpl in Hlen |- *.
    destruct l as [|t l]; [done|].
    intros Hrest%IH n a [[= -> ->]|Hin]%elem_of_cons;
      [|by apply (Hrest n a)].
    split; [|done]. intros ->. simpl in Hlen. lia.
Qed.

(** X14: the profile derivation returns a profile exactly when every
    tensor of the mapping has at least one axis and every bucket at least
    one observed size; a scalar tensor or an empty bucket anywhere in the
    mapping makes it raise, whatever the batch dimension. *)
Theorem trt_profile_returns_iff_observed
    (axes_shapes : AxesShapes) (batch_dim : option Z) :
  is_ok (_get_trt_profile_from_axes_shapes axes_shapes batch_dim) = true
  ↔ observed axes_shapes.
Proof.
  split; [apply trt_profile_loop_observed | apply trt_profile_loop_total].
Qed.

Lemma quot_two_between (s lo hi : Z) :
  2 * lo ≤ s ≤ 2 * hi → lo ≤ Z.quot s 2 ≤ hi.
Proof.
  intros Hs. pose proof (Z.quot_rem' s 2) as Hqr.
  destruct (Z_le_gt_dec 0 s) as [Hpos|Hneg].
  - pose proof (Z.rem_bound_pos s 2 Hpos ltac:(lia)). lia.
  - pose proof (Z.rem_bound_abs s 2 ltac:(lia)).
    pose proof (Z.rem_nonpos s 2 ltac:(lia) ltac:(lia)). lia.
Qed.

(** The median converted by [int( )] lies between the minimum and the
    maximum of the observed sizes. *)
Lemma int_median_between (shapes : list Z) (o mn mx : Z) :
  opt_is_int_median shapes o →
  is_minimum shapes mn → is_maximum shapes mx →
  mn ≤ o ≤ mx.
Proof.
  intros (q & Hq & ->) [_ Hlow] [_ Hup].
  unfold statistical_median in Hq. rewrite sort_length in Hq.
  destruct (length shapes) as [|n] eqn:Hlen; [done|].
  assert (∀ i, (i < S n)%nat →
            mn ≤ nth i (Np.sort shapes) 0 ≤ mx) as Hnth.
  { intros i Hi. rewrite <- Hlen in Hi. apply nth_sort_elem in Hi.
    split; [by apply Hlow | by apply Hup]. }
  pose proof (Nat.div_lt (S n) 2 ltac:(lia) ltac:(lia)) as Hhalf.
  destruct (Nat.even (S n)); injection Hq as <-; cbn [Qnum Qden inject_Z].
  - pose proof (Hnth (S n / 2 - 1)%nat ltac:(lia)).
    pose proof (Hnth (S n / 2)%nat Hhalf).
    apply quot_two_between. simpl in *. lia.
  - rewrite Z.quot_1_r. by apply Hnth.
Qed.

(** X15: in the profile that the derivation returns, every axis of every
    tensor has min <= opt <= max, the shape order that a TensorRT profile
    needs, provided the sizes are at most [2 ^ 52] in magnitude (beyond
    [2 ^ 53] the double arithmetic of the median can round opt below min,
    see [trt_profile_opt_rounded]) and the sizes observed on the batch axis
    are at least 1 (the min of the batch axis is 1 whatever was
    observed). *)
Theorem trt_profile_ordered
    (axes_shapes : AxesShapes) (batch_dim : option Z) :
  unique_names axes_shapes →
  observed axes_shapes →
  exact_sizes axes_shapes →
  (∀ name axes ax shapes x,
     (name, axes) ∈ axes_shapes → (ax, shapes) ∈ axes →
     Some ax = batch_dim → x ∈ shapes → 1 ≤ x) →
  ∃ profile,
    _get_trt_profile_from_axes_shapes axes_shapes batch_dim = Ok profile
    ∧ ∀ name st (j : nat) mn o mx,
        profile !! name = Some st →
        min st !! j = Some mn → opt st !! j = Some o →
        max st !! j = Some mx →
        mn ≤ o ≤ mx.
Proof.
  intros Huniq Hobs Hexact Hbatch.
  destruct (trt_profile_loop_exact batch_dim axes_shapes Huniq Hobs Hexact)
    as (p & Hp & Hframe & Hderived).
  exists p. split; [exact Hp|].
  intros name st j mn o mx Hst Hmn Ho Hmx.
  destruct (decide (name ∈ axes_shapes.*1)) as [Hin|Hout].
  2:{ by rewrite Hframe in Hst by done. }
  apply list_elem_of_fmap in Hin as ([n axes] & -> & Hin). simpl in Hst.
  destruct (Hderived n axes Hin) as (st' & Hst' & Hlmin & _ & _ & Hentries).
  rewrite Hst in Hst'. injection Hst' as <-.
  destruct (lookup_lt_is_Some_2 axes j) as [[ax shapes] Haxis].
  { rewrite <- Hlmin. by eapply lookup_lt_Some. }
  destruct (Hentries j _ Haxis) as (mn' & o' & mx' & Hmn' & Ho' & Hmx' & Hentry).
  rewrite Hmn in Hmn'. rewrite Ho in Ho'. rewrite Hmx in Hmx'.
  injection Hmn' as <-. injection Ho' as <-. injection Hmx' as <-.
  destruct Hentry as (Hmin & Hopt & Hmax). simpl in *.
  destruct (py_min_ok shapes) as (lo & _ & Hlo).
  { eapply Hobs; [exact Hin|]. eapply list_elem_of_lookup_2. exact Haxis. }
  pose proof (int_median_between shapes o lo mx Hopt Hlo Hmax) as Hbetween.
  destruct (decide (Some ax = batch_dim)) as [Hb|Hb].
  - subst mn. split; [|lia].
    assert (1 ≤ lo).
    { destruct Hlo as [Hlo_in _]. eapply Hbatch; [exact Hin| |exact Hb|exact Hlo_in].
      eapply list_elem_of_lookup_2. exact Haxis. }
    lia.
  - destruct Hmin as [Hmn_in Hmn_low]. destruct Hlo as [Hlo_in Hlo_low].
    specialize (Hmn_low lo Hlo_in). specialize (Hlo_low mn Hmn_in). lia.
Qed.

Lemma trt_profile_ordered_witness :
  ∃ profile,
    _get_trt_profile_from_axes_shapes two_batches (Some 0) = Ok profile
    ∧ ∀ name st (j : nat) mn o mx,
        profile !! name = Some st →
        min st !! j = Some mn → opt st !! j = Some o →
        max st !! j = Some mx →
        mn ≤ o ≤ mx.
Proof.
  apply trt_profile_ordered;
    [apply two_batches_observed..|apply two_batches_exact|].
  intros name axes ax shapes x [= -> ->]%list_elem_of_singleton
    [= -> ->]%list_elem_of_singleton _ Hx%list_elem_of_In.
  simpl in Hx. lia.
Defined.

End TrtProfileMore.


(** ** When the metadata derivation returns and what it stores *)

Section MetadataMore.

Lemma metadata_axis_entry_returns (batch_dim : option Z) (ax : Z)
    (shapes : list Z) :
  is_ok (metadata_axis_entry batch_dim ax shapes) = true
  ↔ Some ax = batch_dim ∨ shapes ≠ [].
Proof.
  unfold metadata_axis_entry.
  destruct (decide (Some ax = batch_dim)) as [Hb|Hb]; [by split; [left|]|].
  destruct shapes as [|d shapes].
  - split; [done|]. by intros [?|?].
  - split; [by right|]. intros _. simpl.
    by destruct (decide (_ ≠ _)).
Qed.

Lemma metadata_axes_loop_inv (batch_dim : option Z) (axes : Axes)
    (acc l : list Z) :
  metadata_axes_loop batch_dim axes acc = Ok l →
  ∃ ds, l = acc ++ ds
    ∧ Forall2 (λ axis d, metadata_axis_entry batch_dim axis.1 axis.2 = Ok d)
        axes ds.
Proof.
  revert acc. induction axes as [|[ax shapes] axes IH]; intros acc; simpl.
  - intros [= <-]. exists []. by rewrite app_nil_r.
  - destruct (metadata_axis_entry batch_dim ax shapes) as [d|e] eqn:Hd; [|done].
    simpl. intros (ds & -> & Hall)%IH.
    exists (d :: ds). rewrite <- app_assoc. split; [done|]. by constructor.
Qed.

Lemma metadata_axes_loop_returns (batch_dim : option Z) (axes : Axes)
    (acc : list Z) :
  is_ok (metadata_axes_loop batch_dim axes acc) = true
  ↔ ∀ ax shapes, (ax, shapes) ∈ axes → Some ax = batch_dim ∨ shapes ≠ [].
Proof.
  revert acc. induction axes as [|[ax shapes] axes IH]; intros acc; simpl.
  - split; [|done]. intros _ ?? Hin. by apply elem_of_nil in Hin.
  - pose proof (metadata_axis_entry_returns batch_dim ax shapes) as Hentry.
    destruct (metadata_axis_entry batch_dim ax shapes) as [d|e]; simpl.
    + rewrite IH. split.
      * intros Hrest a s [[= -> ->]|Hin]%elem_of_cons; [by apply Hentry|].
        by apply Hrest.
      * intros Hall a s Hin. apply Hall. by right.
    + split; [done|]. intros Hall. apply Hentry, Hall. left.
Qed.

(** X16: the metadata derivation returns exactly when every tensor has a
    dtype and every bucket other than those of the batch axis holds at least
    one observed size: the batch axis is marked dynamic without its bucket
    being read, and a tensor without any axis is accepted. *)
Theorem metadata_returns_iff (axes_shapes : AxesShapes) (batch_dim : option Z)
    (dtypes : list (string * Dtype)) :
  is_ok (_get_metadata_from_axes_shapes axes_shapes batch_dim dtypes) = true
  ↔ ∀ name axes, (name, axes) ∈ axes_shapes →
      is_Some (dict_get dtypes name)
      ∧ ∀ ax shapes, (ax, shapes) ∈ axes →
          Some ax = batch_dim ∨ shapes ≠ [].
Proof.
  unfold _get_metadata_from_axes_shapes.
  generalize (∅ : gmap string TensorSpec).
  induction axes_shapes as [|[name axes] rest IH]; intros m0; simpl.
  - split; [|done]. intros _ ?? Hin. by apply elem_of_nil in Hin.
  - pose proof (metadata_axes_loop_returns batch_dim axes []) as Haxes.
    destruct (metadata_axes_loop batch_dim axes []) as [shape|e]; simpl.
    + unfold getitem. destruct (dict_get dtypes name) as [dt|] eqn:Hdt; simpl.
      * rewrite IH. split.
        -- intros Hrest n a [[= -> ->]|Hin]%elem_of_cons; [|by apply Hrest].
           rewrite Hdt. split; [by eexists|]. by apply Haxes.
        -- intros Hall n a Hin. apply Hall. by right.
      * split; [done|]. intros Hall.
        destruct (Hall name axes) as [[dt Hsome] _]; [left|]. congruence.
    + split; [done|]. intros Hall.
      apply Haxes. by apply (Hall name axes); left.
Qed.

Lemma metadata_loop_lookup (batch_dim : option Z)
    (dtypes : list (string * Dtype)) (axes_shapes : AxesShapes)
    (m0 m : gmap string TensorSpec) (n : string) :
  metadata_loop batch_dim dtypes axes_shapes m0 = Ok m →
  (n ∉ axes_shapes.*1 → m !! n = m0 !! n)
  ∧ (n ∈ axes_shapes.*1 →
     ∃ spec axes,
       m !! n = Some spec ∧ (n, axes) ∈ axes_shapes
       ∧ name spec = n ∧ optional spec = false
       ∧ dict_get dtypes n = Some (dtype spec)
       ∧ Forall2 (λ axis d,
                    metadata_axis_entry batch_dim axis.1 axis.2 = Ok d)
           axes (shape spec)
       ∧ (unique_names axes_shapes →
          ∀ axes', (n, axes') ∈ axes_shapes → axes' = axes)).
Proof.
  revert m0. induction axes_shapes as [|[name axes] rest IH]; intros m0; simpl.
  - intros [= <-]. split; [done|]. intros Hin. by apply elem_of_nil in Hin.
  - destruct (metadata_axes_loop batch_dim axes []) as [shape|e] eqn:Hshape;
      [|done].
    apply metadata_axes_loop_inv in Hshape as (ds & -> & Hall).
    simpl. unfold getitem.
    destruct (dict_get dtypes name) as [dt|] eqn:Hdt; [|done]. simpl.
    intros [Hout Hin]%IH. split.
    + intros [Hne Hn]%not_elem_of_cons. rewrite Hout by done.
      unfold TensorMetadata_add. by rewrite lookup_insert_ne.
    + intros Hn. destruct (decide (n ∈ rest.*1)) as [Hrest|Hrest].
      * destruct (Hin Hrest)
          as (spec & axes' & Hspec & Hmem & Hname & Hopt & Hdtype & Hds & Hu).
        exists spec, axes'. repeat (split; [done|]). split; [by right|].
        repeat (split; [done|]).
        intros Huniq a [[= -> ->]|Ha]%elem_of_cons.
        -- unfold unique_names in Huniq. rewrite fmap_cons in Huniq.
           apply NoDup_cons in Huniq as [Hfresh _]. done.
        -- apply Hu; [|done]. unfold unique_names in Huniq.
           rewrite fmap_cons in Huniq. by apply NoDup_cons in Huniq as [_ ?].
      * apply elem_of_cons in Hn as [->|Hn]; [|done].
        rewrite Hout by done. unfold TensorMetadata_add.
        rewrite lookup_insert_eq. eexists _, axes.
        split; [done|]. split; [left|]. simpl. repeat (split; [done|]).
        intros _ a [[= ->]|Ha]%elem_of_cons; [done|].
        exfalso. apply Hrest. apply list_elem_of_fmap. by exists (name, a).
Qed.

(** X17: the metadata that the derivation returns holds exactly the tensors
    of the mapping; each is stored under its own name, is not optional,
    carries the dtype given for that name, and has one entry of shape per
    axis of the tensor. *)
Theorem metadata_holds_the_tensors (axes_shapes : AxesShapes)
    (batch_dim : option Z) (dtypes : list (string * Dtype))
    (metadata : gmap string TensorSpec) :
  _get_metadata_from_axes_shapes axes_shapes batch_dim dtypes = Ok metadata →
  ∀ n,
    (is_Some (metadata !! n) ↔ n ∈ axes_shapes.*1)
    ∧ ∀ spec, metadata !! n = Some spec →
        name spec = n ∧ optional spec = false
        ∧ dict_get dtypes n = Some (dtype spec)
        ∧ ∃ axes, (n, axes) ∈ axes_shapes
            ∧ length (shape spec) = length axes.
Proof.
  intros Hrun n.
  destruct (metadata_loop_lookup _ _ _ _ _ n Hrun) as [Hout Hin].
  destruct (decide (n ∈ axes_shapes.*1)) as [Hn|Hn].
  - destruct (Hin Hn)
      as (spec & axes & Hspec & Hmem & Hname & Hopt & Hdtype & Hds & _).
    split; [by split; [|eexists]|].
    intros s Hs. rewrite Hspec in Hs. injection Hs as <-.
    repeat (split; [done|]). exists axes. split; [done|].
    symmetry. by eapply Forall2_length.
  - rewrite Hout by done. rewrite lookup_empty. split.
    + split; [by intros [? ?]|done].
    + done.
Qed.

Lemma metadata_holds_the_tensors_witness :
  (is_Some (TensorMetadata_add ∅ "input_0" [-1; 224; 224; 3] "float64"
            !! "input_0"%string)
   ↔ "input_0"%string ∈ shapes_example.*1)
  ∧ ∀ spec,
      TensorMetadata_add ∅ "input_0" [-1; 224; 224; 3] "float64"
      !! "input_0"%string = Some spec →
      name spec = "input_0"%string ∧ optional spec = false
      ∧ dict_get [("input_0"%string, "float64"%string)] "input_0"
        = Some (dtype spec)
      ∧ ∃ axes, ("input_0"%string, axes) ∈ shapes_example
          ∧ length (shape spec) = length axes.
Proof.
  apply (metadata_holds_the_tensors shapes_example (Some 0)
           [("input_0"%string, "float64"%string)]
           (TensorMetadata_add ∅ "input_0" [-1; 224; 224; 3] "float64")).
  reflexivity.
Defined.

End MetadataMore.

(** ** The derivations composed, as the command composes them *)

Section Composition.

Lemma update_head_raises (name : string) (axes : list Z)
    (rest : list (string * list Z)) (m : gmap string TensorSpec)
    (spec : TensorSpec) (j : nat) :
  m !! name = Some spec →
  (∀ a, a ∈ axes → valid_index (length (shape spec)) a) →
  shape spec !! j = Some (-1) →
  Z.of_nat j ∉ axes →
  ∃ j0 : nat, (j0 ≤ j)%nat
    ∧ (_update_user_dynamic_axes_inplace ((name, axes) :: rest) m).2
      = Raise (ValueError (not_dynamic_msg name (Z.of_nat j0))).
Proof.
  intros Hspec Hvalid Hj Hundecl. simpl. rewrite Hspec.
  destruct (set_dynamic_ok axes (shape spec) Hvalid) as [shape' ->].
  destruct (verify_axes name axes 0 (shape spec)) as [[]|e] eqn:Hver.
  - exfalso. apply Hundecl.
    pose proof (proj1 (verify_axes_ok _ _ _ _) Hver j Hj) as Hin.
    by rewrite Z.add_0_l in Hin.
  - apply verify_axes_raise in Hver as (j0 & Hj0 & Hout & -> & Hleast).
    exists j0. rewrite Z.add_0_l. split; [|done].
    destruct (decide (j0 ≤ j)%nat) as [|Hgt]; [done|]. exfalso.
    apply Hundecl. specialize (Hleast j ltac:(lia) Hj).
    by rewrite Z.add_0_l in Hleast.
Qed.

(** X18: the batch axis has to be among the axes the user declares.  The
    metadata derivation marks the batch axis of every tensor dynamic, so
    when the user's [dynamic_axes] names a tensor first and leaves out the
    position of its batch axis, the update that follows the derivation
    raises the validation error for that tensor. *)
Theorem batch_axis_must_be_declared
    (axes_shapes : AxesShapes) (b : Z) (dtypes : list (string * Dtype))
    (metadata : gmap string TensorSpec) (name : string) (axes : Axes)
    (j : nat) (shapes : list Z) (user_axes : list Z)
    (rest : list (string * list Z)) :
  _get_metadata_from_axes_shapes axes_shapes (Some b) dtypes = Ok metadata →
  unique_names axes_shapes →
  (name, axes) ∈ axes_shapes →
  axes !! j = Some (b, shapes) →
  (∀ a, a ∈ user_axes → valid_index (length axes) a) →
  Z.of_nat j ∉ user_axes →
  ∃ j0 : nat, (j0 ≤ j)%nat
    ∧ (_update_user_dynamic_axes_inplace ((name, user_axes) :: rest)
         metadata).2
      = Raise (ValueError (not_dynamic_msg name (Z.of_nat j0))).
Proof.
  intros Hrun Huniq Hin Hj Hvalid Hundecl.
  destruct (metadata_loop_lookup _ _ _ _ _ name Hrun) as [_ Hlook].
  destruct Hlook as (spec & axes' & Hspec & _ & _ & _ & _ & Hds & Hsame).
  { apply list_elem_of_fmap. by exists (name, axes). }
  rewrite <- (Hsame Huniq axes Hin) in Hds.
  destruct (Forall2_lookup_l _ _ _ _ _ Hds Hj) as (d & Hd & Hentry).
  simpl in Hentry. unfold metadata_axis_entry in Hentry.
  rewrite decide_True in Hentry by done. injection Hentry as <-.
  apply (update_head_raises name user_axes rest metadata spec j); try done.
  intros a Ha. rewrite <- (Forall2_length _ _ _ Hds). by apply Hvalid.
Qed.

Lemma batch_axis_must_be_declared_witness :
  ∃ j0 : nat, (j0 ≤ 0)%nat
    ∧ (_update_user_dynamic_axes_inplace [("input_0"%string, [1])]
         (TensorMetadata_add ∅ "input_0" [-1; 224; 224; 3] "float64")).2
      = Raise (ValueError (not_dynamic_msg "input_0" (Z.of_nat j0))).
Proof.
  apply (batch_axis_must_be_declared shapes_example 0
           [("input_0"%string, "float64"%string)] _ "input_0"
           [(0, [1; 1; 1; 1; 1]); (1, [224; 224; 224; 224; 224]);
            (2, [224; 224; 224; 224; 224]); (3, [3; 3; 3; 3; 3])]
           0 [1; 1; 1; 1; 1] [1] []).
  - reflexivity.
  - apply NoDup_singleton.
  - left.
  - reflexivity.
  - intros a ->%list_elem_of_singleton. unfold valid_index. simpl. lia.
  - by intros [=]%list_elem_of_singleton.
Defined.

Lemma is_maximum_unique (l : list Z) (m m' : Z) :
  is_maximum l m → is_maximum l m' → m = m'.
Proof.
  intros [Hin Hup] [Hin' Hup']. specialize (Hup _ Hin').
  specialize (Hup' _ Hin). lia.
Qed.

(** X19: the maximal batch size that the command reports beside the
    profile is the max entry of that profile on the batch axis of the first
    tensor, whose min entry is 1: the two derivations read the same
    bucket. *)
Theorem max_batch_size_is_profile_max
    (name : string) (axes : Axes) (rest : AxesShapes) (b : Z) (j : nat)
    (shapes : list Z) :
  unique_names ((name, axes) :: rest) →
  observed ((name, axes) :: rest) →
  axes !! j = Some (b, shapes) →
  dict_get axes b = Some shapes →
  ∃ profile st m,
    _get_trt_profile_from_axes_shapes ((name, axes) :: rest) (Some b)
    = Ok profile
    ∧ profile !! name = Some st
    ∧ _extract_max_batch_size ((name, axes) :: rest) (Some b) = Ok m
    ∧ max st !! j = Some m
    ∧ min st !! j = Some 1.
Proof.
  intros Huniq Hobs Hj Hget.
  destruct (trt_profile_loop_ok (Some b) _ ∅ Huniq Hobs)
    as (p & Hp & _ & Hderived).
  destruct (Hderived name axes) as (st & Hst & _ & _ & _ & Hentries); [left|].
  destruct (Hentries j _ Hj) as (mn & o & mx & Hmn & _ & Hmx & Hentry).
  destruct Hentry as (Hmin & _ & Hmax). simpl in Hmin, Hmax.
  rewrite decide_True in Hmin by done. subst mn.
  destruct (py_max_ok shapes) as (m & Hm & Hmmax).
  { eapply Hobs; [left|]. eapply list_elem_of_lookup_2. exact Hj. }
  exists p, st, m. repeat (split; [done|]). split.
  - unfold _extract_max_batch_size, getitem. simpl. by rewrite Hget.
  - split; [|done]. by rewrite (is_maximum_unique shapes m mx Hmmax Hmax).
Qed.

Lemma max_batch_size_is_profile_max_witness :
  ∃ profile st m,
    _get_trt_profile_from_axes_shapes batch_example (Some 0) = Ok profile
    ∧ profile !! "input_0"%string = Some st
    ∧ _extract_max_batch_size batch_example (Some 0) = Ok m
    ∧ max st !! 0%nat = Some m
    ∧ min st !! 0%nat = Some 1.
Proof.
  apply (max_batch_size_is_profile_max "input_0" _ [] 0 0 [5; 999; 1; 3; 7]).
  - apply NoDup_singleton.
  - intros n a [= -> ->]%list_elem_of_singleton. split; [done|].
    intros ax shapes Hin%list_elem_of_In. simpl in Hin.
    repeat (destruct Hin as [Heq|Hin]; [by injection Heq as <- <-|]).
    destruct Hin.
  - reflexivity.
  - reflexivity.
Defined.

End Composition.

(** ** Axis-shape extraction: what is consumed, and the other ways it ends *)

Section ExtractAxesShapesMore.
Context {Sample Framework : Type}.
Variable validate_sample_input : Sample → Framework → Res unit.
Variable extract_sample :
  Sample → list string → Framework → Res (list (string * list Z)).

(** Whenever the loop is left normally, its buckets are those of the
    samples it was allowed to take, in order. *)
Lemma extract_loop_sound (dataloader : DataLoader Sample)
    (input_names : list string) (num_samples : Z) (framework : Framework)
    (rest : list Sample) :
  ∀ (i : Z) (last_i last_i' : option Z) (a a' : AxesShapes)
    (log log' : list string),
    extract_loop validate_sample_input extract_sample dataloader input_names
      num_samples framework rest i last_i a log
    = (log', Ok (a', last_i')) →
    consume validate_sample_input extract_sample input_names framework
      (take (Z.to_nat (num_samples - i)) rest) a
    = Ok a'.
Proof.
  induction rest as [|sample rest IH];
    intros i last_i last_i' a a' log log' Hloop; simpl in Hloop.
  - injection Hloop as _ <- _. by rewrite take_nil.
  - destruct (num_samples <=? i) eqn:Hstop.
    + apply Z.leb_le in Hstop.
      replace (Z.to_nat (num_samples - i)) with 0%nat by lia.
      destruct (len dataloader); [|done]. by injection Hloop as _ <- _.
    + apply Z.leb_gt in Hstop.
      replace (Z.to_nat (num_samples - i))
        with (S (Z.to_nat (num_samples - (i + 1)))) by lia.
      simpl.
      destruct (_ ← validate_sample_input sample framework;
                sample' ← extract_sample sample input_names framework;
                append_sample a sample') as [a1|e]; [|done].
      simpl. by eapply IH.
Qed.

(** X20: whenever the extraction returns buckets, they are the buckets of
    the first [num_samples] samples that the source yields (of all of them
    when it yields fewer), consumed in order from the empty buckets of the
    declared names: nothing past the target count is ever appended, and no
    sample before it is skipped. *)
Theorem extract_axes_shapes_sound
    (dataloader : DataLoader Sample) (input_names : list string)
    (input_ndims : list Z) (num_samples : Z) (framework : Framework)
    (check_len : bool) (axes_shapes : AxesShapes) :
  (_extract_axes_shapes validate_sample_input extract_sample dataloader
     input_names input_ndims num_samples framework check_len).2
  = Ok axes_shapes →
  consume validate_sample_input extract_sample input_names framework
    (take (Z.to_nat num_samples) (samples dataloader))
    (init_axes_shapes input_names input_ndims)
  = Ok axes_shapes.
Proof.
  unfold _extract_axes_shapes.
  destruct (check_len && negb (bool_decide (is_Some (len dataloader))));
    [done|].
  destruct (extract_loop _ _ _ _ _ _ _ _ _ _ _) as [log [[a last_i]|e]]
    eqn:Hloop; [|done].
  apply extract_loop_sound in Hloop. rewrite Z.sub_0_r in Hloop.
  intros Hret. rewrite Hloop. f_equal.
  destruct check_len; [|by injection Hret].
  destruct last_i as [i|]; [|done].
  destruct (len dataloader) as [n|]; [|done].
  destruct (n <=? i + 1); [by injection Hret|done].
Qed.

Lemma extract_loop_more_unsized (dataloader : DataLoader Sample)
    (input_names : list string) (num_samples : Z) (framework : Framework)
    (rest : list Sample) :
  len dataloader = None →
  ∀ (i : Z) (last_i : option Z) (a a' : AxesShapes) (log : list string),
    0 ≤ i ≤ num_samples →
    num_samples - i < Z.of_nat (length rest) →
    consume validate_sample_input extract_sample input_names framework
      (take (Z.to_nat (num_samples - i)) rest) a
    = Ok a' →
    extract_loop validate_sample_input extract_sample dataloader input_names
      num_samples framework rest i last_i a log
    = (log, Raise TypeError).
Proof.
  intros Hlen. induction rest as [|sample rest IH];
    intros i last_i a a' log Hi Hmore Hcons; simpl in *; [lia|].
  destruct (num_samples <=? i) eqn:Hstop.
  - by rewrite Hlen.
  - apply Z.leb_gt in Hstop.
    replace (Z.to_nat (num_samples - i))
      with (S (Z.to_nat (num_samples - (i + 1)))) in Hcons by lia.
    simpl in Hcons.
    destruct (_ ← validate_sample_input sample framework;
              sample' ← extract_sample sample input_names framework;
              append_sample a sample') as [a1|e]; [|done].
    simpl in Hcons. eapply IH; [lia|lia|done].
Qed.

(** X21: on a source that has no length, such as the generator of outputs
    that the output-metadata command passes with [check_len] off, yielding
    more than [num_samples] valid samples, the call does not stop with a
    warning: it raises [TypeError], the text of the warning being built
    from [len(dataloader)]; nothing is logged and no buckets are
    returned. *)
Theorem unsized_source_with_more_samples
    (dataloader : DataLoader Sample) (input_names : list string)
    (input_ndims : list Z) (num_samples : Z) (framework : Framework)
    (axes_shapes : AxesShapes) :
  len dataloader = None →
  0 ≤ num_samples →
  num_samples < Z.of_nat (length (samples dataloader)) →
  consume validate_sample_input extract_sample input_names framework
    (take (Z.to_nat num_samples) (samples dataloader))
    (init_axes_shapes input_names input_ndims)
  = Ok axes_shapes →
  _extract_axes_shapes validate_sample_input extract_sample dataloader
    input_names input_ndims num_samples framework false
  = ([], Raise TypeError).
Proof.
  intros Hlen HN Hmore Hcons. unfold _extract_axes_shapes. simpl.
  by rewrite (extract_loop_more_unsized dataloader input_names num_samples
                framework (samples dataloader) Hlen 0 None _ axes_shapes []);
    [|lia|lia|by rewrite Z.sub_0_r].
Qed.

(** X22: when the source yields at most [num_samples] samples, all valid,
    the call consumes every one of them and logs nothing; it returns their
    buckets when [check_len] is off, and also when it is on provided the
    source yields at least one sample and reports no more than it
    yields. *)
Theorem extract_axes_shapes_all_samples
    (dataloader : DataLoader Sample) (input_names : list string)
    (input_ndims : list Z) (num_samples : Z) (framework : Framework)
    (check_len : bool) (axes_shapes : AxesShapes) :
  Z.of_nat (length (samples dataloader)) ≤ num_samples →
  consume validate_sample_input extract_sample input_names framework
    (samples dataloader) (init_axes_shapes input_names input_ndims)
  = Ok axes_shapes →
  check_len = false
  ∨ (samples dataloader ≠ []
     ∧ ∃ n, len dataloader = Some n
            ∧ n ≤ Z.of_nat (length (samples dataloader))) →
  _extract_axes_shapes validate_sample_input extract_sample dataloader
    input_names input_ndims num_samples framework check_len
  = ([], Ok axes_shapes).
Proof.
  intros Hfew Hcons Hcheck. unfold _extract_axes_shapes.
  rewrite (extract_loop_fewer validate_sample_input extract_sample dataloader
             input_names num_samples framework (samples dataloader) 0 None _
             axes_shapes []); [|lia|done].
  destruct Hcheck as [->|(Hne & n & Hlen & Hn)]; [done|].
  rewrite Hlen.
  rewrite (bool_decide_eq_true_2 (is_Some (Some n))) by eauto.
  rewrite andb_false_r.
  destruct check_len; [|done].
  destruct (samples dataloader) as [|sample rest]; [done|].
  by rewrite (proj2 (Z.leb_le _ _)) by (simpl length in *; lia).
Qed.

(** X23: a source that yields no sample makes the call fail with
    [UnboundLocalError] when [check_len] is on, whatever length it reports,
    0 included: the length is compared with the loop variable, which no
    iteration has bound. *)
Theorem empty_source_cannot_be_checked
    (dataloader : DataLoader Sample) (input_names : list string)
    (input_ndims : list Z) (num_samples : Z) (framework : Framework) :
  samples dataloader = [] →
  is_Some (len dataloader) →
  _extract_axes_shapes validate_sample_input extract_sample dataloader
    input_names input_ndims num_samples framework true
  = ([], Raise UnboundLocalError).
Proof.
  intros Hempty [n Hlen]. unfold _extract_axes_shapes.
  rewrite Hlen, Hempty.
  by rewrite (bool_decide_eq_true_2 (is_Some (Some n))) by eauto.
Qed.

End ExtractAxesShapesMore.

Section ExtractAxesShapesMoreExamples.

Lemma extract_axes_shapes_sound_witness :
  consume accept_sample sample_as_is ["x"%string] ()
    (take (Z.to_nat 2) (samples three_samples))
    (init_axes_shapes ["x"%string] [2])
  = Ok [("x"%string, [(0, [2; 2]); (1, [8; 8])])].
Proof.
  apply (extract_axes_shapes_sound accept_sample sample_as_is three_samples
           ["x"%string] [2] 2 () true).
  reflexivity.
Defined.

Lemma unsized_source_with_more_samples_witness :
  _extract_axes_shapes accept_sample sample_as_is
    {| samples := [mapping_sample; mapping_sample]; len := None |}
    ["x"%string] [2] 1 () false
  = ([], Raise TypeError).
Proof.
  apply (unsized_source_with_more_samples accept_sample sample_as_is
           {| samples := [mapping_sample; mapping_sample]; len := None |}
           ["x"%string] [2] 1 () [("x"%string, [(0, [2]); (1, [8])])]);
    [reflexivity | lia | simpl; lia | reflexivity].
Defined.

Lemma extract_axes_shapes_all_samples_witness :
  _extract_axes_shapes accept_sample sample_as_is three_samples
    ["x"%string] [2] 3 () true
  = ([], Ok [("x"%string, [(0, [2; 2; 2]); (1, [8; 8; 8])])]).
Proof.
  apply (extract_axes_shapes_all_samples accept_sample sample_as_is
           three_samples ["x"%string] [2] 3 () true);
    [simpl; lia | reflexivity |].
  right. split; [discriminate|]. exists 3. split; [reflexivity|simpl; lia].
Defined.

Lemma empty_source_cannot_be_checked_witness :
  _extract_axes_shapes accept_sample sample_as_is
    {| samples := []; len := Some 0 |} ["x"%string] [2] 0 () true
  = ([], Raise UnboundLocalError).
Proof.
  apply (empty_source_cannot_be_checked accept_sample sample_as_is
           {| samples := []; len := Some 0 |} ["x"%string] [2] 0 ());
    [reflexivity | by eexists].
Defined.

End ExtractAxesShapesMoreExamples.


(** ** The buckets in closed form *)

Section BucketsFacts.
Import Buckets.
#[local] Set Warnings "-clear-no-such-hyp".

Lemma dict_get_tab {K V} `{EqDecision K} (keys : list K) (g : K → V)
    (key : K) :
  key ∈ keys → dict_get (tab keys g) key = Some (g key).
Proof.
  induction keys as [|k keys IH]; intros Hin; [by apply elem_of_nil in Hin|].
  simpl. destruct (decide (k = key)) as [->|Hne]; [done|].
  apply elem_of_cons in Hin as [->|Hin]; [done|]. by apply IH.
Qed.

Lemma dict_set_tab {K V} `{EqDecision K} (keys : list K) (g : K → V)
    (key : K) (v : V) :
  NoDup keys → key ∈ keys →
  dict_set (tab keys g) key v
  = tab keys (λ k, if decide (k = key) then v else g k).
Proof.
  induction keys as [|k keys IH]; intros Hnd Hin;
    [by apply elem_of_nil in Hin|].
  apply NoDup_cons in Hnd as [Hfresh Hnd]. simpl.
  destruct (decide (k = key)) as [->|Hne].
  - f_equal. unfold tab. apply list_fmap_ext. intros i k Hk.
    destruct (decide (k = key)) as [->|]; [|done].
    exfalso. apply Hfresh. by eapply list_elem_of_lookup_2.
  - f_equal. apply elem_of_cons in Hin as [->|Hin]; [done|]. by apply IH.
Qed.

Lemma tab_ext {K V} (keys : list K) (g g' : K → V) :
  (∀ key, key ∈ keys → g key = g' key) → tab keys g = tab keys g'.
Proof.
  intros Hext. unfold tab. apply list_fmap_ext. intros i k Hk.
  by rewrite (Hext k) by (by eapply list_elem_of_lookup_2).
Qed.

Lemma axis_keys_elem (ndim k : Z) : k ∈ axis_keys ndim ↔ 0 ≤ k < ndim.
Proof.
  unfold axis_keys. rewrite list_elem_of_fmap. split.
  - intros (i & -> & Hi%elem_of_seq). lia.
  - intros Hk. exists (Z.to_nat k). split; [lia|]. apply elem_of_seq. lia.
Qed.

Lemma axis_keys_NoDup (ndim : Z) : NoDup (axis_keys ndim).
Proof.
  unfold axis_keys. apply NoDup_fmap; [apply _|apply NoDup_seq].
Qed.

Lemma buckets_ext (declared : list (string * Z))
    (F F' : string → Z → list Z) :
  (∀ name k, name ∈ declared.*1 → 0 ≤ k < rank_of declared name →
     F name k = F' name k) →
  buckets declared F = buckets declared F'.
Proof.
  intros Hext. unfold buckets. apply tab_ext. intros name Hname.
  apply tab_ext. intros k Hk%axis_keys_elem. by apply Hext.
Qed.

Lemma dict_get_unique {V} (d : list (string * V)) (k : string) (v : V) :
  NoDup d.*1 → (k, v) ∈ d → dict_get d k = Some v.
Proof.
  induction d as [|[k' v'] d IH]; intros Hnd Hin;
    [by apply elem_of_nil in Hin|].
  rewrite fmap_cons in Hnd. apply NoDup_cons in Hnd as [Hfresh Hnd]. simpl.
  apply elem_of_cons in Hin as [[= -> ->]|Hin].
  - by rewrite decide_True.
  - rewrite decide_False; [by apply IH|].
    intros ->. apply Hfresh. apply list_elem_of_fmap. by exists (k, v).
Qed.

Lemma dict_get_None {V} (d : list (string * V)) (k : string) :
  k ∉ d.*1 → dict_get d k = None.
Proof.
  induction d as [|[k' v'] d IH]; intros Hk; [done|].
  rewrite fmap_cons in Hk. apply not_elem_of_cons in Hk as [Hne Hk]. simpl.
  rewrite decide_False by done. by apply IH.
Qed.

Lemma dict_set_fresh {V} (d : list (string * V)) (k : string) (v : V) :
  k ∉ d.*1 → dict_set d k v = d ++ [(k, v)].
Proof.
  induction d as [|[k' v'] d IH]; intros Hk; [done|].
  rewrite fmap_cons in Hk. apply not_elem_of_cons in Hk as [Hne Hk]. simpl.
  rewrite decide_False by done. by rewrite IH.
Qed.

Lemma empty_axes_tab (ndim : Z) :
  empty_axes ndim = tab (axis_keys ndim) (λ _, []).
Proof.
  unfold empty_axes, tab, axis_keys. by rewrite <- list_fmap_compose.
Qed.

(** The buckets before any sample: every one empty. *)
Lemma init_axes_shapes_buckets (input_names : list string)
    (input_ndims : list Z) :
  NoDup (zip input_names input_ndims).*1 →
  init_axes_shapes input_names input_ndims
  = buckets (zip input_names input_ndims) (λ _ _, []).
Proof.
  unfold init_axes_shapes. set (declared := zip input_names input_ndims).
  intros Hnd.
  assert (∀ (l : list (string * Z)) (acc : AxesShapes),
            NoDup (acc.*1 ++ l.*1) →
            fold_left (λ d '(name, ndim), dict_set d name (empty_axes ndim))
              l acc
            = acc ++ ((λ '(name, ndim), (name, empty_axes ndim)) <$> l))
    as Hfold.
  { induction l as [|[n d] l IH]; intros acc Hacc; simpl.
    - by rewrite app_nil_r.
    - rewrite fmap_cons in Hacc. apply NoDup_app in Hacc as (Ha & Hdisj & Hl).
      rewrite dict_set_fresh.
      + rewrite IH; [by rewrite <- app_assoc|].
        rewrite fmap_app. simpl. rewrite <- app_assoc. simpl.
        apply NoDup_app. split; [done|]. split; [done|done].
      + intros Hin. apply (Hdisj _ Hin). left. }
  rewrite Hfold by done. simpl. unfold buckets, tab.
  rewrite <- list_fmap_compose. apply list_fmap_ext.
  intros i [n d] Hi. simpl. f_equal. rewrite empty_axes_tab. f_equal.
  unfold rank_of. rewrite (dict_get_unique declared n d); [done|done|].
  by eapply list_elem_of_lookup_2.
Qed.

Lemma getitem_buckets (declared : list (string * Z))
    (F : string → Z → list Z) (name : string) :
  name ∈ declared.*1 →
  getitem (buckets declared F) name
  = Ok (tab (axis_keys (rank_of declared name)) (F name)).
Proof.
  intros Hname. unfold getitem, buckets. by rewrite dict_get_tab.
Qed.

(** Writing one bucket of one tensor. *)
Lemma dict_set_buckets (declared : list (string * Z))
    (F : string → Z → list Z) (name : string) (k : Z) (v : list Z) :
  NoDup declared.*1 → name ∈ declared.*1 →
  0 ≤ k < rank_of declared name →
  dict_set (buckets declared F) name
    (dict_set (tab (axis_keys (rank_of declared name)) (F name)) k v)
  = buckets declared
      (λ n ax, if decide (n = name ∧ ax = k) then v else F n ax).
Proof.
  intros Hnd Hname Hk. unfold buckets.
  rewrite dict_set_tab by done. apply tab_ext. intros n Hn.
  destruct (decide (n = name)) as [->|Hne].
  - rewrite dict_set_tab by (apply axis_keys_NoDup || by apply axis_keys_elem).
    apply tab_ext. intros ax Hax.
    destruct (decide (ax = k)) as [->|?].
    + by rewrite decide_True.
    + rewrite decide_False; [done|]. by intros [_ ?].
  - apply tab_ext. intros ax Hax. rewrite decide_False; [done|].
    by intros [? _].
Qed.

Lemma append_dims_buckets (declared : list (string * Z)) (name : string)
    (dims : list Z) :
  NoDup declared.*1 → name ∈ declared.*1 →
  ∀ (F : string → Z → list Z) (k : Z),
    0 ≤ k → k + Z.of_nat (length dims) ≤ rank_of declared name →
    append_dims (buckets declared F) name k dims
    = Ok (buckets declared
            (λ n ax,
               if decide (n = name ∧ k ≤ ax < k + Z.of_nat (length dims))
               then F n ax ++ [default 0 (dims !! Z.to_nat (ax - k))]
               else F n ax)).
Proof.
  intros Hnd Hname. induction dims as [|dim dims IH]; intros F k Hk Hfit.
  - simpl. f_equal. apply buckets_ext. intros n ax _ _.
    rewrite decide_False; [done|]. simpl. lia.
  - simpl length in Hfit. simpl.
    rewrite getitem_buckets by done. simpl.
    unfold getitem at 1.
    rewrite dict_get_tab by (apply axis_keys_elem; lia). simpl.
    rewrite dict_set_buckets by (done || lia).
    rewrite IH by lia. f_equal. apply buckets_ext. intros n ax _ Hax.
    simpl length.
    repeat case_decide; destruct_and?; simplify_eq; try done;
      try (exfalso; intuition lia).
    + assert (Z.to_nat (ax - k) = S (Z.to_nat (ax - (k + 1)))) as -> by lia.
      done.
    + by rewrite Z.sub_diag.
Qed.

(** Appending the sizes of the tensors of one extracted sample. *)
Lemma append_sample_buckets (declared : list (string * Z))
    (sample : list (string * list Z)) :
  NoDup declared.*1 →
  NoDup sample.*1 →
  (∀ name shape, (name, shape) ∈ sample →
     name ∈ declared.*1
     ∧ Z.of_nat (length shape) = rank_of declared name) →
  ∀ F : string → Z → list Z,
    append_sample (buckets declared F) sample
    = Ok (buckets declared
            (λ n ax,
               if decide (n ∈ sample.*1)
               then F n ax ++ [size_in sample n ax]
               else F n ax)).
Proof.
  intros Hnd. induction sample as [|[name shape] sample IH];
    intros Huniq Hshape F.
  - simpl. by f_equal.
  - rewrite fmap_cons in Huniq. apply NoDup_cons in Huniq as [Hfresh Huniq].
    destruct (Hshape name shape) as [Hname Hrank]; [left|].
    simpl. rewrite append_dims_buckets by (done || lia). simpl.
    rewrite IH; [|done|by intros ?? Hin; apply Hshape; right].
    f_equal. apply buckets_ext. intros n ax Hn Hax.
    unfold size_in. simpl. simpl in Hfresh.
    destruct (decide (name = n)) as [->|Hne];
      repeat case_decide; destruct_and?; simplify_eq/=; try done;
      try (exfalso; set_solver); try (exfalso; naive_solver lia).
    by rewrite Z.sub_0_r.
Qed.

Lemma column_snoc (extracted : list (list (string * list Z)))
    (sample : list (string * list Z)) (name : string) (k : Z) :
  column (extracted ++ [sample]) name k
  = column extracted name k ++ [size_in sample name k].
Proof. unfold column. by rewrite fmap_app. Qed.

Section Consume.
Context {Sample Framework : Type}.
Variable validate_sample_input : Sample → Framework → Res unit.
Variable extract_sample :
  Sample → list string → Framework → Res (list (string * list Z)).

(** Consuming valid samples that hold the declared tensors fills the
    buckets column by column. *)
Lemma consume_buckets (declared : list (string * Z))
    (input_names : list string) (framework : Framework)
    (samples : list Sample) (extracted : list (list (string * list Z))) :
  NoDup declared.*1 →
  Forall2 (λ sample sample',
             validate_sample_input sample framework = Ok ()
             ∧ extract_sample sample input_names framework = Ok sample'
             ∧ well_shaped declared sample')
    samples extracted →
  ∀ before,
    consume validate_sample_input extract_sample input_names framework
      samples (buckets declared (column before))
    = Ok (buckets declared (column (before ++ extracted))).
Proof.
  intros Hnd. induction 1 as [|sample sample' samples extracted
                                 (Hval & Hext & Huniq & Hall & Hshape) _ IH];
    intros before; simpl.
  - by rewrite app_nil_r.
  - rewrite Hval, Hext. simpl.
    rewrite append_sample_buckets by done. simpl.
    rewrite (buckets_ext declared _ (column (before ++ [sample']))).
    + rewrite IH. by rewrite <- app_assoc.
    + intros n ax Hn _. rewrite decide_True by (by apply Hall).
      by rewrite column_snoc.
Qed.

(** X24: when the declared names are distinct and every consumed sample is
    valid and extracts to the declared tensors, each of its declared rank,
    the buckets that the extraction returns are, for every declared tensor
    and every axis below its rank, the sizes of that axis of that tensor
    over the consumed samples, in the order of the samples: one entry per
    sample in every bucket. *)
Theorem extract_axes_shapes_columns
    (dataloader : DataLoader Sample) (input_names : list string)
    (input_ndims : list Z) (num_samples : Z) (framework : Framework)
    (check_len : bool) (axes_shapes : AxesShapes)
    (extracted : list (list (string * list Z))) :
  NoDup (zip input_names input_ndims).*1 →
  Forall2 (λ sample sample',
             validate_sample_input sample framework = Ok ()
             ∧ extract_sample sample input_names framework = Ok sample'
             ∧ well_shaped (zip input_names input_ndims) sample')
    (take (Z.to_nat num_samples) (samples dataloader)) extracted →
  (_extract_axes_shapes validate_sample_input extract_sample dataloader
     input_names input_ndims num_samples framework check_len).2
  = Ok axes_shapes →
  axes_shapes = buckets (zip input_names input_ndims) (column extracted)
  ∧ ∀ name ndim k,
      (name, ndim) ∈ zip input_names input_ndims → 0 ≤ k < ndim →
      dict_get axes_shapes name ≫= (λ axes, dict_get axes k)
      = Some (column extracted name k)
      ∧ length (column extracted name k) = length extracted.
Proof.
  intros Hnd Hsamples Hret.
  assert (axes_shapes
          = buckets (zip input_names input_ndims) (column extracted)) as ->.
  { unfold _extract_axes_shapes in Hret.
    destruct (check_len && negb (bool_decide (is_Some (len dataloader))));
      [done|].
    destruct (extract_loop _ _ _ _ _ _ _ _ _ _ _) as [log [[a last_i]|e]]
      eqn:Hloop; [|done].
    apply extract_loop_sound in Hloop. rewrite Z.sub_0_r in Hloop.
    rewrite init_axes_shapes_buckets in Hloop by done.
    change (λ (_ : string) (_ : Z), @nil Z) with (column []) in Hloop.
    rewrite (consume_buckets _ _ _ _ _ Hnd Hsamples []) in Hloop.
    injection Hloop as <-.
    destruct check_len; [|by injection Hret].
    destruct last_i as [i|]; [|done].
    destruct (len dataloader) as [n|]; [|done].
    destruct (n <=? i + 1); [by injection Hret|done]. }
  split; [done|]. intros name ndim k Hin Hk.
  assert (name ∈ (zip input_names input_ndims).*1) as Hname.
  { apply list_elem_of_fmap. by exists (name, ndim). }
  unfold buckets at 1. rewrite dict_get_tab by done. simpl.
  rewrite dict_get_tab.
  - split; [done|]. unfold column. by rewrite length_fmap.
  - apply axis_keys_elem. unfold rank_of.
    by rewrite (dict_get_unique _ name ndim).
Qed.

End Consume.

Lemma extract_axes_shapes_columns_witness :
  [("x"%string, [(0, [2; 2]); (1, [8; 8])])]
  = buckets (zip ["x"%string] [2]) (column [mapping_sample; mapping_sample])
  ∧ ∀ name ndim k,
      (name, ndim) ∈ zip ["x"%string] [2] → 0 ≤ k < ndim →
      dict_get [("x"%string, [(0, [2; 2]); (1, [8; 8])])] name
        ≫= (λ axes, dict_get axes k)
      = Some (column [mapping_sample; mapping_sample] name k)
      ∧ length (column [mapping_sample; mapping_sample] name k)
        = length [mapping_sample; mapping_sample].
Proof.
  apply (extract_axes_shapes_columns accept_sample sample_as_is three_samples
           ["x"%string] [2] 2 () true).
  - apply NoDup_singleton.
  - assert (well_shaped (zip ["x"%string] [2]) mapping_sample) as Hshaped.
    { unfold mapping_sample. split; [apply NoDup_singleton|].
      split; [done|].
      intros name shape [= -> ->]%list_elem_of_singleton.
      split; [left|reflexivity]. }
    simpl.
    repeat (constructor;
            [split; [reflexivity|split; [reflexivity|exact Hshaped]]|]).
    constructor.
  - reflexivity.
Defined.

End BucketsFacts.


(** ** The identifier of a pipeline *)

Section PipelineIdFacts.
Import Strings.Ascii PipelineId.

Lemma map_string_length (f : ascii → ascii) (s : string) :
  String.length (map_string f s) = String.length s.
Proof. induction s as [|c s IH]; simpl; by rewrite ?IH. Qed.

Lemma map_string_compose (f g : ascii → ascii) (s : string) :
  map_string f (map_string g s) = map_string (λ c, f (g c)) s.
Proof. induction s as [|c s IH]; simpl; by rewrite ?IH. Qed.

Lemma map_string_ext (f g : ascii → ascii) (s : string) :
  (∀ c, f c = g c) → map_string f s = map_string g s.
Proof. intros Hfg. induction s as [|c s IH]; simpl; by rewrite ?IH, ?Hfg. Qed.

Lemma map_string_chars (f : ascii → ascii) (s : string) (c : ascii) :
  In c (list_ascii_of_string (map_string f s)) →
  ∃ c0, In c0 (list_ascii_of_string s) ∧ c = f c0.
Proof.
  induction s as [|c1 s IH]; simpl; [done|].
  intros [<-|Hin].
  - exists c1. by split; [left|].
  - destruct (IH Hin) as (c0 & Hc0 & ->). exists c0. by split; [right|].
Qed.

(** The three steps on one character. *)
Lemma id_char_clean (c : ascii) :
  let c' := (if Strings.Ascii.eqb (if Strings.Ascii.eqb (lower_char c) " " then "_"%char
                           else lower_char c) "-"
             then "_"%char
             else if Strings.Ascii.eqb (lower_char c) " " then "_"%char
                  else lower_char c) in
  c' ≠ " "%char ∧ c' ≠ "-"%char
  ∧ ¬ (65 ≤ nat_of_ascii c' ≤ 90)%nat
  ∧ (if Strings.Ascii.eqb (if Strings.Ascii.eqb (lower_char c') " " then "_"%char
                   else lower_char c') "-"
     then "_"%char
     else if Strings.Ascii.eqb (lower_char c') " " then "_"%char
          else lower_char c') = c'.
Proof.
  destruct c as [[] [] [] [] [] [] [] []]; vm_compute;
    (split; [discriminate|split; [discriminate|split; [lia|reflexivity]]]).
Qed.

(** X25: the identifier of a pipeline with an ASCII name has as many
    characters as the name and holds neither a space, nor a hyphen, nor an
    upper-case letter; computing the identifier of an identifier changes
    nothing. *)
Theorem pipeline_id_clean (name : string) :
  is_ascii name →
  String.length (pipeline_id name) = String.length name
  ∧ (∀ c, In c (list_ascii_of_string (pipeline_id name)) →
       c ≠ " "%char ∧ c ≠ "-"%char ∧ ¬ (65 ≤ nat_of_ascii c ≤ 90)%nat)
  ∧ pipeline_id (pipeline_id name) = pipeline_id name.
Proof.
  intros _. unfold pipeline_id, replace, lower.
  rewrite !map_string_compose. split; [apply map_string_length|]. split.
  - intros c (c0 & _ & ->)%map_string_chars.
    destruct (id_char_clean c0) as (? & ? & ? & _). done.
  - apply map_string_ext. intros c. by destruct (id_char_clean c) as (_ & _ & _ & ?).
Qed.

Lemma pipeline_id_clean_witness :
  String.length (pipeline_id "TensorFlow 2 pipeline")
  = String.length "TensorFlow 2 pipeline"
  ∧ (∀ c, In c (list_ascii_of_string (pipeline_id "TensorFlow 2 pipeline")) →
       c ≠ " "%char ∧ c ≠ "-"%char ∧ ¬ (65 ≤ nat_of_ascii c ≤ 90)%nat)
  ∧ pipeline_id (pipeline_id "TensorFlow 2 pipeline")
    = pipeline_id "TensorFlow 2 pipeline".
Proof.
  apply pipeline_id_clean. intros c Hin. simpl in Hin.
  repeat (destruct Hin as [<-|Hin]; [vm_compute; lia|]). destruct Hin.
Defined.

Example pipeline_id_tensorflow :
  pipeline_id "TensorFlow 2 pipeline" = "tensorflow_2_pipeline"%string.
Proof. reflexivity. Qed.

End PipelineIdFacts.
